(** * easysmsnode: the batch payment dispatcher and its scheduler

    A shallow embedding of
    - [services/payment.js]   (class [PaymentService], the dispatch engine),
    - [services/scheduler.js] (class [SchedulerService], the job scheduler),
    - [controllers/payment.controller.js] (the control plane in front of it),
    - [services/auth.js]      (class [AuthService], the login token),
    - class [MsisdnService]   (the subscriber lookup and its cache),
    followed by the properties of the specification that concern them and
    by further properties of the code.

    JavaScript numbers that reach this code are integers, [NaN] or
    (through a division by zero) [+Infinity]; they are modelled by [jsnum].
    The outside world (the upstream endpoints, the order in which the
    requests of a batch settle, the clock, the rounding of the derived
    rates) enters through section variables. *)

From Stdlib Require Import String Ascii ZArith Bool Lia Arith Permutation Sorted
  List.
Import ListNotations.
Local Open Scope string_scope.
Local Open Scope list_scope.
Local Open Scope Z_scope.

Set Implicit Arguments.

(* ================================================================== *)
(** ** JavaScript numbers and values *)
(* ================================================================== *)

Module Js.

(** The numbers this program computes with. *)
Inductive jsnum : Type :=
| JInt (z : Z)
| JInf
| JNaN.

(** [a < b], [a > b]: every comparison with [NaN] is false. *)
Definition lt (a b : jsnum) : bool :=
  match a, b with
  | JInt x, JInt y => x <? y
  | JInt _, JInf => true
  | _, _ => false
  end.

Definition gt (a b : jsnum) : bool := lt b a.

(** [a - n] for an integer [n]. *)
Definition sub (a : jsnum) (n : Z) : jsnum :=
  match a with
  | JInt x => JInt (x - n)
  | JInf => JInf
  | JNaN => JNaN
  end.

(** [a + b]. *)
Definition plus (a b : jsnum) : jsnum :=
  match a, b with
  | JInt x, JInt y => JInt (x + y)
  | JNaN, _ | _, JNaN => JNaN
  | _, _ => JInf
  end.

(** [a + n] for an integer [n]. *)
Definition add (a : jsnum) (n : Z) : jsnum := plus a (JInt n).

(** [Math.max(n, a)] for an integer [n]. *)
Definition max (n : Z) (a : jsnum) : jsnum :=
  match a with
  | JInt x => JInt (Z.max n x)
  | JInf => JInf
  | JNaN => JNaN
  end.

(** [Math.ceil(n / b)] for an integer [n >= 0] (a length). *)
Definition ceil_div (n : Z) (b : jsnum) : jsnum :=
  match b with
  | JInt 0 => if n =? 0 then JNaN else JInf
  | JInt y => JInt (- ((- n) / y))
  | JInf => JInt 0
  | JNaN => JNaN
  end.

(** The [deleteCount] of [Array.prototype.splice(0, deleteCount)] on an
    array of length [len]: [ToIntegerOrInfinity] sends [NaN] to 0, and the
    result is clamped to [0 .. len]. *)
Definition delete_count (c : jsnum) (len : nat) : nat :=
  match c with
  | JInt x => Nat.min (Z.to_nat x) len
  | JInf => len
  | JNaN => 0%nat
  end.

(** [arr.splice(0, c)]: the removed prefix and what is left in [arr]. *)
Definition splice {A : Type} (arr : list A) (c : jsnum) : list A * list A :=
  let k := delete_count c (length arr) in (firstn k arr, skipn k arr).

(** The values a JSON request body field can hold (numbers restricted to
    those written as integers: [VNum z] is the double that the literal
    of [z] denotes; a missing field is [VUndefined]). *)
Inductive jsval : Type :=
| VUndefined
| VNull
| VBool (b : bool)
| VNum (z : Z)
| VStr (s : string).

(** [Boolean(v)]. *)
Definition to_boolean (v : jsval) : bool :=
  match v with
  | VUndefined | VNull => false
  | VBool b => b
  | VNum z => negb (z =? 0)
  | VStr s => negb (String.eqb s "")
  end.

(** *** [parseInt] *)

(** White space and line terminators.  Strings are held as their UTF-8
    bytes: the space and the control characters 9 to 13 are one byte
    each, the other white space of JavaScript (U+00A0, U+1680, U+2000 to
    U+200A, U+2028, U+2029, U+202F, U+205F, U+3000, U+FEFF) two or three
    bytes. *)
Definition is_space (c : ascii) : bool :=
  let n := nat_of_ascii c in
  ((n =? 32) || (9 <=? n) && (n <=? 13))%nat.

(** The number of bytes of the white-space character that [s] starts
    with; 0 when it starts with none. *)
Definition space_width (s : string) : nat :=
  match s with
  | String c r =>
      if is_space c then 1%nat
      else
        match nat_of_ascii c, r with
        | 194%nat, String c1 _ =>
            if (nat_of_ascii c1 =? 160)%nat then 2%nat else 0%nat
        | 225%nat, String c1 (String c2 _) =>
            if ((nat_of_ascii c1 =? 154) && (nat_of_ascii c2 =? 128))%nat
            then 3%nat else 0%nat
        | 226%nat, String c1 (String c2 _) =>
            let n1 := nat_of_ascii c1 in
            let n2 := nat_of_ascii c2 in
            if ((n1 =? 128)
                && (((128 <=? n2) && (n2 <=? 138))
                    || (n2 =? 168) || (n2 =? 169) || (n2 =? 175))
                || (n1 =? 129) && (n2 =? 159))%nat
            then 3%nat else 0%nat
        | 227%nat, String c1 (String c2 _) =>
            if ((nat_of_ascii c1 =? 128) && (nat_of_ascii c2 =? 128))%nat
            then 3%nat else 0%nat
        | 239%nat, String c1 (String c2 _) =>
            if ((nat_of_ascii c1 =? 187) && (nat_of_ascii c2 =? 191))%nat
            then 3%nat else 0%nat
        | _, _ => 0%nat
        end
  | EmptyString => 0%nat
  end.

Fixpoint drop (n : nat) (s : string) : string :=
  match n, s with
  | S n', String _ r => drop n' r
  | _, _ => s
  end.

(** The string without its leading white space; a string of [fuel]
    bytes at most. *)
Fixpoint trim_from (fuel : nat) (s : string) : string :=
  match fuel with
  | O => s
  | S fuel' =>
      match space_width s with
      | O => s
      | w => trim_from fuel' (drop w s)
      end
  end.

Definition trim_start (s : string) : string :=
  trim_from (String.length s) s.

(** The value of [c] as a digit in base [radix], if it is one. *)
Definition digit_of (radix : Z) (c : ascii) : option Z :=
  let n := Z.of_nat (nat_of_ascii c) in
  let d :=
    if (48 <=? n) && (n <=? 57) then Some (n - 48)
    else if (97 <=? n) && (n <=? 122) then Some (n - 87)
    else if (65 <=? n) && (n <=? 90) then Some (n - 55)
    else None in
  match d with
  | Some v => if v <? radix then Some v else None
  | None => None
  end.

(** The longest prefix of digits, read in base [radix]; [None] when the
    prefix is empty. *)
Fixpoint digits (radix : Z) (s : string) (acc : option Z) : option Z :=
  match s with
  | String c r =>
      match digit_of radix c with
      | Some d =>
          digits radix r
            (Some (match acc with Some a => a * radix + d | None => d end))
      | None => acc
      end
  | EmptyString => acc
  end.

(** *** Numbers as doubles *)

(** The double nearest to the integer [n >= 0], ties to the even
    mantissa: [n] itself below [2^53], one of the multiples of a power of
    two with a mantissa of 53 bits otherwise; [None] when [n] is beyond
    the largest double and becomes [Infinity]. *)
Definition nearest_double (n : Z) : option Z :=
  if n <? 2 ^ 53 then Some n
  else
    let e := Z.log2 n - 52 in
    let q := n / 2 ^ e in
    let r := n mod 2 ^ e in
    let half := 2 ^ (e - 1) in
    let m := if (half <? r) || ((r =? half) && Z.odd q) then q + 1 else q in
    let d := m * 2 ^ e in
    if 2 ^ 1024 <=? d then None else Some d.

(** The number of decimal digits of [v >= 0]. *)
Fixpoint decimal_digits (fuel : nat) (v : Z) : Z :=
  match fuel with
  | O => 0
  | S fuel' => if v <? 10 then 1 else 1 + decimal_digits fuel' (v / 10)
  end.

(** [v] is a number that is read back as the double [m * 2^e]
    ([2^52 <= m < 2^53], [2 <= e]): it lies within half a gap of it, the
    ends of the range counting for an even mantissa. *)
Definition reads_back (m e v : Z) : bool :=
  let d := m * 2 ^ e in
  let below := if m =? 2 ^ 52 then 2 ^ (e - 2) else 2 ^ (e - 1) in
  let above := 2 ^ (e - 1) in
  if Z.even m
  then (d - below <=? v) && (v <=? d + above)
  else (d - below <? v) && (v <? d + above).

(** The number that [Number::toString] prints for the double
    [d = m * 2^e] of [n0] decimal digits: the one with the fewest
    significant digits ([k], [k + 1], ...) that is read back as [d]; of
    two with as many digits the nearer one, of two as near the even
    one. *)
Fixpoint shortest (fuel : nat) (k m e n0 : Z) : Z :=
  let d := m * 2 ^ e in
  match fuel with
  | O => d
  | S fuel' =>
      let p := 10 ^ (n0 - k) in
      let lo := d / p * p in
      let hi := lo + p in
      match reads_back m e lo, reads_back m e hi with
      | true, true =>
          if d - lo <? hi - d then lo
          else if hi - d <? d - lo then hi
          else if Z.even (d / p) then lo else hi
      | true, false => lo
      | false, true => hi
      | false, false => shortest fuel' (k + 1) m e n0
      end
  end.

(** [parseInt(x)] for a number [x], the double that the literal of the
    integer [z] denotes.  The number is printed first: in decimal
    notation below [10^21], where the digits are read back as the
    number; with an exponent from [10^21] on ([5e+21], [1.5e+21]), where
    the digits before the point or the exponent are read, that is the first
    significant digit; as [Infinity], which has no digits. *)
Definition parseInt_number (z : Z) : jsnum :=
  if Z.abs z <? 2 ^ 53 then JInt z
  else
    match nearest_double (Z.abs z) with
    | None => JNaN
    | Some d =>
        if d <? 10 ^ 21 then JInt (Z.sgn z * d)
        else
          let e := Z.log2 d - 52 in
          let v := shortest 17 1 (d / 2 ^ e) e (decimal_digits 400 d) in
          JInt (Z.sgn z * (v / 10 ^ (decimal_digits 400 v - 1)))
    end.

(** The number that a run of digits with the value [v] gives: the double
    nearest to it.  Beyond the largest double that is [Infinity]; with a
    minus sign it is [-Infinity], which is not among the numbers of
    [jsnum]: the value itself stands for it, a number below every bound
    that a parsed number is compared with in this program. *)
Definition of_parse (sign : Z) (o : option Z) : jsnum :=
  match o with
  | Some v =>
      match nearest_double v with
      | Some d => JInt (sign * d)
      | None => if 0 <? sign then JInf else JInt (sign * v)
      end
  | None => JNaN
  end.

(** [parseInt(s)] without a radix: leading white space (the ASCII part
    of it), a sign, an optional [0x] prefix, then as many digits as there
    are. *)
Definition parseInt_string (s : string) : jsnum :=
  let s1 := trim_start s in
  let '(sign, s2) :=
    match s1 with
    | String "-" r => (-1, r)
    | String "+" r => (1, r)
    | _ => (1, s1)
    end in
  match s2 with
  | String "0" (String "x" r) | String "0" (String "X" r) =>
      of_parse sign (digits 16 r None)
  | _ => of_parse sign (digits 10 s2 None)
  end.

(** [parseInt(v)]: the argument is converted to a string first. *)
Definition parseInt (v : jsval) : jsnum :=
  match v with
  | VNum z => parseInt_number z
  | VStr s => parseInt_string s
  | VUndefined | VNull | VBool _ => JNaN
  end.

(** [s.includes(sub)] and [s.startsWith(p)]. *)
Definition includes (s sub : string) : bool :=
  match String.index 0 sub s with
  | Some _ => true
  | None => false
  end.

Definition startsWith (s p : string) : bool := String.prefix p s.

End Js.

Import Js.

(* ================================================================== *)
(** ** The dispatch engine: [services/payment.js] *)
(* ================================================================== *)

Module PaymentService.

(** A row of the [clients] table as the engine handles it.  A row fresh
    from the database has no [retryCount] field; the engine reads it only
    as [client.retryCount || 0] and [client.retryCount > 0], where
    [undefined] and [0] behave alike, so a missing field is [0] here. *)
Record Client : Type := {
  msisdn : string;
  offer_code : string;
  retryCount : nat;
  lastError : option string
}.

(** What [axios.post] (or the token provider before it) throws. *)
Record AxiosError : Type := {
  code : option string;
  message : string;
  response_status : option Z
}.

(** How one request ends. *)
Inductive Reply : Type :=
| Fulfilled (statusCode description : string) (duration : Z)
| Rejected (error : AxiosError).

(** One call of the outside world: the draw of [Math.random()] in
    [selectServer] and the fate of the request. *)
Record Attempt : Type := {
  usePrimary : bool;
  reply : Reply
}.

Inductive ServerType : Type := PRIMARY | FALLBACK.

Record Errors : Type := {
  timeout : Z;
  connection : Z;
  server : Z;
  auth : Z;
  other : Z
}.

Record Stats : Type := {
  totalRequests : Z;
  successful : Z;
  failed : Z;
  retried : Z;
  primaryServerRequests : Z;
  fallbackServerRequests : Z;
  primaryServerSuccess : Z;
  fallbackServerSuccess : Z;
  startTime : Z;
  errors : Errors
}.

(** The mutable fields of the service object. *)
Record Service : Type := {
  stats : Stats;
  failedQueue : list Client
}.

(** [this.maxRetries = 3] (constructor). *)
Definition maxRetries : nat := 3.

(** The object a call of [processSinglePayment] resolves to. *)
Record Result : Type := {
  success : bool;
  res_server : ServerType;
  res_msisdn : string;
  isRetry : bool;
  res_duration : option Z;
  res_statusCode : option string;
  res_description : option string;
  res_error : option string;
  res_retryCount : option nat;
  willRetry : option bool
}.

(** *** Field updates ([this.stats.x++]) *)

Definition set_counters (s : Stats) (t ok ko re : Z) : Stats :=
  {| totalRequests := t; successful := ok; failed := ko; retried := re;
     primaryServerRequests := primaryServerRequests s;
     fallbackServerRequests := fallbackServerRequests s;
     primaryServerSuccess := primaryServerSuccess s;
     fallbackServerSuccess := fallbackServerSuccess s;
     startTime := startTime s; errors := errors s |}.

Definition set_servers (s : Stats) (pr fr ps fs : Z) : Stats :=
  {| totalRequests := totalRequests s; successful := successful s;
     failed := failed s; retried := retried s;
     primaryServerRequests := pr; fallbackServerRequests := fr;
     primaryServerSuccess := ps; fallbackServerSuccess := fs;
     startTime := startTime s; errors := errors s |}.

Definition set_errors (s : Stats) (e : Errors) : Stats :=
  {| totalRequests := totalRequests s; successful := successful s;
     failed := failed s; retried := retried s;
     primaryServerRequests := primaryServerRequests s;
     fallbackServerRequests := fallbackServerRequests s;
     primaryServerSuccess := primaryServerSuccess s;
     fallbackServerSuccess := fallbackServerSuccess s;
     startTime := startTime s; errors := e |}.

Definition set_startTime (s : Stats) (t : Z) : Stats :=
  {| totalRequests := totalRequests s; successful := successful s;
     failed := failed s; retried := retried s;
     primaryServerRequests := primaryServerRequests s;
     fallbackServerRequests := fallbackServerRequests s;
     primaryServerSuccess := primaryServerSuccess s;
     fallbackServerSuccess := fallbackServerSuccess s;
     startTime := t; errors := errors s |}.

Definition inc_totalRequests (s : Stats) : Stats :=
  set_counters s (totalRequests s + 1) (successful s) (failed s) (retried s).
Definition inc_successful (s : Stats) : Stats :=
  set_counters s (totalRequests s) (successful s + 1) (failed s) (retried s).
Definition inc_failed (s : Stats) : Stats :=
  set_counters s (totalRequests s) (successful s) (failed s + 1) (retried s).
Definition inc_retried (s : Stats) : Stats :=
  set_counters s (totalRequests s) (successful s) (failed s) (retried s + 1).

Definition inc_primaryServerRequests (s : Stats) : Stats :=
  set_servers s (primaryServerRequests s + 1) (fallbackServerRequests s)
    (primaryServerSuccess s) (fallbackServerSuccess s).
Definition inc_fallbackServerRequests (s : Stats) : Stats :=
  set_servers s (primaryServerRequests s) (fallbackServerRequests s + 1)
    (primaryServerSuccess s) (fallbackServerSuccess s).
Definition inc_primaryServerSuccess (s : Stats) : Stats :=
  set_servers s (primaryServerRequests s) (fallbackServerRequests s)
    (primaryServerSuccess s + 1) (fallbackServerSuccess s).
Definition inc_fallbackServerSuccess (s : Stats) : Stats :=
  set_servers s (primaryServerRequests s) (fallbackServerRequests s)
    (primaryServerSuccess s) (fallbackServerSuccess s + 1).

Definition with_stats (svc : Service) (s : Stats) : Service :=
  {| stats := s; failedQueue := failedQueue svc |}.

Definition push_failed (svc : Service) (c : Client) : Service :=
  {| stats := stats svc; failedQueue := failedQueue svc ++ [c] |}.

(** *** [resetStats] *)

Definition resetStats (now : Z) : Stats :=
  {| totalRequests := 0; successful := 0; failed := 0; retried := 0;
     primaryServerRequests := 0; fallbackServerRequests := 0;
     primaryServerSuccess := 0; fallbackServerSuccess := 0;
     startTime := now;
     errors := {| timeout := 0; connection := 0; server := 0;
                  auth := 0; other := 0 |} |}.

(** *** [selectServer] *)

Definition selectServer (draw : bool) (svc : Service) : Service * ServerType :=
  if draw
  then (with_stats svc (inc_primaryServerRequests (stats svc)), PRIMARY)
  else (with_stats svc (inc_fallbackServerRequests (stats svc)), FALLBACK).

(** *** The [catch] block's classification of an error *)

Definition code_is (e : AxiosError) (s : string) : bool :=
  match code e with
  | Some c => String.eqb c s
  | None => false
  end.

Definition classify (e : AxiosError) (h : Errors) : Errors :=
  if code_is e "ECONNABORTED" || includes (message e) "timeout" then
    {| timeout := timeout h + 1; connection := connection h;
       server := server h; auth := auth h; other := other h |}
  else if match code e with
          | Some c => negb (String.eqb c "") && startsWith c "ECONN"
          | None => false
          end then
    {| timeout := timeout h; connection := connection h + 1;
       server := server h; auth := auth h; other := other h |}
  else if match response_status e with
          | Some st => 500 <=? st
          | None => false
          end then
    {| timeout := timeout h; connection := connection h;
       server := server h + 1; auth := auth h; other := other h |}
  else if match response_status e with
          | Some st => st =? 401
          | None => false
          end then
    {| timeout := timeout h; connection := connection h;
       server := server h; auth := auth h + 1; other := other h |}
  else
    {| timeout := timeout h; connection := connection h;
       server := server h; auth := auth h; other := other h + 1 |}.

(** *** [processSinglePayment] *)

Definition server_of (draw : bool) : ServerType :=
  if draw then PRIMARY else FALLBACK.

(** The value the call resolves to; it does not depend on the service. *)
Definition outcome (a : Attempt) (client : Client) (is_retry : bool) : Result :=
  match reply a with
  | Fulfilled sc descr dur =>
      {| success := true; res_server := server_of (usePrimary a);
         res_msisdn := msisdn client; isRetry := is_retry;
         res_duration := Some dur; res_statusCode := Some sc;
         res_description := Some descr; res_error := None;
         res_retryCount := None; willRetry := None |}
  | Rejected e =>
      {| success := false; res_server := server_of (usePrimary a);
         res_msisdn := msisdn client; isRetry := is_retry;
         res_duration := None; res_statusCode := None;
         res_description := None; res_error := Some (message e);
         res_retryCount := Some (retryCount client);
         willRetry := Some (retryCount client <? maxRetries)%nat |}
  end.

(** [{ ...client, retryCount: retryCount + 1, lastError: error.message }]
    (the time stamp [lastAttempt] is left out). *)
Definition clientForRetry (client : Client) (e : AxiosError) : Client :=
  {| msisdn := msisdn client; offer_code := offer_code client;
     retryCount := retryCount client + 1;
     lastError := Some (message e) |}.

Definition processSinglePayment (a : Attempt) (client : Client)
    (is_retry : bool) (svc : Service) : Service * Result :=
  let '(svc1, srv) := selectServer (usePrimary a) svc in
  match reply a with
  | Fulfilled _ _ _ =>
      let s := inc_successful (inc_totalRequests (stats svc1)) in
      let s := if is_retry then inc_retried s else s in
      let s := match srv with
               | PRIMARY => inc_primaryServerSuccess s
               | FALLBACK => inc_fallbackServerSuccess s
               end in
      (with_stats svc1 s, outcome a client is_retry)
  | Rejected e =>
      let s := inc_failed (inc_totalRequests (stats svc1)) in
      let s := set_errors s (classify e (errors s)) in
      let svc2 := with_stats svc1 s in
      let svc3 :=
        if (retryCount client <? maxRetries)%nat
        then push_failed svc2 (clientForRetry client e)
        else svc2 in
      (svc3, outcome a client is_retry)
  end.

(** *** [getStats] *)

Record Snapshot : Type := {
  snap_totalRequests : Z;
  snap_successful : Z;
  snap_failed : Z;
  snap_retried : Z;
  snap_primaryServerRequests : Z;
  snap_fallbackServerRequests : Z;
  snap_primaryServerSuccess : Z;
  snap_fallbackServerSuccess : Z;
  snap_duration : Z;
  snap_rate : Z;
  snap_successRate : Z;
  snap_primarySuccessRate : Z;
  snap_fallbackSuccessRate : Z;
  permanentFailures : Z;
  snap_errors : Errors
}.

Section Rates.

(** The derived rates are floating-point quotients cut to one decimal by
    [toFixed(1)]; they are kept in tenths, and the rounding is left to
    these two functions: [per_second n d] for
    [(n / (d / 1000)).toFixed(1)], [percent a b] for
    [((a / b) * 100).toFixed(1)]. *)
Variable per_second : Z -> Z -> Z.
Variable percent : Z -> Z -> Z.

(** [getStats()], read when the clock shows [now].  The counters are
    integers, on which [parseInt(x) || 0] is the identity, and the
    rates are finite, so the [isFinite] tests keep them. *)
Definition getStats (now : Z) (s : Stats) : Snapshot :=
  let duration := Z.max (now - startTime s) 1 in
  let pf := failed s - retried s in
  {| snap_totalRequests := totalRequests s;
     snap_successful := successful s;
     snap_failed := failed s;
     snap_retried := retried s;
     snap_primaryServerRequests := primaryServerRequests s;
     snap_fallbackServerRequests := fallbackServerRequests s;
     snap_primaryServerSuccess := primaryServerSuccess s;
     snap_fallbackServerSuccess := fallbackServerSuccess s;
     snap_duration := duration;
     snap_rate :=
       if (0 <? totalRequests s) && (0 <? duration)
       then per_second (totalRequests s) duration else 0;
     snap_successRate :=
       if 0 <? totalRequests s
       then percent (successful s) (totalRequests s) else 0;
     snap_primarySuccessRate :=
       if 0 <? primaryServerRequests s
       then percent (primaryServerSuccess s) (primaryServerRequests s)
       else 0;
     snap_fallbackSuccessRate :=
       if 0 <? fallbackServerRequests s
       then percent (fallbackServerSuccess s) (fallbackServerRequests s)
       else 0;
     permanentFailures := if 0 <=? pf then pf else 0;
     snap_errors := errors s |}.

End Rates.

(** *** Events *)

Inductive Event : Type :=
| processingStarted (jobId : string) (totalClients : nat)
    (totalBatches batchSize : jsnum)
| batchStarted (jobId : string) (batchIndex : nat) (totalBatches : jsnum)
    (batchSize retryCount : nat)
| batchCompleted (jobId : string) (batchIndex : nat) (totalBatches : jsnum)
    (results : list Result)
    (batchSize successfulInBatch failedInBatch retryCount queuedForRetry : nat)
| processingCompleted (jobId : string) (totalClients : nat)
    (results : list Result) (stats : Snapshot).

(** The state of one run of [processClients]: the service object and the
    locals [allClients], [results], [batchIndex]; [emitted] is the list of
    events emitted so far, oldest first. *)
Record Loop : Type := {
  svc : Service;
  allClients : list Client;
  results : list Result;
  batchIndex : nat;
  emitted : list Event
}.

Definition count_where {A : Type} (p : A -> bool) (l : list A) : nat :=
  length (filter p l).

Section Engine.

(** The outside world.  [upstream b i c] is what happens to the request
    for client [c] sent from slot [i] of batch [b]; [settle b] is the
    order in which the requests of batch [b] settle (any order is
    possible: they run concurrently); [t_start] and [t_end] are the
    clock readings when the run starts and when its final statistics
    are taken. *)
Variable upstream : nat -> nat -> Client -> Attempt.
Variable settle : nat -> list (nat * Client) -> list (nat * Client).
Variables t_start t_end : Z.
Variable per_second : Z -> Z -> Z.
Variable percent : Z -> Z -> Z.

(** *** [processBatchParallel] *)

(** [const isRetry = client.retryCount > 0]. *)
Definition is_retry_of (client : Client) : bool :=
  (0 <? retryCount client)%nat.

Definition slots (batch : list Client) : list (nat * Client) :=
  combine (seq 0 (length batch)) batch.

(** The effects of the calls happen as the requests settle. *)
Definition settle_all (b : nat) (order : list (nat * Client))
    (s : Service) : Service :=
  fold_left
    (fun acc ic =>
       fst (processSinglePayment (upstream b (fst ic) (snd ic)) (snd ic)
              (is_retry_of (snd ic)) acc))
    order s.

(** [Promise.allSettled] reports the values in the order of the batch.
    [processSinglePayment] catches every error, so that every promise is
    fulfilled. *)
Definition processBatchParallel (b : nat) (batch : list Client)
    (s : Service) : Service * list Result :=
  (settle_all b (settle b (slots batch)) s,
   map (fun ic => outcome (upstream b (fst ic) (snd ic)) (snd ic)
                    (is_retry_of (snd ic)))
       (slots batch)).

(** *** [processClients] *)

Variable batchSize : jsnum.
Variable jobId : string.

(** The two [splice] calls that build the batch of one round: the batch
    taken from [allClients], the one taken from [failedQueue], and what
    is left of each. *)
Definition build_batch (all fq : list Client)
    : (list Client * list Client) * (list Client * list Client) :=
  let '(regularBatch, all') :=
    splice all (Js.max 1 (Js.sub batchSize (Z.of_nat (length fq)))) in
  let '(retryBatch, fq') :=
    splice fq (Js.sub batchSize (Z.of_nat (length regularBatch))) in
  ((regularBatch, retryBatch), (all', fq')).

(** The rest of a pass once a non-empty batch has been built:
    [batchStarted], the dispatch of the batch, [batchCompleted]. *)
Definition run_batch (l : Loop) (idx : nat)
    (regularBatch retryBatch all' fq' : list Client) : Loop :=
  let currentBatch := regularBatch ++ retryBatch in
  let svc1 := {| stats := stats (svc l); failedQueue := fq' |} in
  let started :=
    batchStarted jobId idx
      (ceil_div (Z.of_nat (length all' + length currentBatch
                           + length fq')) batchSize)
      (length currentBatch) (length retryBatch) in
  let '(svc2, batchResults) :=
    processBatchParallel idx currentBatch svc1 in
  let completed :=
    batchCompleted jobId idx
      (Js.add
         (ceil_div (Z.of_nat (length all' + length (failedQueue svc2)))
            batchSize)
         (Z.of_nat idx))
      batchResults (length currentBatch)
      (count_where success batchResults)
      (count_where (fun r => negb (success r)) batchResults)
      (length retryBatch) (length (failedQueue svc2)) in
  {| svc := svc2; allClients := all';
     results := results l ++ batchResults;
     batchIndex := idx;
     emitted := emitted l ++ [started; completed] |}.

(** One pass through the [while] loop; the boolean tells whether the
    loop goes on ([false]: the condition failed, or [break]). *)
Definition iteration (l : Loop) : Loop * bool :=
  match allClients l, failedQueue (svc l) with
  | [], [] => (l, false)
  | _, _ =>
      let idx := S (batchIndex l) in
      let '((regularBatch, retryBatch), (all', fq')) :=
        build_batch (allClients l) (failedQueue (svc l)) in
      match regularBatch ++ retryBatch with
      | [] =>
          ({| svc := {| stats := stats (svc l); failedQueue := fq' |};
              allClients := all'; results := results l;
              batchIndex := idx; emitted := emitted l |}, false)
      | _ :: _ =>
          (run_batch l idx regularBatch retryBatch all' fq', true)
      end
  end.

(** The [while] loop, with a bound on the number of passes; [None] means
    that the bound was reached. *)
Fixpoint loop (fuel : nat) (l : Loop) : option Loop :=
  match fuel with
  | O => None
  | S fuel' =>
      let '(l', continue) := iteration l in
      if continue then loop fuel' l' else Some l'
  end.

(** The state on entry of the loop. *)
Definition entry (clients : list Client) : Loop :=
  {| svc := {| stats := set_startTime (resetStats t_start) t_start;
               failedQueue := [] |};
     allClients := clients;
     results := [];
     batchIndex := 0;
     emitted :=
       [processingStarted jobId (length clients)
          (ceil_div (Z.of_nat (length clients)) batchSize) batchSize] |}.

(** What a run leaves behind: the returned results, the service object
    and the events emitted, in order. *)
Record Outcome : Type := {
  returned : list Result;
  service : Service;
  events : list Event
}.

Definition finish (clients : list Client) (l : Loop) : Outcome :=
  let finalStats := getStats per_second percent t_end (stats (svc l)) in
  {| returned := results l;
     service := svc l;
     events := emitted l
               ++ [processingCompleted jobId (length clients)
                     (results l) finalStats] |}.

Definition processClients (fuel : nat) (clients : list Client)
    : option Outcome :=
  option_map (finish clients) (loop fuel (entry clients)).

(** *** Notions used to state the properties *)

Definition fulfilled (a : Attempt) : bool :=
  match reply a with
  | Fulfilled _ _ _ => true
  | Rejected _ => false
  end.

(** The attempt made for a slot of batch [b]. *)
Definition attempt_at (b : nat) (ic : nat * Client) : Attempt :=
  upstream b (fst ic) (snd ic).

(** What one failed call pushes on [failedQueue]. *)
Definition requeue_of (a : Attempt) (client : Client) : list Client :=
  match reply a with
  | Rejected e =>
      if (retryCount client <? maxRetries)%nat
      then [clientForRetry client e] else []
  | Fulfilled _ _ _ => []
  end.

Definition requeued (b : nat) (order : list (nat * Client)) : list Client :=
  flat_map (fun ic => requeue_of (attempt_at b ic) (snd ic)) order.

(** The number of attempts a queued client can still cause: one now, and
    one for each retry it has left. *)
Definition weight (client : Client) : nat :=
  S (maxRetries - retryCount client).

Definition total_weight (l : list Client) : nat :=
  list_sum (map weight l).

(** All the clients still to be dispatched. *)
Definition pending (l : Loop) : list Client :=
  allClients l ++ failedQueue (svc l).

Definition about (m : string) (client : Client) : bool :=
  String.eqb (msisdn client) m.

Definition result_about (m : string) (r : Result) : bool :=
  String.eqb (res_msisdn r) m.


(** The clients as the client source delivers them. *)
Definition fresh (client : Client) : Prop := retryCount client = 0%nat.

(** The [batchCompleted] events of a trace. *)
Definition is_batchCompleted (e : Event) : bool :=
  match e with
  | batchCompleted _ _ _ _ _ _ _ _ _ => true
  | _ => false
  end.

Definition is_batchStarted (e : Event) : bool :=
  match e with
  | batchStarted _ _ _ _ _ => true
  | _ => false
  end.

(** Successes plus failures announced by the [batchCompleted] events. *)
Definition announced (e : Event) : nat :=
  match e with
  | batchCompleted _ _ _ _ _ ok ko _ _ => ok + ko
  | _ => 0
  end.

Definition total_announced (es : list Event) : nat :=
  list_sum (map announced es).

(** The counters agree with the results collected so far. *)
Definition counters_agree (l : Loop) : Prop :=
  totalRequests (stats (svc l)) = Z.of_nat (length (results l)) /\
  successful (stats (svc l))
  = Z.of_nat (count_where success (results l)) /\
  failed (stats (svc l))
  = Z.of_nat (count_where (fun r => negb (success r)) (results l)) /\
  retried (stats (svc l))
  = Z.of_nat (count_where (fun r => success r && isRetry r) (results l)).

(** Every retry that succeeded so far, and every retry still waiting,
    stands for a failure counted before. *)
Definition retries_covered (l : Loop) : Prop :=
  retried (stats (svc l))
  + Z.of_nat (count_where is_retry_of (pending l))
  <= failed (stats (svc l)).

(** The attempts made so far for [m], and those that [m] can still
    cause. *)
Definition attempts (m : string) (rs : list Result) : nat :=
  count_where (result_about m) rs.

Definition budget (m : string) (l : Loop) : nat :=
  total_weight (filter (about m) (pending l)).

Definition batches_completed (es : list Event) : nat :=
  count_where is_batchCompleted es.

Definition batches_started (es : list Event) : nat :=
  count_where is_batchStarted es.

(** The state after [n] passes through the loop. *)
Fixpoint after_passes (n : nat) (l : Loop) : Loop :=
  match n with
  | O => l
  | S n' => after_passes n' (fst (iteration l))
  end.

(** The batch as the specification words it: retries first, then as many
    clients of the primary queue as still fit. *)
Definition retry_first_batch (size : nat) (all fq : list Client)
    : list Client :=
  let retryBatch := firstn size fq in
  retryBatch ++ firstn (size - length retryBatch) all.


(** Every counter, every derived rate and every entry of the error
    histogram of a snapshot is zero (the elapsed time is not part of
    this). *)
Definition zero_counts (s : Snapshot) : Prop :=
  snap_totalRequests s = 0 /\ snap_successful s = 0 /\
  snap_failed s = 0 /\ snap_retried s = 0 /\
  snap_primaryServerRequests s = 0 /\ snap_fallbackServerRequests s = 0 /\
  snap_primaryServerSuccess s = 0 /\ snap_fallbackServerSuccess s = 0 /\
  snap_rate s = 0 /\ snap_successRate s = 0 /\
  snap_primarySuccessRate s = 0 /\ snap_fallbackSuccessRate s = 0 /\
  permanentFailures s = 0 /\
  snap_errors s = {| timeout := 0; connection := 0; server := 0;
                     auth := 0; other := 0 |}.

(** The statistics carried by the last event of a trace, when that
    event is [processingCompleted]. *)
Definition final_stats (es : list Event) : option Snapshot :=
  match rev es with
  | processingCompleted _ _ _ s :: _ => Some s
  | _ => None
  end.

(** The entries of the error histogram, added up. *)
Definition histogram_total (e : Errors) : Z :=
  timeout e + connection e + server e + auth e + other e.

(** The per-server counters and the histogram add up to the totals. *)
Definition books_balance (s : Stats) : Prop :=
  primaryServerRequests s + fallbackServerRequests s = totalRequests s /\
  primaryServerSuccess s + fallbackServerSuccess s = successful s /\
  histogram_total (errors s) = failed s /\
  0 <= primaryServerSuccess s <= primaryServerRequests s /\
  0 <= fallbackServerSuccess s <= fallbackServerRequests s.

(** The requests for [m] that succeeded. *)
Definition payments (m : string) (rs : list Result) : nat :=
  count_where (fun r => result_about m r && success r) rs.

(** The requests for [m] that failed for good: failures that were not
    put back on the retry queue ([willRetry] is [false]). *)
Definition given_up (m : string) (rs : list Result) : nat :=
  count_where (fun r => result_about m r
                        && match willRetry r with
                           | Some false => true
                           | _ => false
                           end) rs.

(** The subscribers of the first attempts, in the order of the results. *)
Definition first_attempts (rs : list Result) : list string :=
  map res_msisdn (filter (fun r => negb (isRetry r)) rs).

(** The upstream accepts every request. *)
Definition always_accepts : Prop :=
  forall b i client, fulfilled (upstream b i client) = true.

End Engine.

End PaymentService.

(* ================================================================== *)
(** ** The job scheduler: [services/scheduler.js] *)
(* ================================================================== *)

Module SchedulerService.
Import PaymentService.

(** *** Data *)

Record Settings : Type := {
  intervalHours : jsnum;
  batchSize : jsnum;
  includeInactive : bool;
  enabled : bool
}.

(** An object that holds some of the fields of the settings, as the
    arguments of [startScheduler], [executeManualJob] and [updateSettings]
    do. *)
Record Partial : Type := {
  p_intervalHours : option jsnum;
  p_batchSize : option jsnum;
  p_includeInactive : option bool;
  p_enabled : option bool
}.

Definition or_else {A : Type} (o : option A) (d : A) : A :=
  match o with
  | Some a => a
  | None => d
  end.

(** [{ ...s, ...p }]. *)
Definition merge (s : Settings) (p : Partial) : Settings :=
  {| intervalHours := or_else (p_intervalHours p) (intervalHours s);
     batchSize := or_else (p_batchSize p) (batchSize s);
     includeInactive := or_else (p_includeInactive p) (includeInactive s);
     enabled := or_else (p_enabled p) (enabled s) |}.

Definition all_of (s : Settings) : Partial :=
  {| p_intervalHours := Some (intervalHours s);
     p_batchSize := Some (batchSize s);
     p_includeInactive := Some (includeInactive s);
     p_enabled := Some (enabled s) |}.

Definition set_enabled (s : Settings) (e : bool) : Settings :=
  {| intervalHours := intervalHours s; batchSize := batchSize s;
     includeInactive := includeInactive s; enabled := e |}.

Inductive JobStatus : Type := running | completed | failed_job.

Record Job : Type := {
  job_id : string;
  status : JobStatus;
  totalClients : nat;
  isScheduled : bool
}.

(** A local time: a day number and the time of the day.  [Invalid] is
    JavaScript's Invalid Date.  The process is taken to run in the zone
    the timer is armed in, ["Africa/Nairobi"], which has no daylight
    saving: every time of the day exists, once, on every day. *)
Inductive Date : Type :=
| Local (day hours minutes seconds millis : Z)
| Invalid.

(** What the scheduler emits. *)
Inductive Event : Type :=
| jobSkipped (reason : string)
| schedulerStarted (cronHours : list Z) (interval batch : jsnum)
    (inactive : bool) (nextRun : option Date) (upcomingSchedules : list Date)
| schedulerStopped
| jobStarted (jobId : string) (total : nat) (batch : jsnum)
    (inactive scheduled : bool)
| jobCompleted (jobId : string) (total : nat) (scheduled : bool)
| jobFailed (jobId : string) (error : string) (scheduled : bool)
| settingsUpdated (s : Settings).

(** What the scheduler does to its collaborators, in order: the events it
    emits, the writes to the two tables, and the calls of
    [paymentService.processClients]. *)
Inductive Effect : Type :=
| Emit (e : Event)
| SaveState (s : Settings)
| CreateJob (jobId : string) (total : nat) (batch : jsnum) (inactive : bool)
| UpdateJob (jobId : string) (st : JobStatus) (error_message : option string)
| Dispatch (clients : list Client) (batch : jsnum) (jobId : string).

(** The timer armed by [cron.schedule]: minute 0 of the listed hours. *)
Record Task : Type := { cronHours : list Z }.

(** The scheduler object, the [scheduler_state] row it persists (the
    store keeps what [saveSchedulerState] was given, and hands it back),
    whether the database can be reached, and the effects so far. *)
Record World : Type := {
  scheduledTask : option Task;
  currentJob : option Job;
  runningJobs : list (string * Job);
  settings : Settings;
  stored : option Settings;
  db_connected : bool;
  effects : list Effect
}.

(** How a call ends. *)
Inductive Completion (A : Type) : Type :=
| Returns (a : A)
| Throws (error : string)
| Diverges.
Arguments Returns {A} a.
Arguments Throws {A} error.
Arguments Diverges {A}.

(** *** Field updates *)

Definition with_task (w : World) (t : option Task) : World :=
  {| scheduledTask := t; currentJob := currentJob w;
     runningJobs := runningJobs w; settings := settings w;
     stored := stored w; db_connected := db_connected w;
     effects := effects w |}.

Definition with_jobs (w : World) (j : option Job) (js : list (string * Job))
    : World :=
  {| scheduledTask := scheduledTask w; currentJob := j;
     runningJobs := js; settings := settings w;
     stored := stored w; db_connected := db_connected w;
     effects := effects w |}.

Definition with_settings (w : World) (s : Settings) : World :=
  {| scheduledTask := scheduledTask w; currentJob := currentJob w;
     runningJobs := runningJobs w; settings := s;
     stored := stored w; db_connected := db_connected w;
     effects := effects w |}.

Definition with_stored (w : World) (s : option Settings) : World :=
  {| scheduledTask := scheduledTask w; currentJob := currentJob w;
     runningJobs := runningJobs w; settings := settings w;
     stored := s; db_connected := db_connected w;
     effects := effects w |}.

Definition note (w : World) (e : Effect) : World :=
  {| scheduledTask := scheduledTask w; currentJob := currentJob w;
     runningJobs := runningJobs w; settings := settings w;
     stored := stored w; db_connected := db_connected w;
     effects := effects w ++ [e] |}.

Definition emit (w : World) (e : Event) : World := note w (Emit e).

(** [Map.prototype.set] and [delete], the map kept in insertion order. *)
Fixpoint map_delete (k : string) (m : list (string * Job))
    : list (string * Job) :=
  match m with
  | [] => []
  | (k', v) :: r =>
      if String.eqb k' k then map_delete k r else (k', v) :: map_delete k r
  end.

Fixpoint map_set (k : string) (v : Job) (m : list (string * Job))
    : list (string * Job) :=
  match m with
  | [] => [(k, v)]
  | (k', v') :: r =>
      if String.eqb k' k then (k, v) :: r else (k', v') :: map_set k v r
  end.

(** *** The scheduler-state store *)

(** [databaseService.saveSchedulerState]: throws when the database cannot
    be reached. *)
Definition saveSchedulerState (w : World) (s : Settings)
    : World * Completion unit :=
  if db_connected w
  then (note (with_stored w (Some s)) (SaveState s), Returns tt)
  else (w, Throws "Connection lost").

(** [databaseService.getSchedulerState]: [null] when there is no row or
    the database cannot be reached. *)
Definition getSchedulerState (w : World) : option Settings :=
  if db_connected w then stored w else None.

(** *** The hour slots *)

(** [for (let hour = 0; hour < 24; hour += intervalHours) times.push(hour)],
    from a given [hour] on; [None] when [fuel] passes do not end it. *)
Fixpoint slots_from (fuel : nat) (hour interval : jsnum) : option (list Z) :=
  match fuel with
  | O => None
  | S fuel' =>
      match hour with
      | JInt h =>
          if h <? 24
          then option_map (cons h) (slots_from fuel' (Js.plus hour interval)
                                      interval)
          else Some []
      | _ => Some []
      end
  end.

(** [getScheduleTimes(intervalHours)].  The loop ends within 25 passes
    when the interval is at least one (or not an integer); with an
    interval of zero or less it does not end, which is [None] here. *)
Definition getScheduleTimes (interval : jsnum) : option (list Z) :=
  slots_from 25 (JInt 0) interval.

(** [generateCronExpression]: the same loop; the expression is
    ["0 " + times.join(",") + " * * *"], of which the hours are kept. *)
Definition generateCronExpression (interval : jsnum) : option (list Z) :=
  slots_from 25 (JInt 0) interval.

(** *** Dates *)

(** [d.setHours(h, 0, 0, 0)] for an integer [h], which may run over into
    the following days.  In a zone without daylight saving (see [Date])
    this is arithmetic on the day and the hour; where clocks are put
    forward, a time that falls into the hour left out would be moved
    on by JavaScript. *)
Definition setHours0 (d : Date) (h : Z) : Date :=
  match d with
  | Local day _ _ _ _ => Local (day + h / 24) (h mod 24) 0 0 0
  | Invalid => Invalid
  end.

(** [d.setHours(d.getHours() + interval)]: minutes and below are kept;
    a [NaN] or infinite argument leaves an Invalid Date.  As for
    [setHours0], this is the arithmetic of a zone without daylight
    saving. *)
Definition addHours (d : Date) (interval : jsnum) : Date :=
  match d, interval with
  | Local day h mi s ms, JInt i =>
      Local (day + (h + i) / 24) ((h + i) mod 24) mi s ms
  | _, _ => Invalid
  end.

(** [d.setDate(d.getDate() + 1)]. *)
Definition nextDay (d : Date) : Date :=
  match d with
  | Local day h mi s ms => Local (day + 1) h mi s ms
  | Invalid => Invalid
  end.

(** *** [getNextRunTime] and [getNextRunTimes] *)

(** The [for ... of] loop of [getNextRunTime]. *)
Fixpoint first_slot_after (times : list Z) (currentHour currentMinute : Z)
    : option Z :=
  match times with
  | [] => None
  | hour :: rest =>
      if (currentHour <? hour)
         || ((hour =? currentHour) && (currentMinute =? 0))
      then Some hour
      else first_slot_after rest currentHour currentMinute
  end.

(** [getNextRunTime()] when the clock shows [now]; [Returns None] is
    [null]. *)
Definition getNextRunTime (w : World) (now : Date) : Completion (option Date) :=
  if negb (enabled (settings w))
     || match scheduledTask w with Some _ => false | None => true end
  then Returns None
  else
    match getScheduleTimes (intervalHours (settings w)) with
    | None => Diverges
    | Some scheduleTimes =>
        match now with
        | Local _ currentHour currentMinute _ _ =>
            match first_slot_after scheduleTimes currentHour currentMinute with
            | Some hour => Returns (Some (setHours0 now hour))
            | None =>
                match scheduleTimes with
                | first :: _ => Returns (Some (setHours0 (nextDay now) first))
                | [] => Returns (Some Invalid)
                end
            end
        | Invalid => Returns (Some Invalid)
        end
    end.

(** The loop of [getNextRunTimes]: [n] more entries after [previous]. *)
Fixpoint following (n : nat) (previous : Date) (interval : jsnum)
    : list Date :=
  match n with
  | O => []
  | S n' =>
      let nextRun := addHours previous interval in
      nextRun :: following n' nextRun interval
  end.

(** [getNextRunTimes(count)]. *)
Definition getNextRunTimes (w : World) (now : Date) (count : nat)
    : Completion (list Date) :=
  if negb (enabled (settings w))
     || match scheduledTask w with Some _ => false | None => true end
  then Returns []
  else
    match getNextRunTime w now with
    | Returns None => Returns []
    | Returns (Some firstRun) =>
        Returns (firstRun
                 :: following (count - 1) firstRun
                      (intervalHours (settings w)))
    | Throws e => Throws e
    | Diverges => Diverges
    end.

(** *** [stopScheduler] *)

Definition stopScheduler (w : World) (updateDatabase : bool) : World :=
  let w1 := with_task w None in
  let w2 := with_settings w1 (set_enabled (settings w1) false) in
  let w3 := if updateDatabase
            then fst (saveSchedulerState w2 (settings w2))
            else w2 in
  emit w3 schedulerStopped.

(** *** [startScheduler] *)

Record Started : Type := {
  nextRun : option Date;
  upcomingSchedules : list Date
}.

Definition startScheduler (w : World) (p : Partial) (now : Date)
    : World * Completion Started :=
  let w1 := with_settings w (set_enabled (merge (settings w) p) true) in
  match saveSchedulerState w1 (settings w1) with
  | (w2, Returns _) =>
      let w3 := stopScheduler w2 false in
      match generateCronExpression (intervalHours (settings w3)) with
      | None => (w3, Diverges)
      | Some hours =>
          let w4 := with_task w3 (Some {| cronHours := hours |}) in
          match getNextRunTime w4 now, getNextRunTimes w4 now 5 with
          | Returns next, Returns upcoming =>
              let w5 :=
                emit w4 (schedulerStarted hours
                           (intervalHours (settings w4))
                           (batchSize (settings w4))
                           (includeInactive (settings w4)) next upcoming) in
              (w5, Returns {| nextRun := next;
                              upcomingSchedules := upcoming |})
          | Throws e, _ | _, Throws e => (w4, Throws e)
          | _, _ => (w4, Diverges)
          end
      end
  | (w2, Throws e) => (w2, Throws e)
  | (w2, Diverges) => (w2, Diverges)
  end.

(** *** [updateSettings] *)

(** The two promises that [updateSettings] leaves behind (the save and
    the restart) are run here in the order in which they were made; the
    event carries the settings as they are when it is emitted, before the
    restart goes on. *)
Definition updateSettings (w : World) (p : Partial) (now : Date) : World :=
  let wasEnabled := enabled (settings w) in
  let w1 := with_settings w (merge (settings w) p) in
  let w2 := fst (saveSchedulerState w1 (settings w1)) in
  let w3 := if wasEnabled && enabled (settings w2)
            then fst (startScheduler w2 (all_of (settings w2)) now)
            else w2 in
  emit w3 (settingsUpdated (settings w1)).

(** *** [getStatus] *)

Record Status : Type := {
  st_enabled : bool;
  st_isRunning : bool;
  st_settings : Settings;
  st_currentJob : option Job;
  st_nextRun : Completion (option Date);
  st_upcomingSchedules : Completion (list Date)
}.

Definition getStatus (w : World) (now : Date) : World * Status :=
  let w1 :=
    match getSchedulerState w with
    | Some dbState => with_settings w (set_enabled (settings w)
                                         (enabled dbState))
    | None => w
    end in
  (w1,
   {| st_enabled := enabled (settings w1);
      st_isRunning := match scheduledTask w1 with
                      | Some _ => true | None => false end;
      st_settings := settings w1;
      st_currentJob := currentJob w1;
      st_nextRun := getNextRunTime w1 now;
      st_upcomingSchedules := getNextRunTimes w1 now 5 |}).

(** *** Jobs *)

Definition job_is_running (w : World) : bool :=
  match currentJob w with
  | Some j => match status j with running => true | _ => false end
  | None => false
  end.

(** The [catch] block of [executeScheduledJob] and [executeManualJob]. *)
Definition job_failed (w : World) (jobId : string) (error : string)
    (scheduled : bool) : World :=
  let w1 := note w (UpdateJob jobId failed_job (Some error)) in
  let w2 := with_jobs w1 None (map_delete jobId (runningJobs w1)) in
  emit w2 (jobFailed jobId error scheduled).

(** The common part of both jobs, from the creation of the job to the
    call of the dispatch engine. *)
Definition launch (w : World) (jobId : string) (clients : list Client)
    (batch : jsnum) (inactive scheduled : bool) : World :=
  let job := {| job_id := jobId; status := running;
                totalClients := length clients;
                isScheduled := scheduled |} in
  let w1 := with_jobs w (Some job) (map_set jobId job (runningJobs w)) in
  let w2 := note w1 (CreateJob jobId (length clients) batch inactive) in
  let w3 := note w2 (UpdateJob jobId running None) in
  let w4 := emit w3 (jobStarted jobId (length clients) batch inactive
                       scheduled) in
  note w4 (Dispatch clients batch jobId).

(** [executeScheduledJob], up to the call of the dispatch engine.
    [fetched] is what [getClients] does: it returns the clients or throws
    an error. *)
Definition executeScheduledJob (w : World) (jobId : string)
    (fetched : string + list Client) : World :=
  match fetched with
  | inl error => job_failed w jobId error true
  | inr [] => w
  | inr clients =>
      launch w jobId clients (batchSize (settings w))
        (includeInactive (settings w)) true
  end.

(** The callback given to [cron.schedule]: a fire of the timer. *)
Definition timer_fire (w : World) (jobId : string)
    (fetched : string + list Client) : World :=
  if job_is_running w
  then emit w (jobSkipped "Previous job still running")
  else executeScheduledJob w jobId fetched.

(** [executeManualJob(settings)], up to the call of the dispatch
    engine. *)
Definition executeManualJob (w : World) (p : Partial) (jobId : string)
    (fetched : string + list Client) : World :=
  let jobSettings := merge (settings w) p in
  match fetched with
  | inl error => job_failed w jobId error false
  | inr [] => job_failed w jobId "No clients found for processing" false
  | inr clients =>
      launch w jobId clients (batchSize jobSettings)
        (includeInactive jobSettings) false
  end.

(** What both jobs do once the dispatch engine has returned.  The
    scheduled job writes [this.currentJob.status], which throws when
    [currentJob] has been cleared meanwhile. *)
Definition job_done (w : World) (jobId : string) (total : nat)
    (scheduled : bool) : World :=
  let w1 := note w (UpdateJob jobId completed None) in
  match scheduled, currentJob w1 with
  | true, None =>
      job_failed w1 jobId
        "Cannot set properties of null (setting 'status')" true
  | _, _ =>
      let w2 := with_jobs w1 None (map_delete jobId (runningJobs w1)) in
      emit w2 (jobCompleted jobId total scheduled)
  end.

(** The calls of the dispatch engine among the effects. *)
Definition dispatches (es : list Effect) : list string :=
  flat_map (fun e => match e with
                     | Dispatch _ _ jobId => [jobId]
                     | _ => []
                     end) es.

(** *** [initialize] and the status verification *)

(** [databaseService.createSchedulerStateTable] and
    [createProcessingJobTable]: they throw when the database cannot be
    reached. *)
Definition createSchedulerStateTable (w : World) : Completion unit :=
  if db_connected w then Returns tt else Throws "Connection lost".

Definition createProcessingJobTable (w : World) : Completion unit :=
  if db_connected w then Returns tt else Throws "Connection lost".

(** What [initialize] keeps besides the scheduler's state: the flag
    [isInitialized], and the interval timers that
    [startStatusVerification] has set so far. *)
Record Boot : Type := {
  isInitialized : bool;
  statusTimers : nat
}.

Definition startStatusVerification (b : Boot) : Boot :=
  {| isInitialized := isInitialized b; statusTimers := S (statusTimers b) |}.

Definition initialized (b : Boot) : Boot :=
  {| isInitialized := true; statusTimers := statusTimers b |}.

(** [initialize()].  Whatever is thrown on the way is caught; the flag is
    set in both cases, the status verification only when nothing was
    thrown. *)
Definition initialize (w : World) (b : Boot) (now : Date)
    : World * Completion Boot :=
  if isInitialized b then (w, Returns b)
  else
    match createSchedulerStateTable w, createProcessingJobTable w with
    | Returns _, Returns _ =>
        match getSchedulerState w with
        | Some savedState =>
            if enabled savedState
            then
              let w1 := with_settings w (merge (settings w)
                                           (all_of savedState)) in
              match startScheduler w1 (all_of (settings w1)) now with
              | (w2, Returns _) =>
                  (w2, Returns (initialized (startStatusVerification b)))
              | (w2, Throws _) => (w2, Returns (initialized b))
              | (w2, Diverges) => (w2, Diverges)
              end
            else (w, Returns (initialized (startStatusVerification b)))
        | None => (w, Returns (initialized (startStatusVerification b)))
        end
    | _, _ => (w, Returns (initialized b))
    end.

(** The callback that [startStatusVerification] hands to [setInterval]:
    one round of the status verification. *)
Definition statusVerification (w : World) (now : Date)
    : World * Completion unit :=
  match getSchedulerState w with
  | Some dbState =>
      let dbEnabled := enabled dbState in
      let currentEnabled := enabled (settings w) in
      if Bool.eqb dbEnabled currentEnabled then (w, Returns tt)
      else
        let w1 := with_settings w (set_enabled (settings w) dbEnabled) in
        match dbEnabled, scheduledTask w1 with
        | true, None =>
            match startScheduler w1 (all_of dbState) now with
            | (w2, Diverges) => (w2, Diverges)
            | (w2, _) => (w2, Returns tt)
            end
        | false, Some _ => (stopScheduler w1 false, Returns tt)
        | _, _ => (w1, Returns tt)
        end
  | None => (w, Returns tt)
  end.

(** *** [stopAllJobs] *)

Definition stopped_by_user (w : World) (jobId : string) : World :=
  note w (UpdateJob jobId failed_job (Some "Job stopped by user")).

(** [stopAllJobs()].  Its last step, the event [allJobsStopped], is not
    among the events recorded in [effects]. *)
Definition stopAllJobs (w : World) : World :=
  let w1 := stopScheduler w true in
  let w2 :=
    match currentJob w1 with
    | Some job =>
        with_jobs (stopped_by_user w1 (job_id job)) None (runningJobs w1)
    | None => w1
    end in
  let w3 := fold_left (fun w' entry => stopped_by_user w' (fst entry))
              (runningJobs w2) w2 in
  with_jobs w3 (currentJob w3) [].

(** The database becomes reachable or unreachable. *)
Definition with_db (w : World) (up : bool) : World :=
  {| scheduledTask := scheduledTask w; currentJob := currentJob w;
     runningJobs := runningJobs w; settings := settings w;
     stored := stored w; db_connected := up;
     effects := effects w |}.

(** *** Notions used to state the properties *)

(** Minutes since the start of day 0. *)
Definition minute_of (day hours minutes : Z) : Z :=
  (day * 24 + hours) * 60 + minutes.

(** The time is minute 0 of one of the hours the timer is armed with. *)
Definition fires_at (times : list Z) (d : Date) : Prop :=
  exists day h, d = Local day h 0 0 0 /\ In h times.

(** The job updates written to the jobs table for [jobId], in order. *)
Definition job_updates (jobId : string) (es : list Effect)
    : list (JobStatus * option string) :=
  flat_map (fun e => match e with
                     | UpdateJob j st msg =>
                         if String.eqb j jobId then [(st, msg)] else []
                     | _ => []
                     end) es.

End SchedulerService.

(* ================================================================== *)
(** ** The control plane: [controllers/payment.controller.js] *)
(* ================================================================== *)

Module PaymentController.
Import PaymentService SchedulerService.

(** The fields of [req.body] that the handlers read. *)
Record Body : Type := {
  b_intervalHours : jsval;
  b_batchSize : jsval;
  b_includeInactive : jsval
}.

(** [res.status(code).json({ success, error, settings, nextRun,
    upcomingSchedules })]. *)
Record Response : Type := {
  http_status : Z;
  success : bool;
  error : option string;
  res_settings : option Settings;
  res_nextRun : option Date;
  res_upcomingSchedules : list Date
}.

Definition refuse (code : Z) (msg : string) : Response :=
  {| http_status := code; success := false; error := Some msg;
     res_settings := None; res_nextRun := None;
     res_upcomingSchedules := [] |}.

Definition accept (s : Settings) (next : option Date) (upcoming : list Date)
    : Response :=
  {| http_status := 200; success := true; error := None;
     res_settings := Some s; res_nextRun := next;
     res_upcomingSchedules := upcoming |}.

(** A default of a destructuring pattern: it applies to [undefined]
    only. *)
Definition default (v d : jsval) : jsval :=
  match v with
  | VUndefined => d
  | _ => v
  end.

(** [hours < 1 || hours > 12] and [size < 5 || size > 100]. *)
Definition bad_interval (hours : jsnum) : bool :=
  Js.lt hours (JInt 1) || Js.gt hours (JInt 12).

Definition bad_batch (size : jsnum) : bool :=
  Js.lt size (JInt 5) || Js.gt size (JInt 100).

Definition interval_error : string :=
  "Interval hours must be between 1 and 12".
Definition batch_error : string := "Batch size must be between 5 and 100".

(** [startScheduler(req, res)]: the world after the call and the response
    sent, if one is. *)
Definition startScheduler (w : World) (body : Body) (now : Date)
    : World * option Response :=
  if negb (db_connected w)
  then (w, Some (refuse 500 "Database connection failed"))
  else
    let hours := parseInt (default (b_intervalHours body) (VNum 4)) in
    let size := parseInt (default (b_batchSize body) (VNum 10)) in
    let includeInactive := default (b_includeInactive body) (VBool false) in
    if bad_interval hours then (w, Some (refuse 400 interval_error))
    else if bad_batch size then (w, Some (refuse 400 batch_error))
    else
      let '(w1, currentStatus) := getStatus w now in
      if st_enabled currentStatus
      then (w1, Some (refuse 400 "Scheduler is already running"))
      else
        match SchedulerService.startScheduler w1
                {| p_intervalHours := Some hours;
                   p_batchSize := Some size;
                   p_includeInactive := Some (to_boolean includeInactive);
                   p_enabled := None |} now with
        | (w2, Returns result) =>
            (w2, Some (accept (settings w2) (nextRun result)
                         (upcomingSchedules result)))
        | (w2, Throws e) => (w2, Some (refuse 500 e))
        | (w2, Diverges) => (w2, None)
        end.

(** One field of [updateSettings(req, res)]: left out when [undefined],
    refused when out of range, taken as parsed otherwise. *)
Definition checked (v : jsval) (bad : jsnum -> bool) (msg : string)
    : string + option jsnum :=
  match v with
  | VUndefined => inr None
  | _ => if bad (parseInt v) then inl msg else inr (Some (parseInt v))
  end.

(** The object [settings] that [updateSettings(req, res)] builds, or the
    error it answers with. *)
Definition requested_update (body : Body) : string + Partial :=
  match checked (b_intervalHours body) bad_interval interval_error with
  | inl msg => inl msg
  | inr hours =>
      match checked (b_batchSize body) bad_batch batch_error with
      | inl msg => inl msg
      | inr size =>
          inr {| p_intervalHours := hours;
                 p_batchSize := size;
                 p_includeInactive :=
                   match b_includeInactive body with
                   | VUndefined => None
                   | v => Some (to_boolean v)
                   end;
                 p_enabled := None |}
      end
  end.

(** [updateSettings(req, res)]. *)
Definition updateSettings (w : World) (body : Body) (now : Date)
    : World * option Response :=
  match requested_update body with
  | inl msg => (w, Some (refuse 400 msg))
  | inr p =>
      let w1 := SchedulerService.updateSettings w p now in
      let '(w2, status) := getStatus w1 now in
      match st_nextRun status, st_upcomingSchedules status with
      | Returns next, Returns upcoming =>
          (w2, Some (accept (settings w2) next upcoming))
      | Throws e, _ | _, Throws e => (w2, Some (refuse 500 e))
      | _, _ => (w2, None)
      end
  end.

(** [runManualJob(req, res)]: the job is started and not waited for. *)
Definition runManualJob (w : World) (body : Body) (jobId : string)
    (fetched : string + list Client) : World * Response :=
  if negb (db_connected w)
  then (w, refuse 500 "Database connection failed")
  else
    let size := parseInt (default (b_batchSize body) (VNum 10)) in
    let includeInactive := default (b_includeInactive body) (VBool false) in
    if bad_batch size then (w, refuse 400 batch_error)
    else
      (executeManualJob w
         {| p_intervalHours := None; p_batchSize := Some size;
            p_includeInactive := Some (to_boolean includeInactive);
            p_enabled := None |} jobId fetched,
       {| http_status := 200; success := true; error := None;
          res_settings := None; res_nextRun := None;
          res_upcomingSchedules := [] |}).

(** [stopScheduler(req, res)]. *)
Definition stopScheduler (w : World) : World * Response :=
  let w1 := SchedulerService.stopScheduler w true in
  (w1, {| http_status := 200; success := true; error := None;
          res_settings := Some (settings w1); res_nextRun := None;
          res_upcomingSchedules := [] |}).

(** [databaseService.getRecentJobs(limit)] for a number [limit]: the
    query is built with [LIMIT parseInt(limit) || 10]; [query n] is what
    the database answers to it.  Nothing is thrown: without the database
    the answer is the empty list. *)
Definition limit_of (limit : jsnum) : Z :=
  match limit with
  | JInt 0 => 10
  | JInt z => z
  | JInf | JNaN => 10
  end.

Definition getRecentJobs (w : World) (query : Z -> list string)
    (limit : jsnum) : list string :=
  if db_connected w then query (limit_of limit) else [].

(** [getJobHistory(req, res)]: the status code, and the error or the
    jobs sent. *)
Definition getJobHistory (w : World) (query : Z -> list string)
    (limit : jsval) : Z * (string + list string) :=
  let limitInt := parseInt (default limit (VNum 10)) in
  if Js.lt limitInt (JInt 1) || Js.gt limitInt (JInt 100)
  then (400, inl "Limit must be between 1 and 100")
  else (200, inr (getRecentJobs w query limitInt)).

(** *** Notions used to state the properties *)

(** The value [getStatus] reports as [enabled]. *)
Definition reported_enabled (w : World) : bool :=
  match getSchedulerState w with
  | Some dbState => enabled dbState
  | None => enabled (settings w)
  end.

Definition requested_hours (body : Body) : jsnum :=
  parseInt (default (b_intervalHours body) (VNum 4)).

Definition requested_size (body : Body) : jsnum :=
  parseInt (default (b_batchSize body) (VNum 10)).

Definition requested_inactive (body : Body) : bool :=
  to_boolean (default (b_includeInactive body) (VBool false)).

(** The field is there and is not a number. *)
Definition not_a_number (v : jsval) : Prop :=
  v <> VUndefined /\ parseInt v = JNaN.

(** The number is [NaN] or lies between the bounds. *)
Definition nan_or_within (lo hi : Z) (n : jsnum) : Prop :=
  n = JNaN \/ exists z, n = JInt z /\ lo <= z <= hi.

End PaymentController.

(* ================================================================== *)
(** ** The login token: [services/auth.js] *)
(* ================================================================== *)

Module AuthService.

(** [this.tokenCache]; the token is [null] or a string. *)
Record TokenCache : Type := {
  token : option string;
  expiresAt : Z
}.

(** The service: its cache, and the number of login requests it has sent
    to the authentication endpoint. *)
Record Service : Type := {
  tokenCache : TokenCache;
  logins : nat
}.

(** What becomes of a login request: the endpoint answers, with
    [data.token] or without, or the request fails with a message. *)
Inductive Login : Type :=
| Answered (data_token : option string)
| Failed (message : string).

(** The truth value of a token: [null] and the empty string are falsy. *)
Definition truthy (t : option string) : bool :=
  match t with
  | Some s => negb (String.eqb s "")
  | None => false
  end.

(** The service as its constructor leaves it. *)
Definition constructed : Service :=
  {| tokenCache := {| token := None; expiresAt := 0 |}; logins := 0 |}.

Definition sent (s : Service) : Service :=
  {| tokenCache := tokenCache s; logins := S (logins s) |}.

(** [fetchToken()].  [refresh] is [config.processing.tokenRefreshInterval],
    [answered] the clock when the response is there.  The result is the
    token, or the message of the error thrown. *)
Definition fetchToken (s : Service) (refresh answered : Z) (r : Login)
    : Service * (string + string) :=
  match r with
  | Answered (Some t) =>
      if truthy (Some t)
      then ({| tokenCache := {| token := Some t;
                                expiresAt := answered + refresh |};
               logins := S (logins s) |}, inr t)
      else (sent s, inl "Authentication failed: No token in response")
  | Answered None =>
      (sent s, inl "Authentication failed: No token in response")
  | Failed m => (sent s, inl (String.append "Authentication failed: " m))
  end.

(** [isTokenValid()], as a truth value, with the clock at [now]. *)
Definition isTokenValid (s : Service) (now : Z) : bool :=
  truthy (token (tokenCache s)) && (now <? expiresAt (tokenCache s)).

(** [getValidToken()] with the clock at [now]. *)
Definition getValidToken (s : Service) (refresh now answered : Z) (r : Login)
    : Service * (string + string) :=
  match token (tokenCache s) with
  | Some t =>
      if isTokenValid s now then (s, inr t)
      else fetchToken s refresh answered r
  | None => fetchToken s refresh answered r
  end.

(** [clearToken()]. *)
Definition clearToken (s : Service) : Service :=
  {| tokenCache := {| token := None; expiresAt := 0 |};
     logins := logins s |}.

(** [getTokenInfo()]. *)
Record TokenInfo : Type := {
  hasToken : bool;
  info_expiresAt : Z;
  isExpired : bool
}.

Definition getTokenInfo (s : Service) (now : Z) : TokenInfo :=
  {| hasToken := truthy (token (tokenCache s));
     info_expiresAt := expiresAt (tokenCache s);
     isExpired := expiresAt (tokenCache s) <=? now |}.

(** *** Notions used to state the properties *)

(** What the callers of the service do, one after the other: they ask
    for a token, with the clock at [asked] (and at [answered] when a login
    request sent for it is answered with [reply]), or they clear the
    cache. *)
Inductive Call : Type :=
| Ask (asked answered : Z) (reply : Login)
| Clear.

(** The tokens handed out in a run of calls, each with the time at which
    it was asked for. *)
Fixpoint handed_out (s : Service) (refresh : Z) (calls : list Call)
    : list (Z * string) :=
  match calls with
  | [] => []
  | Ask asked answered reply :: rest =>
      let '(s', result) := getValidToken s refresh asked answered reply in
      match result with
      | inr t => (asked, t) :: handed_out s' refresh rest
      | inl _ => handed_out s' refresh rest
      end
  | Clear :: rest => handed_out (clearToken s) refresh rest
  end.

(** The login requests sent in a run of calls. *)
Fixpoint logins_after (s : Service) (refresh : Z) (calls : list Call) : nat :=
  match calls with
  | [] => logins s
  | Ask asked answered reply :: rest =>
      logins_after (fst (getValidToken s refresh asked answered reply))
        refresh rest
  | Clear :: rest => logins_after (clearToken s) refresh rest
  end.

(** The endpoint issued [t] in an answer that arrived at [issued]. *)
Definition issued_at (calls : list Call) (t : string) (issued : Z) : Prop :=
  exists asked, In (Ask asked issued (Answered (Some t))) calls.

(** The cache holds nothing, or a token that the endpoint issued in one
    of the calls made so far, with the time at which it expires. *)
Definition cache_issued (refresh : Z) (prior : list Call) (s : Service)
    : Prop :=
  forall t, token (tokenCache s) = Some t ->
    t <> "" /\
    exists issued,
      issued_at prior t issued /\
      expiresAt (tokenCache s) = issued + refresh.

End AuthService.

(* ================================================================== *)
(** ** The subscriber lookup: class [MsisdnService] *)
(* ================================================================== *)

Module MsisdnService.

(** The two request headers the service reads; [None] is a header that
    is not there. *)
Record Headers : Type := {
  cookie : option string;
  user_agent : option string
}.

(** What a lookup returns. *)
Record Lookup : Type := {
  success : bool;
  msisdn : option string;
  error : option string;
  needsVerify : bool
}.

Definition found (m : string) : Lookup :=
  {| success := true; msisdn := Some m; error := None;
     needsVerify := false |}.

Definition not_found (e : string) (verify : bool) : Lookup :=
  {| success := false; msisdn := None; error := Some e;
     needsVerify := verify |}.

(** What a request to one of the two endpoints gives: the data of the
    response, or an error. *)
Inductive Reply (A : Type) : Type :=
| Data (a : A)
| Fails (message : string).
Arguments Data {A} a.
Arguments Fails {A} message.

(** The fields read in the answer of the second endpoint:
    [data.header.responseCode] and [data.body.msisdn]. *)
Record MsisdnData : Type := {
  responseCode : option Z;
  body_msisdn : option string
}.

(** The two endpoints: the first is asked with the cookie and the user
    agent of the request and answers with [data.t]; the second is asked
    with that token. *)
Record Network : Type := {
  config_endpoint : string -> string -> Reply (option string);
  msisdn_endpoint : string -> Reply MsisdnData
}.

(** [a || b] on strings that may be missing. *)
Definition or_string (a : option string) (b : string) : string :=
  match a with
  | Some s => if String.eqb s "" then b else s
  | None => b
  end.

(** [fetchMsisdn(headers)]. *)
Definition fetchMsisdn (net : Network) (headers : Headers) : Lookup :=
  match config_endpoint net (or_string (cookie headers) "")
          (or_string (user_agent headers) "Mozilla/5.0") with
  | Fails message => not_found message false
  | Data t =>
      if String.eqb (or_string t "") ""
      then not_found "No token in config response" false
      else
        match msisdn_endpoint net (or_string t "") with
        | Fails message => not_found message false
        | Data d =>
            match responseCode d with
            | Some 403 => not_found "MSISDN not found" true
            | _ =>
                if String.eqb (or_string (body_msisdn d) "") ""
                then not_found "No MSISDN in response" false
                else found (or_string (body_msisdn d) "")
            end
        end
  end.

Record Entry : Type := {
  data : Lookup;
  timestamp : Z
}.

(** The service: its cache (a [Map], kept in insertion order) and the
    number of calls of [fetchMsisdn] so far. *)
Record Service : Type := {
  cache : list (string * Entry);
  fetches : nat
}.

Definition cacheTTL : Z := 5 * 60 * 1000.

Fixpoint get (k : string) (m : list (string * Entry)) : option Entry :=
  match m with
  | [] => None
  | (k', v) :: r => if String.eqb k' k then Some v else get k r
  end.

Fixpoint set (k : string) (v : Entry) (m : list (string * Entry))
    : list (string * Entry) :=
  match m with
  | [] => [(k, v)]
  | (k', v') :: r =>
      if String.eqb k' k then (k, v) :: r else (k', v') :: set k v r
  end.

(** [headers.cookie || headers['user-agent'] || 'default']. *)
Definition cacheKey (headers : Headers) : string :=
  or_string (cookie headers) (or_string (user_agent headers) "default").

(** [getMsisdn(headers)], with the clock at [now] when the cache is
    looked at and at [answered] when a lookup has come back. *)
Definition getMsisdn (s : Service) (net : Network) (headers : Headers)
    (now answered : Z) : Service * Lookup :=
  let fetch :=
    let result := fetchMsisdn net headers in
    ({| cache := if success result
                 then set (cacheKey headers)
                        {| data := result; timestamp := answered |}
                        (cache s)
                 else cache s;
        fetches := S (fetches s) |}, result) in
  match get (cacheKey headers) (cache s) with
  | Some cached =>
      if now - timestamp cached <? cacheTTL then (s, data cached)
      else fetch
  | None => fetch
  end.

(** [clearCache()]. *)
Definition clearCache (s : Service) : Service :=
  {| cache := []; fetches := fetches s |}.

(** *** Notions used to state the properties *)

(** The header is missing or empty. *)
Definition absent (h : option string) : Prop := h = None \/ h = Some "".

(** Every entry of the cache is a lookup that succeeded. *)
Definition only_successes (s : Service) : Prop :=
  Forall (fun kv => success (data (snd kv)) = true) (cache s).

End MsisdnService.

(* ================================================================== *)
(** ** Sample data *)
(* ================================================================== *)

Module Samples.
Import PaymentService.

Definition subscriber (m : string) : Client :=
  {| msisdn := m; offer_code := "001"; retryCount := 0; lastError := None |}.

Definition six_subscribers : list Client :=
  map subscriber
    ["254700000001"; "254700000002"; "254700000003";
     "254700000004"; "254700000005"; "254700000006"].

Definition accepted : Attempt :=
  {| usePrimary := true; reply := Fulfilled "0" "Success" 120 |}.

Definition refused : Attempt :=
  {| usePrimary := false;
     reply := Rejected {| code := Some "ECONNRESET";
                          message := "socket hang up";
                          response_status := None |} |}.

(** A client waiting in the retry queue after one failure. *)
Definition waiting (m : string) : Client :=
  {| msisdn := m; offer_code := "001"; retryCount := 1;
     lastError := Some "socket hang up" |}.

Definition five_waiting : list Client :=
  map waiting
    ["254700000001"; "254700000002"; "254700000003";
     "254700000004"; "254700000005"].

(** Both endpoints answer / both endpoints are down. *)
Definition upstream_up : nat -> nat -> Client -> Attempt :=
  fun _ _ _ => accepted.
Definition upstream_down : nat -> nat -> Client -> Attempt :=
  fun _ _ _ => refused.

(** Every first request is refused, every retry accepted. *)
Definition upstream_flaky : nat -> nat -> Client -> Attempt :=
fun _ _ c => if (retryCount c =? 0)%nat then refused else accepted.

(** Only the subscriber [m] is refused. *)
Definition upstream_refusing (m : string) : nat -> nat -> Client -> Attempt :=
  fun _ _ c => if String.eqb (msisdn c) m then refused else accepted.

(** The requests settle in the order they were sent / in the opposite
    order. *)
Definition in_order : nat -> list (nat * Client) -> list (nat * Client) :=
  fun _ l => l.
Definition last_first : nat -> list (nat * Client) -> list (nat * Client) :=
  fun _ l => rev l.

(** Rounding to the nearest tenth. *)
Definition per_second (n d : Z) : Z := (n * 20000 + d) / (2 * d).
Definition percent (a b : Z) : Z := (a * 2000 + b) / (2 * b).

(** A run with the clock at 1000 when it starts and 1750 when it ends. *)
Definition run (upstream : nat -> nat -> Client -> Attempt)
    (settle : nat -> list (nat * Client) -> list (nat * Client))
    (batchSize : jsnum) (fuel : nat) (clients : list Client)
    : option Outcome :=
  processClients upstream settle 1000 1750 per_second percent batchSize
    "job-1" fuel clients.

Import SchedulerService PaymentController.

(** A process that has just started: nothing armed, nothing stored. *)
Definition idle : World :=
  {| scheduledTask := None; currentJob := None; runningJobs := [];
     settings := {| intervalHours := JInt 4; batchSize := JInt 75;
                    includeInactive := false; enabled := false |};
     stored := None; db_connected := true; effects := [] |}.

(** The scheduler enabled every [i] hours. *)
Definition every (i : Z) : World :=
  {| scheduledTask := Some {| cronHours := [0] |};
     currentJob := None; runningJobs := [];
     settings := {| intervalHours := JInt i; batchSize := JInt 75;
                    includeInactive := false; enabled := true |};
     stored := Some {| intervalHours := JInt i; batchSize := JInt 75;
                       includeInactive := false; enabled := true |};
     db_connected := true; effects := [] |}.

(** A scheduled job over six clients is in flight. *)
Definition scheduled_job : Job :=
  {| job_id := "job-1"; status := running; totalClients := 6;
     isScheduled := true |}.

Definition busy : World :=
  {| scheduledTask := Some {| cronHours := [0; 4; 8; 12; 16; 20] |};
     currentJob := Some scheduled_job;
     runningJobs := [("job-1", scheduled_job)];
     settings := {| intervalHours := JInt 4; batchSize := JInt 75;
                    includeInactive := false; enabled := true |};
     stored := Some {| intervalHours := JInt 4; batchSize := JInt 75;
                       includeInactive := false; enabled := true |};
     db_connected := true; effects := [] |}.

Definition no_settings : Partial :=
  {| p_intervalHours := None; p_batchSize := None;
     p_includeInactive := None; p_enabled := None |}.

Definition request (interval batch : jsval) : Body :=
  {| b_intervalHours := interval; b_batchSize := batch;
     b_includeInactive := VUndefined |}.

(** Day 0, 16:30. *)
Definition half_past_four : Date := Local 0 16 30 0 0.

End Samples.

(* ================================================================== *)
(** ** Properties of the dispatch engine *)
(* ================================================================== *)

Unset Implicit Arguments.

Module PaymentFacts.
Import PaymentService.

(** *** Lists *)

Lemma count_where_app {A : Type} (p : A -> bool) (l1 l2 : list A) :
  count_where p (l1 ++ l2) = (count_where p l1 + count_where p l2)%nat.
Proof. unfold count_where. now rewrite filter_app, length_app. Qed.

Lemma count_where_map {A B : Type} (f : A -> B) (p : B -> bool) (l : list A) :
  count_where p (map f l) = count_where (fun x => p (f x)) l.
Proof.
  unfold count_where. induction l as [|x l IH]; simpl; [reflexivity|].
  destruct (p (f x)); simpl; now rewrite IH.
Qed.

Lemma count_where_perm {A : Type} (p : A -> bool) (l1 l2 : list A) :
  Permutation l1 l2 -> count_where p l1 = count_where p l2.
Proof.
  unfold count_where. induction 1 as [|x l1 l2 _ IH|x y l|l1 l2 l3 _ IH1 _ IH2];
    simpl; try reflexivity.
  - destruct (p x); simpl; now rewrite IH.
  - destruct (p x), (p y); reflexivity.
  - now rewrite IH1.
Qed.

Lemma count_where_split {A : Type} (p : A -> bool) (l : list A) :
  (count_where p l + count_where (fun x => negb (p x)) l = length l)%nat.
Proof.
  unfold count_where. induction l as [|x l IH]; simpl; [reflexivity|].
  destruct (p x); simpl; lia.
Qed.

Lemma count_where_le {A : Type} (p : A -> bool) (l : list A) :
  (count_where p l <= length l)%nat.
Proof. pose proof (count_where_split p l). lia. Qed.

Lemma count_where_ext {A : Type} (p q : A -> bool) (l : list A) :
  (forall x, In x l -> p x = q x) -> count_where p l = count_where q l.
Proof.
  unfold count_where. intros H. induction l as [|x l IH]; simpl; [reflexivity|].
  rewrite (H x (or_introl eq_refl)).
  destruct (q x); simpl; rewrite IH; auto; intros; apply H; now right.
Qed.

Lemma count_where_none {A : Type} (p : A -> bool) (l : list A) :
  (forall x, In x l -> p x = false) -> count_where p l = 0%nat.
Proof.
  intros H. rewrite (count_where_ext p (fun _ => false) l H).
  unfold count_where. clear H. induction l; auto.
Qed.



Lemma filter_perm {A : Type} (p : A -> bool) (l1 l2 : list A) :
  Permutation l1 l2 -> Permutation (filter p l1) (filter p l2).
Proof.
  induction 1 as [|x l1 l2 _ IH|x y l|l1 l2 l3 _ IH1 _ IH2]; cbn [filter].
  - constructor.
  - destruct (p x); auto.
  - destruct (p x), (p y); auto using perm_swap.
  - eapply perm_trans; eauto.
Qed.

Lemma list_sum_perm (l1 l2 : list nat) :
  Permutation l1 l2 -> list_sum l1 = list_sum l2.
Proof.
  induction 1; simpl; lia.
Qed.

Lemma total_weight_app (l1 l2 : list Client) :
  total_weight (l1 ++ l2) = (total_weight l1 + total_weight l2)%nat.
Proof. unfold total_weight. now rewrite map_app, list_sum_app. Qed.

Lemma total_weight_perm (l1 l2 : list Client) :
  Permutation l1 l2 -> total_weight l1 = total_weight l2.
Proof.
  intros H. unfold total_weight. apply list_sum_perm. now apply Permutation_map.
Qed.

Lemma total_weight_cons (c : Client) (l : list Client) :
  total_weight (c :: l) = (weight c + total_weight l)%nat.
Proof. reflexivity. Qed.

Lemma weight_pos (c : Client) : (1 <= weight c)%nat.
Proof. unfold weight. lia. Qed.

Lemma total_weight_length (l : list Client) :
  (length l <= total_weight l)%nat.
Proof.
  induction l as [|c l IH]; [apply Nat.le_0_l|].
  rewrite total_weight_cons. pose proof (weight_pos c). simpl length. lia.
Qed.

Lemma slots_length (batch : list Client) : length (slots batch) = length batch.
Proof.
  unfold slots. rewrite length_combine, length_seq. apply Nat.min_id.
Qed.

Lemma slots_clients (batch : list Client) : map snd (slots batch) = batch.
Proof.
  unfold slots.
  generalize 0%nat. induction batch as [|c batch IH]; intros n; simpl;
    [reflexivity|]. now rewrite IH.
Qed.

(** *** One request *)

Lemma outcome_success (a : Attempt) (c : Client) (r : bool) :
  success (outcome a c r) = fulfilled a.
Proof. unfold outcome, fulfilled. now destruct (reply a). Qed.

Lemma outcome_isRetry (a : Attempt) (c : Client) (r : bool) :
  isRetry (outcome a c r) = r.
Proof. unfold outcome. now destruct (reply a). Qed.

Lemma outcome_msisdn (a : Attempt) (c : Client) (r : bool) :
  res_msisdn (outcome a c r) = msisdn c.
Proof. unfold outcome. now destruct (reply a). Qed.

Lemma single_result (a : Attempt) (c : Client) (r : bool) (s : Service) :
  snd (processSinglePayment a c r s) = outcome a c r.
Proof.
  unfold processSinglePayment, selectServer.
  destruct (usePrimary a), (reply a); reflexivity.
Qed.

(** What one call does to the counters and to the retry queue. *)
Lemma single_effect (a : Attempt) (c : Client) (r : bool) (s : Service) :
  let s' := fst (processSinglePayment a c r s) in
  totalRequests (stats s') = totalRequests (stats s) + 1 /\
  successful (stats s') = successful (stats s) + Z.b2z (fulfilled a) /\
  failed (stats s') = failed (stats s) + Z.b2z (negb (fulfilled a)) /\
  retried (stats s') = retried (stats s) + Z.b2z (fulfilled a && r) /\
  failedQueue s' = failedQueue s ++ requeue_of a c.
Proof.
  unfold processSinglePayment, selectServer, requeue_of, fulfilled.
  destruct (usePrimary a), (reply a) as [sc d t|e], r;
    cbn -[Nat.ltb maxRetries Z.add];
    try destruct (retryCount c <? maxRetries)%nat;
    cbn -[Nat.ltb maxRetries Z.add];
    rewrite ?app_nil_r, ?Z.add_0_r; repeat split; reflexivity.
Qed.

Lemma requeue_of_retry (a : Attempt) (c c' : Client) :
  In c' (requeue_of a c) ->
  (retryCount c < maxRetries)%nat /\ retryCount c' = S (retryCount c) /\
  msisdn c' = msisdn c /\ fulfilled a = false.
Proof.
  unfold requeue_of, fulfilled.
  destruct (reply a) as [sc d t|e]; [intros []|].
  destruct (Nat.ltb_spec (retryCount c) maxRetries) as [Hlt|Hge]; [|intros []].
  intros [<-|[]]. cbn. repeat split; auto. lia.
Qed.

Section Batch.

Variable upstream : nat -> nat -> Client -> Attempt.

Local Abbreviation attempt := (attempt_at upstream).

(** The counters and the retry queue after the requests of [order] have
    settled, whatever the order. *)
Lemma settle_all_effect (b : nat) (order : list (nat * Client)) (s : Service) :
  let s' := settle_all upstream b order s in
  totalRequests (stats s')
    = totalRequests (stats s) + Z.of_nat (length order) /\
  successful (stats s')
    = successful (stats s)
      + Z.of_nat (count_where (fun ic => fulfilled (attempt b ic)) order) /\
  failed (stats s')
    = failed (stats s)
      + Z.of_nat (count_where (fun ic => negb (fulfilled (attempt b ic)))
                    order) /\
  retried (stats s')
    = retried (stats s)
      + Z.of_nat (count_where
                    (fun ic => fulfilled (attempt b ic)
                               && is_retry_of (snd ic)) order) /\
  failedQueue s' = failedQueue s ++ requeued upstream b order.
Proof.
  revert s. induction order as [|ic order IH]; intros s.
  - cbn. rewrite !Z.add_0_r, app_nil_r. auto.
  - cbn zeta. unfold settle_all. cbn [fold_left].
    fold (attempt b ic).
    set (s1 := fst (processSinglePayment (attempt b ic) (snd ic)
                      (is_retry_of (snd ic)) s)).
    destruct (single_effect (attempt b ic) (snd ic) (is_retry_of (snd ic)) s)
      as (Ht & Hs & Hf & Hr & Hq).
    fold s1 in Ht, Hs, Hf, Hr, Hq.
    destruct (IH s1) as (Ht' & Hs' & Hf' & Hr' & Hq').
    unfold settle_all in Ht', Hs', Hf', Hr', Hq'.
    rewrite Ht', Hs', Hf', Hr', Hq', Ht, Hs, Hf, Hr, Hq.
    unfold count_where, requeued. cbn [filter flat_map length].
    destruct (fulfilled (attempt b ic)), (is_retry_of (snd ic));
      cbn [negb andb Z.b2z length];
      rewrite <- ?app_assoc; repeat split; try lia; reflexivity.
Qed.

(** **** The retry budget *)

Lemma requeue_of_weight (a : Attempt) (c : Client) :
  (total_weight (requeue_of a c) + 1 <= weight c)%nat /\
  (fulfilled a = false ->
   (total_weight (requeue_of a c) + 1 = weight c)%nat).
Proof.
  unfold requeue_of, fulfilled, total_weight.
  destruct (reply a) as [sc d t|e].
  - cbn. pose proof (weight_pos c). split; [lia|discriminate].
  - destruct (Nat.ltb_spec (retryCount c) maxRetries) as [Hlt|Hge];
      cbn [map list_sum fold_right]; unfold weight, clientForRetry;
      cbn [retryCount]; split; intros; lia.
Qed.

Lemma requeue_of_about (m : string) (a : Attempt) (c : Client) :
  filter (about m) (requeue_of a c)
  = if about m c then requeue_of a c else [].
Proof.
  unfold requeue_of.
  destruct (reply a) as [sc d t|e]; [now destruct (about m c)|].
  destruct (retryCount c <? maxRetries)%nat; [|now destruct (about m c)].
  cbn [filter]. unfold about at 1. cbn [msisdn clientForRetry].
  fold (about m c). now destruct (about m c).
Qed.

(** Every request uses up at least one unit of the retry budget of the
    batch. *)
Lemma requeued_weight (b : nat) (order : list (nat * Client)) :
  (total_weight (requeued upstream b order) + length order
   <= total_weight (map snd order))%nat.
Proof.
  induction order as [|ic order IH]; [reflexivity|].
  unfold requeued in *. cbn [flat_map map length].
  rewrite total_weight_app, total_weight_cons.
  destruct (requeue_of_weight (attempt b ic) (snd ic)) as [H _]. lia.
Qed.

(** The same, for the requests of one client. *)
Lemma requeued_weight_about (m : string) (b : nat)
    (order : list (nat * Client)) :
  (total_weight (filter (about m) (requeued upstream b order))
   + count_where (fun ic => about m (snd ic)) order
   <= total_weight (filter (about m) (map snd order)))%nat.
Proof.
  induction order as [|ic order IH]; [reflexivity|].
  unfold requeued, count_where in *. cbn [flat_map map filter].
  rewrite filter_app, total_weight_app, requeue_of_about.
  destruct (about m (snd ic)); cbn [length]; [|exact IH].
  rewrite total_weight_cons.
  destruct (requeue_of_weight (attempt b ic) (snd ic)) as [H _]. lia.
Qed.


(** **** Retries and failures *)

Lemma requeued_are_retries (b : nat) (order : list (nat * Client)) :
  count_where is_retry_of (requeued upstream b order)
  = length (requeued upstream b order).
Proof.
  unfold count_where. f_equal.
  apply forallb_filter_id. apply forallb_forall. intros c' Hin.
  unfold requeued in Hin. apply in_flat_map in Hin.
  destruct Hin as (ic & _ & Hin).
  apply requeue_of_retry in Hin. destruct Hin as (_ & Hrc & _).
  unfold is_retry_of. rewrite Hrc. reflexivity.
Qed.

(** A success of a retry and a new entry of the retry queue are each
    paid for by a failure of this batch or by a retry that was in it. *)
Lemma requeued_retries (b : nat) (order : list (nat * Client)) :
  (count_where (fun ic => fulfilled (attempt b ic) && is_retry_of (snd ic))
     order
   + length (requeued upstream b order)
   <= count_where (fun ic => negb (fulfilled (attempt b ic))) order
      + count_where is_retry_of (map snd order))%nat.
Proof.
  induction order as [|ic order IH]; [reflexivity|].
  unfold requeued, count_where in *. cbn [flat_map map filter].
  rewrite length_app.
  assert (Hq : (length (requeue_of (attempt b ic) (snd ic))
                <= Nat.b2n (negb (fulfilled (attempt b ic))))%nat).
  { unfold requeue_of, fulfilled.
    destruct (reply (attempt b ic)); [cbn; lia|].
    destruct (retryCount (snd ic) <? maxRetries)%nat; cbn; lia. }
  destruct (fulfilled (attempt b ic)), (is_retry_of (snd ic));
    cbn [negb andb length Nat.b2n] in *; lia.
Qed.

End Batch.

(** *** Building a batch *)

Lemma splice_app {A : Type} (arr : list A) (c : jsnum) (taken rest : list A) :
  splice arr c = (taken, rest) -> arr = taken ++ rest.
Proof.
  unfold splice. intros [= <- <-]. symmetry. apply firstn_skipn.
Qed.

Lemma splice_length {A : Type} (arr : list A) (c : jsnum) (taken rest : list A) :
  splice arr c = (taken, rest) ->
  length taken = delete_count c (length arr).
Proof.
  unfold splice. intros [= <- _]. rewrite length_firstn.
  destruct c; cbn; lia.
Qed.

Lemma build_batch_app (batchSize : jsnum) (all fq : list Client)
    (regular retry all' fq' : list Client) :
  build_batch batchSize all fq = ((regular, retry), (all', fq')) ->
  all = regular ++ all' /\ fq = retry ++ fq'.
Proof.
  unfold build_batch.
  destruct (splice all _) as [r a'] eqn:H1.
  destruct (splice fq _) as [t q'] eqn:H2.
  intros [= <- <- <- <-]. split; eapply splice_app; eauto.
Qed.

(** The sizes of the two parts of the batch. *)
Lemma build_batch_lengths (batchSize : jsnum) (all fq : list Client)
    (regular retry all' fq' : list Client) :
  build_batch batchSize all fq = ((regular, retry), (all', fq')) ->
  length regular
  = delete_count (Js.max 1 (Js.sub batchSize (Z.of_nat (length fq))))
      (length all) /\
  length retry
  = delete_count (Js.sub batchSize (Z.of_nat (length regular))) (length fq).
Proof.
  unfold build_batch.
  destruct (splice all _) as [r a'] eqn:H1.
  destruct (splice fq _) as [t q'] eqn:H2.
  intros [= <- <- <- <-]. split; eapply splice_length; eauto.
Qed.

(** With a batch size of at least one the batch is not larger than the
    batch size, and it is empty only when both queues are. *)
Lemma build_batch_int (b : Z) (all fq : list Client)
    (regular retry all' fq' : list Client) :
  1 <= b ->
  build_batch (JInt b) all fq = ((regular, retry), (all', fq')) ->
  Z.of_nat (length regular + length retry) <= b /\
  (regular ++ retry = [] -> all = [] /\ fq = []).
Proof.
  intros Hb H. pose proof (build_batch_app _ _ _ _ _ _ _ H) as [Ha Hq].
  apply build_batch_lengths in H. destruct H as [Hr Ht].
  cbn [Js.sub Js.max delete_count] in Hr, Ht.
  split; [lia|].
  intros Hnil. apply app_eq_nil in Hnil. destruct Hnil as [-> ->].
  cbn [length] in *. cbn [app] in Ha, Hq. subst all' fq'.
  assert (Hall : length all = 0%nat) by lia.
  assert (Hfq : length fq = 0%nat) by lia.
  split; now apply length_zero_iff_nil.
Qed.

(** *** One pass through the loop *)

Section Run.

Variable upstream : nat -> nat -> Client -> Attempt.
Variable settle : nat -> list (nat * Client) -> list (nat * Client).
Variable batchSize : jsnum.
Variable jobId : string.

Hypothesis settle_perm : forall b l, Permutation (settle b l) l.

Local Abbreviation iter := (iteration upstream settle batchSize jobId).
Local Abbreviation runb := (run_batch upstream settle batchSize jobId).
Local Abbreviation result_at :=
  (fun b ic => outcome (attempt_at upstream b ic) (snd ic)
                 (is_retry_of (snd ic))).

Lemma run_batch_fields (l : Loop) (idx : nat)
    (regular retry all' fq' : list Client) :
  let l' := runb l idx regular retry all' fq' in
  let batch := regular ++ retry in
  allClients l' = all' /\
  svc l' = settle_all upstream idx (settle idx (slots batch))
             {| stats := stats (svc l); failedQueue := fq' |} /\
  results l' = results l ++ map (result_at idx) (slots batch) /\
  batchIndex l' = idx /\
  total_announced (emitted l')
  = (total_announced (emitted l) + length batch)%nat /\
  batches_completed (emitted l') = S (batches_completed (emitted l)) /\
  batches_started (emitted l') = S (batches_started (emitted l)).
Proof.
  unfold run_batch, processBatchParallel. cbn zeta.
  cbn [allClients svc results batchIndex emitted].
  repeat split.
  - unfold total_announced. rewrite map_app, list_sum_app.
    cbn [map announced list_sum fold_right].
    rewrite count_where_split, length_map, slots_length. lia.
  - unfold batches_completed. rewrite count_where_app. cbn. lia.
  - unfold batches_started. rewrite count_where_app. cbn. lia.
Qed.

(** The counters and the queue after the batch, in terms of the slots of
    the batch (the order of settlement no longer shows). *)
Lemma run_batch_service (l : Loop) (idx : nat)
    (regular retry all' fq' : list Client) :
  let l' := runb l idx regular retry all' fq' in
  let sl := slots (regular ++ retry) in
  let order := settle idx sl in
  totalRequests (stats (svc l'))
  = totalRequests (stats (svc l)) + Z.of_nat (length (regular ++ retry)) /\
  successful (stats (svc l'))
  = successful (stats (svc l))
    + Z.of_nat (count_where success (map (result_at idx) sl)) /\
  failed (stats (svc l'))
  = failed (stats (svc l))
    + Z.of_nat (count_where (fun r => negb (success r))
                  (map (result_at idx) sl)) /\
  retried (stats (svc l'))
  = retried (stats (svc l))
    + Z.of_nat (count_where (fun r => success r && isRetry r)
                  (map (result_at idx) sl)) /\
  failedQueue (svc l') = fq' ++ requeued upstream idx order /\
  Permutation order sl.
Proof.
  cbn zeta.
  destruct (run_batch_fields l idx regular retry all' fq')
    as (_ & Hsvc & _).
  rewrite Hsvc.
  set (sl := slots (regular ++ retry)).
  pose proof (settle_perm idx sl) as Hperm.
  destruct (settle_all_effect upstream idx (settle idx sl)
              {| stats := stats (svc l); failedQueue := fq' |})
    as (Ht & Hs & Hf & Hr & Hq).
  cbn [stats failedQueue] in Ht, Hs, Hf, Hr, Hq.
  rewrite Ht, Hs, Hf, Hr, Hq.
  rewrite (Permutation_length Hperm).
  rewrite !(count_where_perm _ _ _ Hperm).
  rewrite !count_where_map.
  unfold sl at 1. rewrite slots_length.
  repeat split; auto; do 2 f_equal; apply count_where_ext; intros ic _.
  - now rewrite outcome_success.
  - now rewrite outcome_success.
  - now rewrite outcome_success, outcome_isRetry.
Qed.

(** **** What a pass preserves *)

Section Pass.

Variables (l : Loop) (idx : nat) (regular retry all' fq' : list Client).
Hypothesis Hall : allClients l = regular ++ all'.
Hypothesis Hfq : failedQueue (svc l) = retry ++ fq'.

Let l' := runb l idx regular retry all' fq'.

Lemma pending_before :
  Permutation (pending l) ((regular ++ retry) ++ all' ++ fq').
Proof.
  unfold pending. rewrite Hall, Hfq, <- !app_assoc.
  apply Permutation_app_head. rewrite !app_assoc.
  apply Permutation_app_tail. apply Permutation_app_comm.
Qed.

Lemma pending_after :
  pending l'
  = all' ++ fq'
    ++ requeued upstream idx (settle idx (slots (regular ++ retry))).
Proof.
  unfold pending.
  destruct (run_batch_fields l idx regular retry all' fq') as (Ha & _).
  destruct (run_batch_service l idx regular retry all' fq')
    as (_ & _ & _ & _ & Hq & _).
  fold l' in Ha, Hq. now rewrite Ha, Hq.
Qed.

Lemma settled_clients :
  Permutation (map snd (settle idx (slots (regular ++ retry))))
    (regular ++ retry).
Proof.
  rewrite <- (slots_clients (regular ++ retry)) at 2.
  apply Permutation_map, settle_perm.
Qed.

Lemma settled_length :
  length (settle idx (slots (regular ++ retry)))
  = length (regular ++ retry).
Proof.
  rewrite (Permutation_length (settle_perm idx _)). apply slots_length.
Qed.

(** Every request of the batch uses up retry budget. *)
Lemma run_batch_weight :
  (total_weight (pending l') + length (regular ++ retry)
   <= total_weight (pending l))%nat.
Proof.
  rewrite (total_weight_perm _ _ pending_before), pending_after.
  rewrite !total_weight_app.
  pose proof (requeued_weight upstream idx
                (settle idx (slots (regular ++ retry)))) as H.
  rewrite settled_length, (total_weight_perm _ _ settled_clients) in H.
  rewrite total_weight_app in H. lia.
Qed.

Lemma run_batch_counters : counters_agree l -> counters_agree l'.
Proof.
  unfold counters_agree. intros (Ht & Hs & Hf & Hr).
  destruct (run_batch_fields l idx regular retry all' fq')
    as (_ & _ & Hres & _).
  destruct (run_batch_service l idx regular retry all' fq')
    as (Ht' & Hs' & Hf' & Hr' & _).
  fold l' in Hres, Ht', Hs', Hf', Hr'.
  rewrite Ht', Hs', Hf', Hr', Hres, Ht, Hs, Hf, Hr.
  rewrite !count_where_app, !length_app, length_map, slots_length.
  rewrite length_app. repeat split; lia.
Qed.

Lemma run_batch_retries : retries_covered l -> retries_covered l'.
Proof.
  unfold retries_covered. intros H.
  destruct (run_batch_service l idx regular retry all' fq')
    as (_ & _ & Hf' & Hr' & _ & Hperm).
  fold l' in Hf', Hr'. rewrite Hf', Hr', pending_after.
  rewrite (count_where_perm _ _ _ pending_before) in H.
  rewrite !count_where_app in *.
  rewrite requeued_are_retries.
  pose proof (requeued_retries upstream idx
                (settle idx (slots (regular ++ retry)))) as Hb.
  rewrite (count_where_perm _ _ _ settled_clients) in Hb.
  rewrite !(count_where_perm _ _ _ Hperm) in Hb.
  rewrite !count_where_map.
  rewrite (count_where_ext
             (fun x => negb (success (result_at idx x)))
             (fun ic => negb (fulfilled (attempt_at upstream idx ic)))).
  2:{ intros ic _. now rewrite outcome_success. }
  rewrite (count_where_ext
             (fun x => success (result_at idx x)
                       && isRetry (result_at idx x))
             (fun ic => fulfilled (attempt_at upstream idx ic)
                        && is_retry_of (snd ic))).
  2:{ intros ic _. now rewrite outcome_success, outcome_isRetry. }
  rewrite count_where_app in Hb. lia.
Qed.

Lemma attempts_after (m : string) :
  attempts m (results l')
  = (attempts m (results l)
     + count_where (about m) (regular ++ retry))%nat.
Proof.
  destruct (run_batch_fields l idx regular retry all' fq')
    as (_ & _ & Hres & _).
  fold l' in Hres. unfold attempts. rewrite Hres, count_where_app.
  f_equal. rewrite count_where_map.
  rewrite <- (slots_clients (regular ++ retry)) at 2.
  rewrite count_where_map. apply count_where_ext. intros ic _.
  unfold result_about, about. now rewrite outcome_msisdn.
Qed.

Lemma budget_before (m : string) :
  budget m l
  = (total_weight (filter (about m) (regular ++ retry))
     + total_weight (filter (about m) (all' ++ fq')))%nat.
Proof.
  unfold budget, pending. rewrite Hall, Hfq.
  rewrite !filter_app, !total_weight_app. lia.
Qed.

Lemma budget_after (m : string) :
  budget m l'
  = (total_weight (filter (about m) (all' ++ fq'))
     + total_weight
         (filter (about m)
            (requeued upstream idx
               (settle idx (slots (regular ++ retry))))))%nat.
Proof.
  unfold budget. rewrite pending_after.
  rewrite !filter_app, !total_weight_app. lia.
Qed.

Lemma settled_about (m : string) :
  count_where (fun ic => about m (snd ic))
    (settle idx (slots (regular ++ retry)))
  = count_where (about m) (regular ++ retry) /\
  total_weight
    (filter (about m)
       (map snd (settle idx (slots (regular ++ retry)))))
  = total_weight (filter (about m) (regular ++ retry)).
Proof.
  split.
  - rewrite <- (count_where_map snd (about m)).
    apply count_where_perm, settled_clients.
  - apply total_weight_perm.
    apply filter_perm, settled_clients.
Qed.

(** The attempts made for a client never exceed its budget... *)
Lemma run_batch_budget (m : string) :
  (attempts m (results l') + budget m l'
   <= attempts m (results l) + budget m l)%nat.
Proof.
  rewrite attempts_after, budget_before, budget_after.
  pose proof (requeued_weight_about upstream m idx
                (settle idx (slots (regular ++ retry)))) as H.
  destruct (settled_about m) as [Hc Hw]. rewrite Hc, Hw in H. lia.
Qed.


End Pass.

(** **** The two ways a pass can end *)

Lemma iteration_true (l l' : Loop) :
  iter l = (l', true) ->
  exists regular retry all' fq',
    build_batch batchSize (allClients l) (failedQueue (svc l))
    = ((regular, retry), (all', fq')) /\
    regular ++ retry <> [] /\
    l' = runb l (S (batchIndex l)) regular retry all' fq'.
Proof.
  unfold iteration.
  destruct (build_batch batchSize (allClients l) (failedQueue (svc l)))
    as [[regular retry] [all' fq']] eqn:Hb.
  destruct (allClients l) as [|c0 cs]; [destruct (failedQueue (svc l))|];
    try discriminate;
    (destruct (regular ++ retry) as [|x xs] eqn:Hbatch; [discriminate|]);
    intros [= <-]; exists regular, retry, all', fq';
    rewrite Hbatch; repeat split; auto; discriminate.
Qed.

Lemma iteration_false (l l' : Loop) :
  iter l = (l', false) ->
  svc l' = svc l /\ allClients l' = allClients l /\
  results l' = results l /\ emitted l' = emitted l /\
  (pending l = [] \/
   exists all' fq',
     build_batch batchSize (allClients l) (failedQueue (svc l))
     = (([], []), (all', fq'))).
Proof.
  unfold iteration.
  destruct (build_batch batchSize (allClients l) (failedQueue (svc l)))
    as [[regular retry] [all' fq']] eqn:Hb.
  pose proof (build_batch_app _ _ _ _ _ _ _ Hb) as [Ha Hq].
  assert (Heta : forall s : Service,
             {| stats := stats s; failedQueue := failedQueue s |} = s)
    by now intros [].
  destruct regular as [|r rs]; [destruct retry as [|t ts]|];
    cbn [app] in *.
  - subst all' fq'.
    destruct (allClients l) as [|c0 cs] eqn:Hall;
      [destruct (failedQueue (svc l)) as [|q0 qs] eqn:Hfq|];
      intros [= <-]; cbn [svc allClients results emitted].
    + repeat split; auto. left. unfold pending. now rewrite Hall, Hfq.
    + rewrite <- Hfq, Heta. repeat split; auto. right. eauto.
    + rewrite Heta. repeat split; auto. right. eauto.
  - rewrite Hq. destruct (allClients l); discriminate.
  - rewrite Ha. discriminate.
Qed.

(** With a batch size of at least one the loop is left only when both
    queues are empty. *)
Lemma iteration_false_int (b : Z) (l l' : Loop) :
  batchSize = JInt b -> 1 <= b ->
  iter l = (l', false) -> pending l' = [].
Proof.
  intros HB Hb H. apply iteration_false in H.
  destruct H as (Hs & Ha & _ & _ & [Hp | (all' & fq' & Hbb)]);
    unfold pending in *; rewrite Hs, Ha; [exact Hp|].
  rewrite HB in Hbb.
  destruct (build_batch_int _ _ _ _ _ _ _ Hb Hbb) as [_ Hnil].
  destruct (Hnil eq_refl) as [-> ->]. reflexivity.
Qed.

(** **** The loop *)

Local Abbreviation lp := (loop upstream settle batchSize jobId).

Lemma loop_invariant (P : Loop -> Prop) :
  (forall l l' c, P l -> iter l = (l', c) -> P l') ->
  forall fuel l l',
    P l -> lp fuel l = Some l' ->
    P l' /\ exists l0, P l0 /\ iter l0 = (l', false).
Proof.
  intros Hstep. induction fuel as [|fuel IH]; intros l l' HP; [discriminate|].
  cbn [loop]. destruct (iter l) as [l1 c] eqn:Hit.
  destruct c.
  - apply IH. eapply Hstep; eauto.
  - intros [= <-]. split; [eapply Hstep; eauto|]. exists l. auto.
Qed.

Lemma after_passes_invariant (P : Loop -> Prop) :
  (forall l l' c, P l -> iter l = (l', c) -> P l') ->
  forall n l, P l -> P (after_passes upstream settle batchSize jobId n l).
Proof.
  intros Hstep. induction n as [|n IH]; intros l HP; [exact HP|].
  cbn [after_passes]. apply IH.
  destruct (iter l) as [l1 c] eqn:Hit. eapply Hstep; eauto.
Qed.

(** Every pass that goes on dispatches at least one request, and every
    request uses up retry budget: the loop ends. *)
Lemma loop_terminates (fuel : nat) (l : Loop) :
  (total_weight (pending l) < fuel)%nat -> exists l', lp fuel l = Some l'.
Proof.
  revert l. induction fuel as [|fuel IH]; intros l Hlt; [lia|].
  cbn [loop]. destruct (iter l) as [l1 c] eqn:Hit.
  destruct c; [|eauto].
  apply IH.
  destruct (iteration_true _ _ Hit)
    as (regular & retry & all' & fq' & Hb & Hne & ->).
  pose proof (build_batch_app _ _ _ _ _ _ _ Hb) as [Ha Hq].
  pose proof (run_batch_weight l (S (batchIndex l)) _ _ _ _ Ha Hq) as Hw.
  assert (0 < length (regular ++ retry))%nat.
  { destruct (regular ++ retry); [congruence|cbn; lia]. }
  lia.
Qed.

Lemma loop_more_fuel (fuel fuel' : nat) (l l' : Loop) :
  lp fuel l = Some l' -> (fuel <= fuel')%nat -> lp fuel' l = Some l'.
Proof.
  revert fuel' l. induction fuel as [|fuel IH]; intros fuel' l; [discriminate|].
  destruct fuel' as [|fuel']; [lia|]. cbn [loop].
  destruct (iter l) as [l1 c]. destruct c; [|auto].
  intros H Hle. apply IH; [exact H|lia].
Qed.

(** **** Invariants of the loop *)

Lemma counters_agree_step (l l' : Loop) (c : bool) :
  counters_agree l -> iter l = (l', c) -> counters_agree l'.
Proof.
  intros H Hit. destruct c.
  - destruct (iteration_true _ _ Hit)
      as (regular & retry & all' & fq' & Hb & Hne & ->).
    pose proof (build_batch_app _ _ _ _ _ _ _ Hb) as [Ha Hq].
    now apply run_batch_counters.
  - destruct (iteration_false _ _ Hit) as (Hs & _ & Hr & _).
    unfold counters_agree in *. now rewrite Hs, Hr.
Qed.

Lemma retries_covered_step (l l' : Loop) (c : bool) :
  retries_covered l -> iter l = (l', c) -> retries_covered l'.
Proof.
  intros H Hit. destruct c.
  - destruct (iteration_true _ _ Hit)
      as (regular & retry & all' & fq' & Hb & Hne & ->).
    pose proof (build_batch_app _ _ _ _ _ _ _ Hb) as [Ha Hq].
    now apply run_batch_retries.
  - destruct (iteration_false _ _ Hit) as (Hs & Ha & _).
    unfold retries_covered, pending in *. now rewrite Hs, Ha.
Qed.

Lemma announced_step (l l' : Loop) (c : bool) :
  total_announced (emitted l) = length (results l) ->
  iter l = (l', c) ->
  total_announced (emitted l') = length (results l').
Proof.
  intros H Hit. destruct c.
  - destruct (iteration_true _ _ Hit)
      as (regular & retry & all' & fq' & Hb & Hne & ->).
    destruct (run_batch_fields l (S (batchIndex l)) regular retry all' fq')
      as (_ & _ & Hres & _ & Han & _).
    rewrite Han, Hres, (length_app (results l)), length_map, slots_length.
    lia.
  - destruct (iteration_false _ _ Hit) as (_ & _ & Hr & He & _).
    now rewrite Hr, He.
Qed.

Lemma started_completed_step (l l' : Loop) (c : bool) :
  batches_started (emitted l) = batches_completed (emitted l) ->
  iter l = (l', c) ->
  batches_started (emitted l') = batches_completed (emitted l').
Proof.
  intros H Hit. destruct c.
  - destruct (iteration_true _ _ Hit)
      as (regular & retry & all' & fq' & Hb & Hne & ->).
    destruct (run_batch_fields l (S (batchIndex l)) regular retry all' fq')
      as (_ & _ & _ & _ & _ & Hc & Hs).
    rewrite Hc, Hs. now f_equal.
  - destruct (iteration_false _ _ Hit) as (_ & _ & _ & He & _).
    now rewrite He.
Qed.

Lemma budget_step (m : string) (l l' : Loop) (c : bool) :
  iter l = (l', c) ->
  (attempts m (results l') + budget m l'
   <= attempts m (results l) + budget m l)%nat.
Proof.
  intros Hit. destruct c.
  - destruct (iteration_true _ _ Hit)
      as (regular & retry & all' & fq' & Hb & Hne & ->).
    pose proof (build_batch_app _ _ _ _ _ _ _ Hb) as [Ha Hq].
    now apply run_batch_budget.
  - destruct (iteration_false _ _ Hit) as (Hs & Ha & Hr & _).
    unfold budget, pending. rewrite Hs, Ha, Hr. lia.
Qed.



(** Each batch takes at most [b] clients from the primary queue. *)
Lemma batches_step (b : Z) (n : Z) (l l' : Loop) (c : bool) :
  batchSize = JInt b -> 1 <= b ->
  n <= Z.of_nat (length (allClients l))
       + b * Z.of_nat (batches_completed (emitted l)) ->
  iter l = (l', c) ->
  n <= Z.of_nat (length (allClients l'))
       + b * Z.of_nat (batches_completed (emitted l')).
Proof.
  intros HB Hb H Hit. destruct c.
  - destruct (iteration_true _ _ Hit)
      as (regular & retry & all' & fq' & Hbb & Hne & ->).
    pose proof (build_batch_app _ _ _ _ _ _ _ Hbb) as [Ha Hq].
    rewrite HB in Hbb.
    destruct (build_batch_int _ _ _ _ _ _ _ Hb Hbb) as [Hle _].
    destruct (run_batch_fields l (S (batchIndex l)) regular retry all' fq')
      as (Hall & _ & _ & _ & _ & Hc & _).
    rewrite Hall, Hc. rewrite Ha, length_app in H. lia.
  - destruct (iteration_false _ _ Hit) as (_ & Ha & _ & He & _).
    now rewrite Ha, He.
Qed.

End Run.

(** *** Whole runs *)

Lemma fresh_weight (p : Client -> bool) (clients : list Client) :
  Forall fresh clients ->
  total_weight (filter p clients)
  = ((maxRetries + 1) * count_where p clients)%nat.
Proof.
  unfold count_where. induction 1 as [|c l Hc _ IH]; [reflexivity|].
  cbn [filter]. destruct (p c); [|exact IH].
  rewrite total_weight_cons, IH. cbn [length].
  unfold weight. rewrite Hc. unfold maxRetries. lia.
Qed.

Lemma fresh_no_retries (clients : list Client) :
  Forall fresh clients -> count_where is_retry_of clients = 0%nat.
Proof.
  intros H. apply count_where_none. intros c Hin.
  rewrite Forall_forall in H. unfold is_retry_of. now rewrite (H c Hin).
Qed.

Section Runs.

Variable upstream : nat -> nat -> Client -> Attempt.
Variable settle : nat -> list (nat * Client) -> list (nat * Client).
Variables t_start t_end : Z.
Variable per_second : Z -> Z -> Z.
Variable percent : Z -> Z -> Z.
Variable batchSize : jsnum.
Variable jobId : string.

Hypothesis settle_perm : forall b l, Permutation (settle b l) l.

Local Abbreviation start := (entry t_start batchSize jobId).
Local Abbreviation lp := (loop upstream settle batchSize jobId).
Local Abbreviation iter := (iteration upstream settle batchSize jobId).
Local Abbreviation fin := (finish t_end per_second percent jobId).
Local Abbreviation go :=
  (processClients upstream settle t_start t_end per_second percent
     batchSize jobId).

Lemma pending_entry (clients : list Client) : pending (start clients) = clients.
Proof. unfold pending, entry. cbn. apply app_nil_r. Qed.

(** Every run ends, and fuel beyond the retry budget of the input is not
    needed. *)
Lemma run_ends (fuel : nat) (clients : list Client) :
  (total_weight clients < fuel)%nat ->
  exists l, lp fuel (start clients) = Some l /\
            go fuel clients = Some (fin clients l).
Proof.
  intros Hf.
  destruct (loop_terminates upstream settle batchSize jobId settle_perm
              fuel (start clients)) as [l Hl].
  { now rewrite pending_entry. }
  exists l. split; [exact Hl|]. unfold processClients. now rewrite Hl.
Qed.

Lemma counters_agree_entry (clients : list Client) :
  counters_agree (start clients).
Proof. unfold counters_agree, entry. cbn. auto. Qed.


Lemma budget_entry (m : string) (clients : list Client) :
  budget m (start clients) = total_weight (filter (about m) clients).
Proof. unfold budget. now rewrite pending_entry. Qed.

(** At the end of a run with a batch size of at least one nothing is
    left in the queues. *)
Lemma queues_drained (b : Z) (fuel : nat) (clients : list Client) (l : Loop) :
  batchSize = JInt b -> 1 <= b ->
  lp fuel (start clients) = Some l -> pending l = [].
Proof.
  intros HB Hb Hl.
  destruct (loop_invariant upstream settle batchSize jobId (fun _ => True)
              (fun _ _ _ _ _ => I) fuel _ _ I Hl) as (_ & l0 & _ & Hit).
  exact (iteration_false_int upstream settle batchSize jobId b l0 l HB Hb Hit).
Qed.

End Runs.


(** *** Two scenarios of the specification *)

(** Ten clients, batch size 4, every request accepted: three batches, of
    4, 4 and 2 clients. *)
Example ten_clients_three_batches :
  let clients := Samples.six_subscribers
                 ++ map Samples.subscriber
                      ["254700000007"; "254700000008"; "254700000009";
                       "254700000010"] in
  exists out snap,
    Samples.run Samples.upstream_up Samples.in_order (JInt 4) 41 clients
    = Some out /\
    map (fun e => match e with
                  | batchCompleted _ _ _ _ size _ _ _ _ => size
                  | _ => 0%nat
                  end) (filter is_batchCompleted (events out))
    = [4; 4; 2]%nat /\
    final_stats (events out) = Some snap /\
    snap_successful snap = 10 /\ snap_failed snap = 0 /\
    snap_retried snap = 0.
Proof.
  eexists. eexists. split; [vm_compute; reflexivity|].
  split; [vm_compute; reflexivity|].
  split; [vm_compute; reflexivity|]. repeat split.
Qed.

(** Five clients, batch size 5, every first request refused and every
    retry accepted: two batches, five successes, all of them retries. *)
Example five_clients_succeed_on_retry :
  exists out snap,
    Samples.run Samples.upstream_flaky Samples.last_first (JInt 5) 21
      (firstn 5 Samples.six_subscribers) = Some out /\
    batches_completed (events out) = 2%nat /\
    final_stats (events out) = Some snap /\
    snap_successful snap = 5 /\ snap_retried snap = 5 /\
    snap_failed snap = 5 /\ permanentFailures snap = 0.
Proof.
  eexists. eexists. split; [vm_compute; reflexivity|].
  split; [vm_compute; reflexivity|].
  split; [vm_compute; reflexivity|]. repeat split.
Qed.

(** *** The retry cap *)



(** *** The statistics of a run *)

(** C5.  Every run over clients fresh from the client source ends, and in
    the statistics snapshot of its [processingCompleted] event
    [permanentFailures] is [failed - retried], which is not negative. *)
Theorem permanent_failures_nonnegative
    (upstream : nat -> nat -> Client -> Attempt)
    (settle : nat -> list (nat * Client) -> list (nat * Client))
    (t_start t_end : Z) (per_second percent : Z -> Z -> Z)
    (batchSize : jsnum) (jobId : string) (fuel : nat)
    (clients : list Client) :
  (forall k l, Permutation (settle k l) l) ->
  Forall fresh clients ->
  (total_weight clients < fuel)%nat ->
  exists out before snap,
    processClients upstream settle t_start t_end per_second percent
      batchSize jobId fuel clients = Some out /\
    events out
    = before ++ [processingCompleted jobId (length clients) (returned out)
                   snap] /\
    snap = getStats per_second percent t_end (stats (service out)) /\
    permanentFailures snap = snap_failed snap - snap_retried snap /\
    0 <= permanentFailures snap.
Proof.
  intros Hperm Hfresh Hfuel.
  destruct (run_ends upstream settle t_start t_end per_second percent
              batchSize jobId Hperm fuel clients Hfuel) as (l & Hl & Hgo).
  exists (finish t_end per_second percent jobId clients l), (emitted l),
    (getStats per_second percent t_end (stats (svc l))).
  split; [exact Hgo|]. split; [reflexivity|]. split; [reflexivity|].
  assert (Hcov : retries_covered l).
  { apply (loop_invariant upstream settle batchSize jobId retries_covered
             (retries_covered_step upstream settle batchSize jobId Hperm)
             fuel _ _) with (2 := Hl).
    unfold retries_covered. rewrite pending_entry, (fresh_no_retries _ Hfresh).
    cbn. lia. }
  unfold retries_covered in Hcov.
  cbn [getStats permanentFailures snap_failed snap_retried].
  destruct (Z.leb_spec 0 (failed (stats (svc l)) - retried (stats (svc l))));
    lia.
Qed.

Lemma permanent_failures_nonnegative_witness :
  exists out before snap,
    Samples.run (Samples.upstream_refusing "254700000002") Samples.in_order
      (JInt 5) 25 Samples.six_subscribers = Some out /\
    events out
    = before ++ [processingCompleted "job-1" 6 (returned out) snap] /\
    snap = getStats Samples.per_second Samples.percent 1750
             (stats (service out)) /\
    permanentFailures snap = snap_failed snap - snap_retried snap /\
    0 <= permanentFailures snap.
Proof.
  apply (permanent_failures_nonnegative
           (Samples.upstream_refusing "254700000002") Samples.in_order
           1000 1750 Samples.per_second Samples.percent (JInt 5) "job-1" 25
           Samples.six_subscribers).
  - intros k l. apply Permutation_refl.
  - repeat constructor.
  - vm_compute. lia.
Defined.

Lemma ceil_div_int (n b : Z) :
  1 <= b ->
  exists k, ceil_div n (JInt b) = JInt k /\ (k - 1) * b < n <= k * b.
Proof.
  intros Hb. exists (- ((- n) / b)). split.
  - destruct b; try lia. reflexivity.
  - pose proof (Z.div_mod (- n) b ltac:(lia)) as Hdm.
    pose proof (Z.mod_pos_bound (- n) b ltac:(lia)) as Hmod. nia.
Qed.

(** C6.  Every run ends, whatever the batch size.  The successes and
    failures announced by its [batchCompleted] events add up to the
    [totalRequests] counter, and after any number of passes through the
    loop [successful + failed = totalRequests], the announced outcomes
    adding up to the same number.  With a batch size [b >= 1] the run
    completes at least [ceil(L / b)] batches for an input of length [L]. *)
Theorem batches_and_attempts_accounted
    (upstream : nat -> nat -> Client -> Attempt)
    (settle : nat -> list (nat * Client) -> list (nat * Client))
    (t_start t_end : Z) (per_second percent : Z -> Z -> Z)
    (batchSize : jsnum) (jobId : string) (fuel : nat)
    (clients : list Client) :
  (forall k l, Permutation (settle k l) l) ->
  (total_weight clients < fuel)%nat ->
  (exists out,
     processClients upstream settle t_start t_end per_second percent
       batchSize jobId fuel clients = Some out /\
     Z.of_nat (total_announced (events out))
     = totalRequests (stats (service out)) /\
     successful (stats (service out)) + failed (stats (service out))
     = totalRequests (stats (service out)) /\
     (forall b, batchSize = JInt b -> 1 <= b ->
        exists k,
          ceil_div (Z.of_nat (length clients)) batchSize = JInt k /\
          (k - 1) * b < Z.of_nat (length clients) <= k * b /\
          k <= Z.of_nat (batches_completed (events out)))) /\
  (forall n,
     let l := after_passes upstream settle batchSize jobId n
                (entry t_start batchSize jobId clients) in
     successful (stats (svc l)) + failed (stats (svc l))
     = totalRequests (stats (svc l)) /\
     Z.of_nat (total_announced (emitted l)) = totalRequests (stats (svc l))).
Proof.
  intros Hperm Hfuel.
  pose (P := fun l : Loop =>
               counters_agree l /\
               total_announced (emitted l) = length (results l)).
  assert (Hstep : forall l l' c,
             P l -> iteration upstream settle batchSize jobId l = (l', c) ->
             P l').
  { intros l l' c [H1 H2] Hit. split.
    - exact (counters_agree_step upstream settle batchSize jobId Hperm
               l l' c H1 Hit).
    - exact (announced_step upstream settle batchSize jobId l l' c H2 Hit). }
  assert (Hentry : P (entry t_start batchSize jobId clients)).
  { split; [apply counters_agree_entry|reflexivity]. }
  assert (Hsum : forall l, P l ->
             successful (stats (svc l)) + failed (stats (svc l))
             = totalRequests (stats (svc l)) /\
             Z.of_nat (total_announced (emitted l))
             = totalRequests (stats (svc l))).
  { intros l [(Ht & Hs & Hf & _) Han]. rewrite Ht, Hs, Hf, Han.
    pose proof (count_where_split success (results l)). lia. }
  split.
  - destruct (run_ends upstream settle t_start t_end per_second percent
                batchSize jobId Hperm fuel clients Hfuel) as (l & Hl & Hgo).
    exists (finish t_end per_second percent jobId clients l).
    split; [exact Hgo|].
    destruct (loop_invariant upstream settle batchSize jobId P Hstep
                fuel _ _ Hentry Hl) as (HP & _).
    destruct (Hsum l HP) as [Hsf Han].
    cbn [finish events service].
    unfold batches_completed, total_announced.
    rewrite count_where_app, map_app, list_sum_app.
    cbn [count_where filter is_batchCompleted length map announced list_sum
         fold_right].
    rewrite !Nat.add_0_r. fold (total_announced (emitted l)).
    fold (batches_completed (emitted l)).
    split; [exact Han|]. split; [exact Hsf|].
    intros b HB Hb. subst batchSize.
    destruct (ceil_div_int (Z.of_nat (length clients)) b Hb) as (k & Hk & Hkb).
    exists k. split; [exact Hk|]. split; [exact Hkb|].
    assert (Hbat : Z.of_nat (length clients)
                   <= Z.of_nat (length (allClients l))
                      + b * Z.of_nat (batches_completed (emitted l))).
    { apply (loop_invariant upstream settle (JInt b) jobId
               (fun x => Z.of_nat (length clients)
                         <= Z.of_nat (length (allClients x))
                            + b * Z.of_nat (batches_completed (emitted x))))
        with (3 := Hl).
      - intros x x' c Hx Hit.
        exact (batches_step upstream settle (JInt b) jobId b _ x x' c
                 eq_refl Hb Hx Hit).
      - cbn. lia. }
    pose proof (queues_drained upstream settle t_start (JInt b) jobId b fuel
                  clients l eq_refl Hb Hl) as Hend.
    unfold pending in Hend. apply app_eq_nil in Hend.
    destruct Hend as [Hall _]. rewrite Hall in Hbat. cbn [length] in Hbat.
    nia.
  - intros n. apply Hsum.
    apply (after_passes_invariant upstream settle batchSize jobId P Hstep).
    exact Hentry.
Qed.

Lemma batches_and_attempts_accounted_witness :
  exists out k,
    Samples.run Samples.upstream_down Samples.last_first (JInt 5) 25
      Samples.six_subscribers = Some out /\
    Z.of_nat (total_announced (events out))
    = totalRequests (stats (service out)) /\
    successful (stats (service out)) + failed (stats (service out))
    = totalRequests (stats (service out)) /\
    ceil_div 6 (JInt 5) = JInt k /\
    k <= Z.of_nat (batches_completed (events out)).
Proof.
  destruct (batches_and_attempts_accounted Samples.upstream_down
              Samples.last_first 1000 1750 Samples.per_second Samples.percent
              (JInt 5) "job-1" 25 Samples.six_subscribers)
    as [(out & Hrun & Han & Hsf & Hceil) _].
  - intros k l. apply Permutation_sym, Permutation_rev.
  - vm_compute. lia.
  - destruct (Hceil 5 eq_refl ltac:(lia)) as (k & Hk & _ & Hle).
    exists out, k. repeat split; assumption.
Defined.




(** *** A run without clients *)

(** C7 (as the code has it).  A run over an empty list ends at once: it
    emits [processingStarted] and [processingCompleted] and nothing else,
    and every counter, rate and histogram entry of the statistics is
    zero.  The snapshot also carries the elapsed time, which [getStats]
    never lets fall below one millisecond. *)
Theorem empty_run
    (upstream : nat -> nat -> Client -> Attempt)
    (settle : nat -> list (nat * Client) -> list (nat * Client))
    (t_start t_end : Z) (per_second percent : Z -> Z -> Z)
    (batchSize : jsnum) (jobId : string) (fuel : nat) :
  exists out snap,
    processClients upstream settle t_start t_end per_second percent
      batchSize jobId (S fuel) [] = Some out /\
    returned out = [] /\
    events out
    = [processingStarted jobId 0 (ceil_div 0 batchSize) batchSize;
       processingCompleted jobId 0 [] snap] /\
    batches_started (events out) = 0%nat /\
    batches_completed (events out) = 0%nat /\
    zero_counts snap /\
    snap_duration snap = Z.max (t_end - t_start) 1 /\
    1 <= snap_duration snap.
Proof.
  eexists. eexists. split; [reflexivity|].
  cbn -[Z.max Z.sub]. repeat split; try reflexivity.
  unfold getStats. cbn [snap_duration]. lia.
Qed.

(** C7 as stated fails on the elapsed time: even when the clock does not
    move during the run, the statistics of [processingCompleted] are not
    all zero. *)
Lemma empty_run_duration_not_zero :
  exists out snap,
    processClients Samples.upstream_up Samples.in_order 1000 1000
      Samples.per_second Samples.percent (JInt 5) "job-1" 1 [] = Some out /\
    final_stats (events out) = Some snap /\
    snap_duration snap = 1 /\ snap_duration snap <> 0.
Proof.
  eexists. eexists. split; [reflexivity|]. split; [reflexivity|].
  split; [reflexivity|discriminate].
Qed.

(** *** The composition of a batch *)

Lemma firstn_min {A : Type} (k : nat) (l : list A) :
  firstn (Nat.min k (length l)) l = firstn k l.
Proof.
  destruct (Nat.le_ge_cases k (length l)) as [H|H].
  - now rewrite Nat.min_l.
  - rewrite Nat.min_r by exact H. now rewrite !firstn_all2.
Qed.

Lemma skipn_min {A : Type} (k : nat) (l : list A) :
  skipn (Nat.min k (length l)) l = skipn k l.
Proof.
  destruct (Nat.le_ge_cases k (length l)) as [H|H].
  - now rewrite Nat.min_l.
  - rewrite Nat.min_r by exact H. now rewrite !skipn_all2.
Qed.

(** C2 (as the code has it).  In every pass through the loop that
    dispatches a batch, with a batch size [b >= 1], the batch holds at most
    [b] clients; it is filled first from the primary queue, from which it
    takes up to [max(1, b - length of the retry queue)] clients, and then
    from the retry queue, from which it takes up to [b] minus the number
    of primary clients taken. *)
Theorem batch_is_primary_first
    (upstream : nat -> nat -> Client -> Attempt)
    (settle : nat -> list (nat * Client) -> list (nat * Client))
    (b : Z) (jobId : string) (l l' : Loop) :
  1 <= b ->
  iteration upstream settle (JInt b) jobId l = (l', true) ->
  exists regular retry,
    regular
    = firstn (Z.to_nat (Z.max 1 (b - Z.of_nat (length (failedQueue (svc l))))))
        (allClients l) /\
    retry
    = firstn (Z.to_nat (b - Z.of_nat (length regular)))
        (failedQueue (svc l)) /\
    Z.of_nat (length (regular ++ retry)) <= b /\
    allClients l' = skipn (length regular) (allClients l) /\
    results l'
    = results l
      ++ map (fun ic => outcome (upstream (S (batchIndex l)) (fst ic) (snd ic))
                          (snd ic) (is_retry_of (snd ic)))
           (slots (regular ++ retry)).
Proof.
  intros Hb Hit.
  destruct (iteration_true upstream settle (JInt b) jobId l l' Hit)
    as (regular & retry & all' & fq' & Hbb & _ & ->).
  exists regular, retry.
  destruct (build_batch_int b _ _ _ _ _ _ Hb Hbb) as [Hle _].
  destruct (run_batch_fields upstream settle (JInt b) jobId l
              (S (batchIndex l)) regular retry all' fq')
    as (Hall & _ & Hres & _).
  rewrite Hall, Hres, length_app. clear Hall Hres Hit.
  unfold build_batch, splice in Hbb.
  cbn [Js.sub Js.max delete_count] in Hbb.
  rewrite !firstn_min, !skipn_min in Hbb.
  injection Hbb as Hr Ht Ha Hq.
  rewrite Hr in Ht.
  repeat split; auto.
  rewrite <- Ha, <- Hr. rewrite length_firstn, skipn_min. reflexivity.
Qed.

Lemma batch_is_primary_first_witness :
  let l := {| svc := {| stats := resetStats 1000;
                        failedQueue := Samples.five_waiting |};
              allClients := [Samples.subscriber "254700000006";
                             Samples.subscriber "254700000007"];
              results := []; batchIndex := 1; emitted := [] |} in
  let l' := fst (iteration Samples.upstream_down Samples.in_order (JInt 5)
                   "job-1" l) in
  exists regular retry,
    regular
    = firstn (Z.to_nat (Z.max 1 (5 - Z.of_nat (length (failedQueue (svc l))))))
        (allClients l) /\
    retry
    = firstn (Z.to_nat (5 - Z.of_nat (length regular)))
        (failedQueue (svc l)) /\
    Z.of_nat (length (regular ++ retry)) <= 5 /\
    allClients l' = skipn (length regular) (allClients l) /\
    results l'
    = results l
      ++ map (fun ic => outcome (Samples.upstream_down (S (batchIndex l))
                                   (fst ic) (snd ic))
                          (snd ic) (is_retry_of (snd ic)))
           (slots (regular ++ retry)).
Proof.
  intros l l'.
  apply (batch_is_primary_first Samples.upstream_down Samples.in_order 5
           "job-1" l l').
  - lia.
  - reflexivity.
Defined.

(** C2 as stated fails.  With two clients in the primary queue, five in
    the retry queue and a batch size of five, a batch of retries first
    would be the five retries; the batch built is one primary client
    followed by four retries.  The second batch of a run over six clients
    whose requests all fail is such a batch. *)
Lemma batch_not_retry_first :
  let all := [Samples.subscriber "254700000006";
              Samples.subscriber "254700000007"] in
  let fq := Samples.five_waiting in
  (exists regular retry rest,
     build_batch (JInt 5) all fq = ((regular, retry), rest) /\
     regular = [Samples.subscriber "254700000006"] /\
     retry = firstn 4 fq /\
     retry_first_batch 5 all fq = fq /\
     regular ++ retry <> retry_first_batch 5 all fq) /\
  (exists out totalBatches,
     Samples.run Samples.upstream_down Samples.in_order (JInt 5) 25
       Samples.six_subscribers = Some out /\
     nth_error (events out) 3
     = Some (batchStarted "job-1" 2 totalBatches 5 4)).
Proof.
  split.
  - eexists. eexists. eexists. split; [reflexivity|].
    repeat split; try reflexivity. discriminate.
  - eexists. eexists. split; [vm_compute; reflexivity|]. reflexivity.
Qed.

End PaymentFacts.

(* ================================================================== *)
(** ** Properties of the scheduler *)
(* ================================================================== *)

Module SchedulerFacts.
Import PaymentService SchedulerService.

(** *** Single flight *)

(** A fire of the timer while a job is running is skipped: the event is
    emitted, nothing else happens, and the dispatch engine is not
    called. *)
Lemma timer_fire_skips (w : World) (jobId : string)
    (fetched : string + list Client) :
  job_is_running w = true ->
  timer_fire w jobId fetched
  = emit w (jobSkipped "Previous job still running") /\
  dispatches (effects (timer_fire w jobId fetched)) = dispatches (effects w).
Proof.
  intros Hrun. unfold timer_fire. rewrite Hrun. split; [reflexivity|].
  unfold emit, note, dispatches. cbn [effects].
  rewrite flat_map_app. cbn. apply app_nil_r.
Qed.

(** [executeManualJob] has no such test: with clients to process it calls
    the dispatch engine whatever the state of [currentJob], and makes its
    own job the current one. *)
Lemma manual_job_always_dispatches (w : World) (p : Partial) (jobId : string)
    (c : Client) (clients : list Client) :
  let w' := executeManualJob w p jobId (inr (c :: clients)) in
  dispatches (effects w') = dispatches (effects w) ++ [jobId] /\
  currentJob w'
  = Some {| job_id := jobId; status := running;
            totalClients := length (c :: clients); isScheduled := false |}.
Proof.
  cbn zeta. unfold executeManualJob, launch, emit, note, dispatches.
  cbn [effects currentJob with_jobs]. split; [|reflexivity].
  rewrite !flat_map_app. cbn. now rewrite !app_nil_r.
Qed.

(** C1.  With a scheduled job in flight, a fire of the timer emits
    [jobSkipped] and does not call the dispatch engine; a manual run
    requested in the same state (through the scheduler or through the
    controller) is neither rejected nor skipped: the dispatch engine is
    called for a second job, which replaces the running one as the
    current job. *)
Theorem manual_job_starts_while_job_running :
  job_is_running Samples.busy = true /\
  effects (timer_fire Samples.busy "job-2" (inr Samples.six_subscribers))
  = [Emit (jobSkipped "Previous job still running")] /\
  (let w' := executeManualJob Samples.busy Samples.no_settings "job-2"
               (inr Samples.six_subscribers) in
   dispatches (effects w') = ["job-2"] /\
   currentJob w'
   = Some {| job_id := "job-2"; status := running; totalClients := 6;
             isScheduled := false |} /\
   map fst (runningJobs w') = ["job-1"; "job-2"]) /\
  (let '(w', response) :=
     PaymentController.runManualJob Samples.busy
       (Samples.request VUndefined (VNum 75)) "job-2"
       (inr Samples.six_subscribers) in
   PaymentController.http_status response = 200 /\
   PaymentController.success response = true /\
   dispatches (effects w') = ["job-2"]).
Proof.
  repeat split; reflexivity.
Qed.

(** *** The hour slots *)

Lemma first_slot_after_in (times : list Z) (h mi x : Z) :
  first_slot_after times h mi = Some x -> In x times.
Proof.
  induction times as [|t times IH]; [discriminate|].
  cbn [first_slot_after].
  destruct ((h <? t) || ((t =? h) && (mi =? 0))).
  - intros [= <-]. now left.
  - intros H. right. auto.
Qed.

(** For the intervals the control plane lets through, the loop that
    lists the slots ends, the first slot is hour 0 and all slots are
    hours of the day and multiples of the interval. *)
Lemma schedule_times_defined (i : Z) :
  1 <= i <= 12 ->
  exists rest,
    getScheduleTimes (JInt i) = Some (0 :: rest) /\
    generateCronExpression (JInt i) = Some (0 :: rest) /\
    Forall (fun h => 0 <= h < 24 /\ h mod i = 0) (0 :: rest).
Proof.
  intros Hi.
  assert (Hcases : i = 1 \/ i = 2 \/ i = 3 \/ i = 4 \/ i = 5 \/ i = 6 \/
                   i = 7 \/ i = 8 \/ i = 9 \/ i = 10 \/ i = 11 \/ i = 12)
    by lia.
  repeat (destruct Hcases as [-> | Hcases]); try subst i;
    (eexists; split; [reflexivity|]; split; [reflexivity|];
     repeat constructor; try lia; reflexivity).
Qed.

(** With an interval of zero or less the loop does not end. *)
Lemma schedule_times_diverge (i : Z) (fuel : nat) :
  i <= 0 -> slots_from fuel (JInt 0) (JInt i) = None.
Proof.
  intros Hi.
  assert (H : forall h, h <= 0 -> slots_from fuel (JInt h) (JInt i) = None).
  { induction fuel as [|fuel IH]; intros h Hh; [reflexivity|].
    cbn [slots_from]. destruct (Z.ltb_spec h 24); [|lia].
    cbn [Js.plus]. rewrite IH by lia. reflexivity. }
  apply H. lia.
Qed.

(** *** The upcoming times *)

(** C9.  The times listed as upcoming are not all times at which the
    timer fires.  A scheduler started through the control plane with an
    interval of five hours is armed for 00:00, 05:00, 10:00, 15:00 and
    20:00, the hours that [generateCronExpression] and
    [getScheduleTimes] list.  Asked at 16:30, [getNextRunTime], which
    walks that list, answers 20:00, an armed hour; [getNextRunTimes],
    which adds the interval to the time before, lists 20:00 and then
    01:00, 06:00, 11:00 and 16:00 of the next day, none of which is an
    armed hour. *)
Theorem upcoming_times_miss_timer_hours :
  let started :=
    PaymentController.startScheduler Samples.idle
      (Samples.request (VNum 5) (VNum 50)) Samples.half_past_four in
  let w := fst (getStatus (fst started) Samples.half_past_four) in
  let status := snd (getStatus (fst started) Samples.half_past_four) in
  generateCronExpression (JInt 5) = Some [0; 5; 10; 15; 20] /\
  getScheduleTimes (JInt 5) = Some [0; 5; 10; 15; 20] /\
  scheduledTask w = Some {| cronHours := [0; 5; 10; 15; 20] |} /\
  enabled (settings w) = true /\
  intervalHours (settings w) = JInt 5 /\
  getNextRunTime w Samples.half_past_four
  = Returns (Some (Local 0 20 0 0 0)) /\
  st_nextRun status = Returns (Some (Local 0 20 0 0 0)) /\
  fires_at [0; 5; 10; 15; 20] (Local 0 20 0 0 0) /\
  getNextRunTimes w Samples.half_past_four 5
  = Returns [Local 0 20 0 0 0; Local 1 1 0 0 0; Local 1 6 0 0 0;
             Local 1 11 0 0 0; Local 1 16 0 0 0] /\
  st_upcomingSchedules status
  = Returns [Local 0 20 0 0 0; Local 1 1 0 0 0; Local 1 6 0 0 0;
             Local 1 11 0 0 0; Local 1 16 0 0 0] /\
  ~ fires_at [0; 5; 10; 15; 20] (Local 1 1 0 0 0) /\
  ~ fires_at [0; 5; 10; 15; 20] (Local 1 6 0 0 0) /\
  ~ fires_at [0; 5; 10; 15; 20] (Local 1 11 0 0 0) /\
  ~ fires_at [0; 5; 10; 15; 20] (Local 1 16 0 0 0).
Proof.
  cbn zeta.
  assert (Hoff : forall day h,
             ~ In h [0; 5; 10; 15; 20] ->
             ~ fires_at [0; 5; 10; 15; 20] (Local day h 0 0 0)).
  { intros day h Hh (day' & h' & Heq & Hin). injection Heq as _ <-.
    exact (Hh Hin). }
  repeat split; try reflexivity.
  - exists 0, 20. split; [reflexivity|]. do 4 right. now left.
  - apply Hoff. cbn. intuition lia.
  - apply Hoff. cbn. intuition lia.
  - apply Hoff. cbn. intuition lia.
  - apply Hoff. cbn. intuition lia.
Qed.

End SchedulerFacts.

(* ================================================================== *)
(** ** Properties of the control plane *)
(* ================================================================== *)

Module ControllerFacts.
Import PaymentService SchedulerService PaymentController.

(** *** The scheduler's [startScheduler] and [updateSettings] *)

(** Once the settings are saved, whatever happens next leaves the stored
    row alone. *)
Lemma start_stored (w : World) (p : Partial) (now : Date) :
  db_connected w = true ->
  stored (fst (SchedulerService.startScheduler w p now))
  = Some (set_enabled (merge (settings w) p) true) /\
  db_connected (fst (SchedulerService.startScheduler w p now)) = true.
Proof.
  intros Hdb. unfold SchedulerService.startScheduler, saveSchedulerState.
  cbn [with_settings db_connected settings]. rewrite Hdb.
  destruct (generateCronExpression _) as [hours|]; [|now split].
  repeat match goal with
         | |- context [match getNextRunTime ?a now with _ => _ end] =>
             destruct (getNextRunTime a now)
         | |- context [match getNextRunTimes ?a now 5 with _ => _ end] =>
             destruct (getNextRunTimes a now 5)
         end; now split.
Qed.

(** When the list of slots can be made, [startScheduler] returns; what it
    returns is [null] and an empty list, since [stopScheduler(false)] has
    just cleared [enabled] in memory. *)
Lemma start_returns (w : World) (p : Partial) (now : Date) (hours : list Z) :
  db_connected w = true ->
  generateCronExpression (intervalHours (merge (settings w) p)) = Some hours ->
  let s := set_enabled (merge (settings w) p) true in
  exists w',
    SchedulerService.startScheduler w p now
    = (w', Returns {| nextRun := None; upcomingSchedules := [] |}) /\
    stored w' = Some s /\
    scheduledTask w' = Some {| cronHours := hours |} /\
    settings w' = set_enabled s false /\
    effects w'
    = effects w
      ++ [SaveState s; Emit schedulerStopped;
          Emit (schedulerStarted hours (intervalHours s) (batchSize s)
                  (includeInactive s) None [])].
Proof.
  intros Hdb Hgen. cbn zeta.
  destruct w as [task job jobs sett sto dbc eff]. cbn in Hdb. subst dbc.
  unfold SchedulerService.startScheduler, saveSchedulerState.
  cbn -[generateCronExpression getNextRunTime getNextRunTimes].
  cbn -[generateCronExpression] in Hgen. rewrite Hgen.
  unfold getNextRunTimes, getNextRunTime.
  cbn -[generateCronExpression].
  eexists. split; [reflexivity|].
  cbn. rewrite <- !app_assoc. repeat split; reflexivity.
Qed.

Lemma update_stored (w : World) (p : Partial) (now : Date) :
  db_connected w = true ->
  p_enabled p = None ->
  stored (SchedulerService.updateSettings w p now)
  = Some (merge (settings w) p).
Proof.
  intros Hdb Hen.
  assert (Hm : enabled (merge (settings w) p) = enabled (settings w)).
  { unfold merge. cbn [enabled]. now rewrite Hen. }
  unfold SchedulerService.updateSettings, saveSchedulerState.
  cbn [with_settings db_connected settings]. rewrite Hdb.
  cbn [fst note with_stored settings].
  change (settings (with_settings w (merge (settings w) p)))
    with (merge (settings w) p).
  rewrite Hm.
  destruct (enabled (settings w)) eqn:Hwas; cbn [andb emit note stored];
    [|reflexivity].
  match goal with
  | |- stored (fst (SchedulerService.startScheduler ?w0 ?p0 now)) = _ =>
      destruct (start_stored w0 p0 now Hdb) as [Hst _]; rewrite Hst
  end.
  cbn. f_equal.
  destruct (merge (settings w) p) as [a b c d]. cbn in Hm. subst d.
  reflexivity.
Qed.

(** [getStatus] brings [enabled] in line with the store and changes
    nothing else. *)
Lemma getStatus_world (w : World) (now : Date) :
  let w1 := fst (getStatus w now) in
  st_enabled (snd (getStatus w now)) = reported_enabled w /\
  settings w1 = set_enabled (settings w) (reported_enabled w) /\
  stored w1 = stored w /\ db_connected w1 = db_connected w /\
  effects w1 = effects w /\ scheduledTask w1 = scheduledTask w /\
  currentJob w1 = currentJob w.
Proof.
  unfold getStatus, reported_enabled. cbn [fst snd st_enabled].
  destruct (getSchedulerState w) as [dbState|]; cbn; repeat split.
  now destruct (settings w).
Qed.

(** *** Validation by the controller *)

Lemma in_range_passes (h s : Z) :
  1 <= h <= 12 -> 5 <= s <= 100 ->
  bad_interval (JInt h) = false /\ bad_batch (JInt s) = false.
Proof.
  intros Hh Hs. unfold bad_interval, bad_batch, Js.gt, Js.lt.
  destruct (Z.ltb_spec h 1), (Z.ltb_spec 12 h), (Z.ltb_spec s 5),
    (Z.ltb_spec 100 s); try lia; auto.
Qed.

Lemma out_of_range_fails (h s : Z) :
  h < 1 \/ 12 < h \/ s < 5 \/ 100 < s ->
  bad_interval (JInt h) = true \/
  (bad_interval (JInt h) = false /\ bad_batch (JInt s) = true).
Proof.
  intros H. unfold bad_interval, bad_batch, Js.gt, Js.lt.
  destruct (Z.ltb_spec h 1), (Z.ltb_spec 12 h), (Z.ltb_spec s 5),
    (Z.ltb_spec 100 s); cbn; auto; lia.
Qed.

(** A start request that passes the checks while the scheduler is not
    reported as enabled is carried out. *)
Lemma start_accepted (w : World) (body : Body) (now : Date)
    (hours : list Z) :
  db_connected w = true ->
  bad_interval (requested_hours body) = false ->
  bad_batch (requested_size body) = false ->
  reported_enabled w = false ->
  generateCronExpression (requested_hours body) = Some hours ->
  let asked := {| intervalHours := requested_hours body;
                  batchSize := requested_size body;
                  includeInactive := requested_inactive body;
                  enabled := true |} in
  exists w' r,
    PaymentController.startScheduler w body now = (w', Some r) /\
    http_status r = 200 /\ success r = true /\
    stored w' = Some asked /\
    scheduledTask w' = Some {| cronHours := hours |} /\
    effects w'
    = effects w
      ++ [SaveState asked; Emit schedulerStopped;
          Emit (schedulerStarted hours (requested_hours body)
                  (requested_size body) (requested_inactive body) None [])].
Proof.
  intros Hdb Hbi Hbb Hen Hgen. cbn zeta.
  unfold PaymentController.startScheduler.
  rewrite Hdb. cbn [negb].
  fold (requested_hours body) (requested_size body).
  rewrite Hbi, Hbb.
  destruct (getStatus_world w now)
    as (Hst & Hset & Hsto & Hdb1 & Heff & _).
  cbn zeta in Hset, Hsto, Hdb1, Heff.
  destruct (getStatus w now) as [w1 status]. cbn [fst snd] in *.
  rewrite Hst, Hen. rewrite Hdb in Hdb1.
  set (p := {| p_intervalHours := Some (requested_hours body);
               p_batchSize := Some (requested_size body);
               p_includeInactive :=
                 Some (to_boolean (default (b_includeInactive body)
                                     (VBool false)));
               p_enabled := None |}).
  destruct (start_returns w1 p now hours Hdb1 Hgen)
    as (w' & Hstart & Hstored & Htask & _ & Heff').
  rewrite Hstart. exists w'. eexists. split; [reflexivity|].
  cbn [accept http_status success].
  rewrite Hstored, Htask, Heff', Heff.
  repeat split; reflexivity.
Qed.

(** C8 (as the code has it).  For a start request that reaches the
    checks (the database answers) and whose interval and batch size parse
    to integers: if the interval is outside 1..12 or the batch size
    outside 5..100, it is refused with a validation error and nothing
    changes; if both are within bounds and the scheduler is not already
    enabled, the settings are persisted with [enabled = true]; if both are
    within bounds and the scheduler is already enabled, the request is
    refused and the stored settings stay as they were. *)
Theorem start_validation (w : World) (body : Body) (now : Date) (h s : Z) :
  db_connected w = true ->
  requested_hours body = JInt h ->
  requested_size body = JInt s ->
  let w' := fst (PaymentController.startScheduler w body now) in
  let response := snd (PaymentController.startScheduler w body now) in
  (h < 1 \/ 12 < h \/ s < 5 \/ 100 < s ->
   w' = w /\
   (response = Some (refuse 400 interval_error) \/
    response = Some (refuse 400 batch_error))) /\
  (1 <= h <= 12 -> 5 <= s <= 100 -> reported_enabled w = false ->
   exists r,
     response = Some r /\ http_status r = 200 /\ success r = true /\
     stored w'
     = Some {| intervalHours := JInt h; batchSize := JInt s;
               includeInactive := requested_inactive body;
               enabled := true |} /\
     In (SaveState {| intervalHours := JInt h; batchSize := JInt s;
                      includeInactive := requested_inactive body;
                      enabled := true |}) (effects w')) /\
  (1 <= h <= 12 -> 5 <= s <= 100 -> reported_enabled w = true ->
   response = Some (refuse 400 "Scheduler is already running") /\
   stored w' = stored w /\ effects w' = effects w).
Proof.
  intros Hdb Hh Hs. cbn zeta. split; [|split].
  - intros Hout. unfold PaymentController.startScheduler.
    rewrite Hdb. cbn [negb].
    fold (requested_hours body) (requested_size body). rewrite Hh, Hs.
    destruct (out_of_range_fails h s Hout) as [Hi | [Hi Hb]].
    + rewrite Hi. cbn. auto.
    + rewrite Hi, Hb. cbn. auto.
  - intros Hh12 Hs100 Hen.
    destruct (in_range_passes h s Hh12 Hs100) as [Hi Hb].
    destruct (SchedulerFacts.schedule_times_defined h Hh12)
      as (rest & _ & Hgen & _).
    rewrite <- Hh in Hi, Hgen. rewrite <- Hs in Hb.
    destruct (start_accepted w body now (0 :: rest) Hdb Hi Hb Hen Hgen)
      as (w' & r & Hrun & Hcode & Hok & Hsto & _ & Heff).
    rewrite Hrun. cbn [fst snd]. exists r.
    rewrite Hh, Hs in Hsto, Heff.
    repeat split; auto.
    rewrite Heff. apply in_or_app. right. now left.
  - intros Hh12 Hs100 Hen.
    destruct (in_range_passes h s Hh12 Hs100) as [Hi Hb].
    unfold PaymentController.startScheduler.
    rewrite Hdb. cbn [negb].
    fold (requested_hours body) (requested_size body).
    rewrite Hh, Hs, Hi, Hb.
    destruct (getStatus_world w now)
      as (Hst & _ & Hsto & _ & Heff & _).
    cbn zeta in Hsto, Heff.
    destruct (getStatus w now) as [w1 status]. cbn [fst snd] in *.
    rewrite Hst, Hen. cbn [fst snd]. auto.
Qed.

Lemma start_validation_witness :
  let w' := fst (PaymentController.startScheduler Samples.idle
                   (Samples.request (VStr "6") (VNum 50))
                   Samples.half_past_four) in
  let response := snd (PaymentController.startScheduler Samples.idle
                         (Samples.request (VStr "6") (VNum 50))
                         Samples.half_past_four) in
  exists r,
    response = Some r /\ http_status r = 200 /\ success r = true /\
    stored w'
    = Some {| intervalHours := JInt 6; batchSize := JInt 50;
              includeInactive := false; enabled := true |} /\
    In (SaveState {| intervalHours := JInt 6; batchSize := JInt 50;
                     includeInactive := false; enabled := true |})
      (effects w').
Proof.
  refine (proj1 (proj2 (start_validation Samples.idle
                          (Samples.request (VStr "6") (VNum 50))
                          Samples.half_past_four 6 50
                          eq_refl eq_refl eq_refl)) _ _ eq_refl); lia.
Defined.

(** C8 as stated fails for requests within both bounds: the scheduler
    runs every 4 hours with batches of 75, a start request for every 6
    hours with batches of 50 is refused, and the stored settings are
    still the old ones. *)
Lemma start_within_bounds_not_persisted :
  let body := Samples.request (VNum 6) (VNum 50) in
  let result := PaymentController.startScheduler (Samples.every 4) body
                  Samples.half_past_four in
  bad_interval (requested_hours body) = false /\
  bad_batch (requested_size body) = false /\
  snd result = Some (refuse 400 "Scheduler is already running") /\
  stored (fst result)
  = Some {| intervalHours := JInt 4; batchSize := JInt 75;
            includeInactive := false; enabled := true |} /\
  stored (fst result)
  <> Some {| intervalHours := JInt 6; batchSize := JInt 50;
             includeInactive := false; enabled := true |} /\
  effects (fst result) = [].
Proof.
  repeat split; try reflexivity. discriminate.
Qed.

(** *** Values that are not numbers *)

Lemma nan_or_within_passes (lo hi : Z) (n : jsnum) :
  nan_or_within lo hi n ->
  Js.lt n (JInt lo) || Js.gt n (JInt hi) = false.
Proof.
  intros [-> | (z & -> & Hz)]; [reflexivity|].
  unfold Js.gt, Js.lt.
  destruct (Z.ltb_spec z lo), (Z.ltb_spec hi z); try lia; reflexivity.
Qed.

Lemma cron_of_nan_or_within (n : jsnum) :
  nan_or_within 1 12 n -> exists hours, generateCronExpression n = Some hours.
Proof.
  intros [-> | (z & -> & Hz)].
  - now exists [0].
  - destruct (SchedulerFacts.schedule_times_defined z Hz)
      as (rest & _ & Hgen & _). eauto.
Qed.

Lemma checked_passes (v : jsval) (lo hi : Z) (msg : string) (d : jsval) :
  nan_or_within lo hi (parseInt (default v d)) ->
  checked v (fun n => Js.lt n (JInt lo) || Js.gt n (JInt hi)) msg
  = inr (match v with VUndefined => None | _ => Some (parseInt v) end).
Proof.
  intros H. unfold checked.
  destruct v; try reflexivity; cbn [default] in H;
    now rewrite (nan_or_within_passes _ _ _ H).
Qed.

(** The check of a field that is not a number never answers with that
    field's validation error. *)
Lemma start_never_refuses_nan (w : World) (body : Body) (now : Date) :
  (requested_hours body = JNaN ->
   snd (PaymentController.startScheduler w body now)
   <> Some (refuse 400 interval_error)) /\
  (requested_size body = JNaN ->
   snd (PaymentController.startScheduler w body now)
   <> Some (refuse 400 batch_error)).
Proof.
  unfold PaymentController.startScheduler.
  fold (requested_hours body) (requested_size body).
  split; intros Hnan; rewrite Hnan;
    (destruct (db_connected w); cbn [negb]; [|discriminate]).
  - change (bad_interval JNaN) with false. cbn iota.
    destruct (bad_batch _); [discriminate|].
    destruct (getStatus w now) as [w1 status].
    destruct (st_enabled status); [discriminate|].
    destruct (SchedulerService.startScheduler _ _ now) as [w2 [r|e|]];
      discriminate.
  - destruct (bad_interval _); [discriminate|].
    change (bad_batch JNaN) with false. cbn iota.
    destruct (getStatus w now) as [w1 status].
    destruct (st_enabled status); [discriminate|].
    destruct (SchedulerService.startScheduler _ _ now) as [w2 [r|e|]];
      discriminate.
Qed.

Lemma update_never_refuses_nan (body : Body) :
  (not_a_number (b_intervalHours body) ->
   requested_update body <> inl interval_error) /\
  (not_a_number (b_batchSize body) ->
   requested_update body <> inl batch_error).
Proof.
  unfold requested_update, checked.
  split; intros [Hdef Hnan]; rewrite Hnan.
  - change (bad_interval JNaN) with false.
    destruct (b_intervalHours body); try congruence;
      destruct (b_batchSize body); try discriminate;
      destruct (bad_batch _); discriminate.
  - change (bad_batch JNaN) with false.
    destruct (b_batchSize body); try congruence;
      destruct (b_intervalHours body); try discriminate;
      destruct (bad_interval _); discriminate.
Qed.

(** C10.  For every start or update request in which the interval or the
    batch size is there and parses to [NaN]: both comparisons of the range
    check of that field are false, and neither handler answers with that
    field's validation error.  Unless something else stops the request
    (the database does not answer, the other field is a number out of its
    range, or, for a start, the scheduler is already enabled), the [NaN]
    reaches the scheduler and is persisted: by a start request with
    [enabled = true], by an update request merged into the current
    settings. *)
Theorem nan_passes_validation (w : World) (body : Body) (now : Date) :
  not_a_number (b_intervalHours body) \/ not_a_number (b_batchSize body) ->
  (Js.lt JNaN (JInt 1) = false /\ Js.gt JNaN (JInt 12) = false /\
   Js.lt JNaN (JInt 5) = false /\ Js.gt JNaN (JInt 100) = false /\
   bad_interval JNaN = false /\ bad_batch JNaN = false) /\
  (requested_hours body = JNaN \/ requested_size body = JNaN) /\
  (not_a_number (b_intervalHours body) ->
   snd (PaymentController.startScheduler w body now)
   <> Some (refuse 400 interval_error) /\
   requested_update body <> inl interval_error) /\
  (not_a_number (b_batchSize body) ->
   snd (PaymentController.startScheduler w body now)
   <> Some (refuse 400 batch_error) /\
   requested_update body <> inl batch_error) /\
  (db_connected w = true ->
   nan_or_within 1 12 (requested_hours body) ->
   nan_or_within 5 100 (requested_size body) ->
   (reported_enabled w = false ->
    exists r,
      snd (PaymentController.startScheduler w body now) = Some r /\
      http_status r = 200 /\ success r = true /\
      stored (fst (PaymentController.startScheduler w body now))
      = Some {| intervalHours := requested_hours body;
                batchSize := requested_size body;
                includeInactive := requested_inactive body;
                enabled := true |}) /\
   (exists p saved,
      requested_update body = inr p /\
      stored (fst (PaymentController.updateSettings w body now))
      = Some saved /\
      saved = merge (settings w) p /\
      (not_a_number (b_intervalHours body) -> intervalHours saved = JNaN) /\
      (not_a_number (b_batchSize body) -> batchSize saved = JNaN))).
Proof.
  intros Hnan.
  assert (Hparse_h : not_a_number (b_intervalHours body) ->
                     requested_hours body = JNaN).
  { intros [Hdef Hp]. unfold requested_hours.
    destruct (b_intervalHours body); try congruence; exact Hp. }
  assert (Hparse_s : not_a_number (b_batchSize body) ->
                     requested_size body = JNaN).
  { intros [Hdef Hp]. unfold requested_size.
    destruct (b_batchSize body); try congruence; exact Hp. }
  split; [repeat split; reflexivity|]. split.
  { destruct Hnan as [H | H]; [left|right]; auto. }
  split.
  { intros H. split.
    - apply (start_never_refuses_nan w body now), Hparse_h, H.
    - apply (update_never_refuses_nan body), H. }
  split.
  { intros H. split.
    - apply (start_never_refuses_nan w body now), Hparse_s, H.
    - apply (update_never_refuses_nan body), H. }
  intros Hdb Hh Hs. split.
  - intros Hen.
    destruct (cron_of_nan_or_within _ Hh) as [hours Hgen].
    destruct (start_accepted w body now hours Hdb
                (nan_or_within_passes _ _ _ Hh)
                (nan_or_within_passes _ _ _ Hs) Hen Hgen)
      as (w' & r & Hrun & Hcode & Hok & Hsto & _).
    rewrite Hrun. cbn [fst snd]. exists r. auto.
  - pose proof (checked_passes (b_intervalHours body) 1 12 interval_error
                  (VNum 4) Hh) as Hci.
    pose proof (checked_passes (b_batchSize body) 5 100 batch_error
                  (VNum 10) Hs) as Hcb.
    fold bad_interval in Hci. fold bad_batch in Hcb.
    unfold requested_update. rewrite Hci, Hcb.
    eexists. eexists. split; [reflexivity|].
    unfold PaymentController.updateSettings, requested_update.
    rewrite Hci, Hcb.
    match goal with
    | |- context [SchedulerService.updateSettings w ?p now] =>
        pose proof (update_stored w p now Hdb eq_refl) as Hsto;
        set (w1 := SchedulerService.updateSettings w p now) in *
    end.
    destruct (getStatus_world w1 now) as (_ & _ & Hsto1 & _).
    cbn zeta in Hsto1.
    destruct (getStatus w1 now) as [w2 status]. cbn [fst] in Hsto1.
    split.
    + destruct (st_nextRun status), (st_upcomingSchedules status);
        cbn [fst]; rewrite Hsto1; exact Hsto.
    + split; [reflexivity|]. cbn [merge intervalHours batchSize].
      split; intros [Hdef Hp].
      * destruct (b_intervalHours body); try congruence; cbn [or_else];
          exact Hp.
      * destruct (b_batchSize body); try congruence; cbn [or_else];
          exact Hp.
Qed.

Lemma nan_passes_validation_witness :
  let body := Samples.request (VStr "abc") (VNum 50) in
  not_a_number (b_intervalHours body) /\
  exists r,
    snd (PaymentController.startScheduler Samples.idle body
           Samples.half_past_four) = Some r /\
    http_status r = 200 /\ success r = true /\
    stored (fst (PaymentController.startScheduler Samples.idle body
                   Samples.half_past_four))
    = Some {| intervalHours := JNaN; batchSize := JInt 50;
              includeInactive := false; enabled := true |}.
Proof.
  assert (Hnan : not_a_number (VStr "abc")) by (split; [discriminate|reflexivity]).
  split; [exact Hnan|].
  refine (proj1 (proj2 (proj2 (proj2 (proj2
            (nan_passes_validation Samples.idle
               (Samples.request (VStr "abc") (VNum 50))
               Samples.half_past_four (or_introl Hnan)))))
            eq_refl (or_introl eq_refl) _) eq_refl).
  right. exists 50. split; [reflexivity|lia].
Defined.

End ControllerFacts.

(* ================================================================== *)
(** ** More about the dispatch engine *)
(* ================================================================== *)

Module PaymentMore.
Import PaymentService PaymentFacts.

(** *** The books of the statistics *)

Lemma classify_one (e : AxiosError) (h : Errors) :
  histogram_total (classify e h) = histogram_total h + 1.
Proof.
  unfold classify, histogram_total.
  repeat match goal with
         | |- context [if ?b then _ else _] => destruct b
         end; cbn; lia.
Qed.

Lemma single_balance (a : Attempt) (c : Client) (r : bool) (s : Service) :
  books_balance (stats s) ->
  books_balance (stats (fst (processSinglePayment a c r s))).
Proof.
  unfold books_balance, processSinglePayment, selectServer.
  intros (H1 & H2 & H3 & H4 & H5).
  destruct (usePrimary a), (reply a) as [sc d t|e], r;
    cbn -[Nat.ltb maxRetries Z.add classify histogram_total];
    try destruct (retryCount c <? maxRetries)%nat;
    cbn -[Nat.ltb maxRetries Z.add classify histogram_total];
    rewrite ?classify_one; repeat split; lia.
Qed.

Lemma settle_all_balance (upstream : nat -> nat -> Client -> Attempt)
    (b : nat) (order : list (nat * Client)) (s : Service) :
  books_balance (stats s) ->
  books_balance (stats (settle_all upstream b order s)).
Proof.
  revert s. induction order as [|ic order IH]; intros s H; [exact H|].
  unfold settle_all. cbn [fold_left]. apply IH. now apply single_balance.
Qed.

(** A property that every pass keeps holds when the run returns. *)
Lemma run_keeps
    (upstream : nat -> nat -> Client -> Attempt)
    (settle : nat -> list (nat * Client) -> list (nat * Client))
    (t_start t_end : Z) (per_second percent : Z -> Z -> Z)
    (batchSize : jsnum) (jobId : string) (fuel : nat)
    (clients : list Client) (P : Loop -> Prop) :
  (forall k l, Permutation (settle k l) l) ->
  (total_weight clients < fuel)%nat ->
  (forall l l' c,
      P l -> iteration upstream settle batchSize jobId l = (l', c) -> P l') ->
  P (entry t_start batchSize jobId clients) ->
  exists l,
    processClients upstream settle t_start t_end per_second percent
      batchSize jobId fuel clients
    = Some (finish t_end per_second percent jobId clients l) /\
    P l /\
    exists l0, P l0 /\ iteration upstream settle batchSize jobId l0 = (l, false).
Proof.
  intros Hperm Hfuel Hstep Hentry.
  destruct (run_ends upstream settle t_start t_end per_second percent
              batchSize jobId Hperm fuel clients Hfuel) as (l & Hl & Hgo).
  exists l. split; [exact Hgo|].
  exact (loop_invariant upstream settle batchSize jobId P Hstep fuel _ _
           Hentry Hl).
Qed.

Lemma final_stats_finish (t_end : Z) (per_second percent : Z -> Z -> Z)
    (jobId : string) (clients : list Client) (l : Loop) :
  final_stats (events (finish t_end per_second percent jobId clients l))
  = Some (getStats per_second percent t_end (stats (svc l))).
Proof. unfold final_stats. cbn [finish events]. now rewrite rev_unit. Qed.

(** X1.  In the statistics of every run the requests sent to the two
    servers add up to [totalRequests], the successes of the two servers to
    [successful], and the five entries of the error histogram to [failed];
    no server has more successes than requests. *)
Theorem statistics_balance
    (upstream : nat -> nat -> Client -> Attempt)
    (settle : nat -> list (nat * Client) -> list (nat * Client))
    (t_start t_end : Z) (per_second percent : Z -> Z -> Z)
    (batchSize : jsnum) (jobId : string) (fuel : nat)
    (clients : list Client) :
  (forall k l, Permutation (settle k l) l) ->
  (total_weight clients < fuel)%nat ->
  exists out snap,
    processClients upstream settle t_start t_end per_second percent
      batchSize jobId fuel clients = Some out /\
    final_stats (events out) = Some snap /\
    snap_primaryServerRequests snap + snap_fallbackServerRequests snap
    = snap_totalRequests snap /\
    snap_primaryServerSuccess snap + snap_fallbackServerSuccess snap
    = snap_successful snap /\
    histogram_total (snap_errors snap) = snap_failed snap /\
    0 <= snap_primaryServerSuccess snap <= snap_primaryServerRequests snap /\
    0 <= snap_fallbackServerSuccess snap <= snap_fallbackServerRequests snap.
Proof.
  intros Hperm Hfuel.
  destruct (run_keeps upstream settle t_start t_end per_second percent
              batchSize jobId fuel clients
              (fun l => books_balance (stats (svc l))) Hperm Hfuel)
    as (l & Hgo & HP & _).
  - intros l l' c H Hit. destruct c.
    + destruct (iteration_true upstream settle batchSize jobId l l' Hit)
        as (regular & retry & all' & fq' & _ & _ & ->).
      destruct (run_batch_fields upstream settle batchSize jobId l
                  (S (batchIndex l)) regular retry all' fq')
        as (_ & Hsvc & _).
      rewrite Hsvc. now apply settle_all_balance.
    + destruct (iteration_false upstream settle batchSize jobId l l' Hit)
        as (Hs & _). now rewrite Hs.
  - unfold books_balance. cbn. repeat split; lia.
  - exists (finish t_end per_second percent jobId clients l),
      (getStats per_second percent t_end (stats (svc l))).
    split; [exact Hgo|]. split; [apply final_stats_finish|].
    exact HP.
Qed.

Lemma statistics_balance_witness :
  exists out snap,
    Samples.run (Samples.upstream_refusing "254700000002") Samples.last_first
      (JInt 5) 25 Samples.six_subscribers = Some out /\
    final_stats (events out) = Some snap /\
    snap_primaryServerRequests snap + snap_fallbackServerRequests snap
    = snap_totalRequests snap /\
    snap_primaryServerSuccess snap + snap_fallbackServerSuccess snap
    = snap_successful snap /\
    histogram_total (snap_errors snap) = snap_failed snap /\
    0 <= snap_primaryServerSuccess snap <= snap_primaryServerRequests snap /\
    0 <= snap_fallbackServerSuccess snap <= snap_fallbackServerRequests snap.
Proof.
  apply (statistics_balance (Samples.upstream_refusing "254700000002")
           Samples.last_first 1000 1750 Samples.per_second Samples.percent
           (JInt 5) "job-1" 25 Samples.six_subscribers).
  - intros k l. apply Permutation_sym, Permutation_rev.
  - vm_compute. lia.
Defined.

(** *** The shape of a pass *)

(** What a pass that dispatches a batch does to the queues and to the
    results, the order of settlement being some permutation of the slots
    of the batch. *)
Lemma pass_shape
    (upstream : nat -> nat -> Client -> Attempt)
    (settle : nat -> list (nat * Client) -> list (nat * Client))
    (batchSize : jsnum) (jobId : string) (l l' : Loop) :
  (forall k x, Permutation (settle k x) x) ->
  iteration upstream settle batchSize jobId l = (l', true) ->
  exists regular retry all' fq' order,
    build_batch batchSize (allClients l) (failedQueue (svc l))
    = ((regular, retry), (all', fq')) /\
    allClients l = regular ++ all' /\
    failedQueue (svc l) = retry ++ fq' /\
    regular ++ retry <> [] /\
    Permutation order (slots (regular ++ retry)) /\
    allClients l' = all' /\
    failedQueue (svc l') = fq' ++ requeued upstream (S (batchIndex l)) order /\
    results l'
    = results l
      ++ map (fun ic => outcome (attempt_at upstream (S (batchIndex l)) ic)
                          (snd ic) (is_retry_of (snd ic)))
           (slots (regular ++ retry)) /\
    batches_completed (emitted l') = S (batches_completed (emitted l)).
Proof.
  intros Hperm Hit.
  destruct (iteration_true upstream settle batchSize jobId l l' Hit)
    as (regular & retry & all' & fq' & Hb & Hne & ->).
  destruct (build_batch_app _ _ _ _ _ _ _ Hb) as [Ha Hq].
  destruct (run_batch_fields upstream settle batchSize jobId l
              (S (batchIndex l)) regular retry all' fq')
    as (Hall & _ & Hres & _ & _ & Hbc & _).
  destruct (run_batch_service upstream settle batchSize jobId Hperm l
              (S (batchIndex l)) regular retry all' fq')
    as (_ & _ & _ & _ & Hfq & Hord).
  exists regular, retry, all', fq',
    (settle (S (batchIndex l)) (slots (regular ++ retry))).
  repeat split; auto.
Qed.

Lemma count_where_slots (p : Client -> bool) (batch : list Client) :
  count_where (fun ic => p (snd ic)) (slots batch) = count_where p batch.
Proof.
  rewrite <- (count_where_map snd p). now rewrite slots_clients.
Qed.

Lemma fresh_total (clients : list Client) :
  Forall fresh clients ->
  total_weight clients = ((maxRetries + 1) * length clients)%nat.
Proof.
  induction 1 as [|c l Hc _ IH]; [reflexivity|].
  rewrite total_weight_cons, IH. cbn [length].
  unfold weight. rewrite Hc. unfold maxRetries. lia.
Qed.

(** *** Bounds on the work of a run *)

(** X2.  Whatever the upstream does, a run over clients fresh from the
    client source dispatches no client more than [maxRetries + 1] (= 4)
    times for each of its occurrences in the input; it makes at most
    [4 * L] requests for an input of length [L], and every batch it
    completes holds at least one request. *)
Theorem attempts_capped
    (upstream : nat -> nat -> Client -> Attempt)
    (settle : nat -> list (nat * Client) -> list (nat * Client))
    (t_start t_end : Z) (per_second percent : Z -> Z -> Z)
    (batchSize : jsnum) (jobId : string) (fuel : nat)
    (clients : list Client) :
  (forall k l, Permutation (settle k l) l) ->
  Forall fresh clients ->
  (total_weight clients < fuel)%nat ->
  exists out,
    processClients upstream settle t_start t_end per_second percent
      batchSize jobId fuel clients = Some out /\
    (forall m,
        (attempts m (returned out)
         <= (maxRetries + 1) * count_where (about m) clients)%nat) /\
    (length (returned out) <= (maxRetries + 1) * length clients)%nat /\
    (batches_completed (events out) <= length (returned out))%nat.
Proof.
  intros Hperm Hfresh Hfuel.
  pose (P := fun l : Loop =>
               (forall m,
                   (attempts m (results l) + budget m l
                    <= total_weight (filter (about m) clients))%nat) /\
               (length (results l) + total_weight (pending l)
                <= total_weight clients)%nat /\
               (batches_completed (emitted l) <= length (results l))%nat).
  destruct (run_keeps upstream settle t_start t_end per_second percent
              batchSize jobId fuel clients P Hperm Hfuel)
    as (l & Hgo & (Hatt & Hlen & Hbat) & _).
  - intros l l' c (Hatt & Hlen & Hbat) Hit. split.
    { intros m.
      pose proof (budget_step upstream settle batchSize jobId Hperm m l l' c
                    Hit) as H.
      specialize (Hatt m). lia. }
    destruct c.
    + destruct (pass_shape upstream settle batchSize jobId l l' Hperm Hit)
        as (regular & retry & all' & fq' & order & Hb & Ha & Hq & Hne & _
            & _ & _ & Hres & Hbc).
      destruct (iteration_true upstream settle batchSize jobId l l' Hit)
        as (regular0 & retry0 & all0 & fq0 & Hb0 & _ & Hl').
      rewrite Hb in Hb0. injection Hb0 as <- <- <- <-.
      pose proof (run_batch_weight upstream settle batchSize jobId Hperm l
                    (S (batchIndex l)) regular retry all' fq' Ha Hq) as Hw.
      rewrite <- Hl' in Hw.
      rewrite Hres, Hbc, length_app, length_map, slots_length.
      assert (0 < length (regular ++ retry))%nat
        by (destruct (regular ++ retry); [congruence|cbn; lia]).
      split; lia.
    + destruct (iteration_false upstream settle batchSize jobId l l' Hit)
        as (Hs & Ha & Hr & He & _).
      unfold pending. rewrite Hs, Ha, Hr, He. auto.
  - unfold P. split; [|split].
    + intros m. rewrite budget_entry. cbn. lia.
    + rewrite pending_entry. cbn. lia.
    + cbn. lia.
  - exists (finish t_end per_second percent jobId clients l).
    split; [exact Hgo|]. cbn [finish returned events].
    split; [|split].
    + intros m. specialize (Hatt m).
      rewrite (fresh_weight _ _ Hfresh) in Hatt. lia.
    + rewrite (fresh_total _ Hfresh) in Hlen. lia.
    + unfold batches_completed in *. rewrite count_where_app. cbn. lia.
Qed.

Lemma attempts_capped_witness :
  exists out,
    Samples.run Samples.upstream_flaky Samples.last_first (JInt 5) 25
      Samples.six_subscribers = Some out /\
    (forall m,
        (attempts m (returned out)
         <= (maxRetries + 1) * count_where (about m) Samples.six_subscribers)%nat)
    /\
    (length (returned out) <= (maxRetries + 1) * 6)%nat /\
    (batches_completed (events out) <= length (returned out))%nat.
Proof.
  apply (attempts_capped Samples.upstream_flaky Samples.last_first 1000 1750
           Samples.per_second Samples.percent (JInt 5) "job-1" 25
           Samples.six_subscribers).
  - intros k l. apply Permutation_sym, Permutation_rev.
  - repeat constructor.
  - vm_compute. lia.
Defined.

(** *** No client is paid twice *)

(** A request for [m] that succeeds takes its client off the queues; one
    that fails puts back at most one. *)
Lemma requeued_paid (upstream : nat -> nat -> Client -> Attempt)
    (m : string) (b : nat) (order : list (nat * Client)) :
  (count_where (fun ic => about m (snd ic) && fulfilled (attempt_at upstream b ic))
     order
   + count_where (about m) (requeued upstream b order)
   <= count_where (fun ic => about m (snd ic)) order)%nat.
Proof.
  induction order as [|ic order IH]; [reflexivity|].
  unfold requeued, count_where in *. cbn [flat_map filter].
  rewrite filter_app, length_app, requeue_of_about.
  assert (Hq : fulfilled (attempt_at upstream b ic) = true ->
               requeue_of (attempt_at upstream b ic) (snd ic) = []).
  { unfold requeue_of, fulfilled.
    destruct (reply (attempt_at upstream b ic)); [reflexivity|discriminate]. }
  assert (Hl : (length (requeue_of (attempt_at upstream b ic) (snd ic)) <= 1)%nat).
  { unfold requeue_of.
    destruct (reply (attempt_at upstream b ic)); [cbn; lia|].
    destruct (retryCount (snd ic) <? maxRetries)%nat; cbn; lia. }
  destruct (about m (snd ic)); cbn [andb].
  - destruct (fulfilled (attempt_at upstream b ic)) eqn:Hf; cbn [length].
    + rewrite (Hq eq_refl). cbn [length]. lia.
    + lia.
  - cbn [length]. lia.
Qed.

(** X3.  In every run, whatever the upstream does and in whatever order
    the requests settle, the number of successful requests for a
    subscriber is at most the number of its occurrences in the input: a
    client whose payment went through is not dispatched again. *)
Theorem paid_at_most_once
    (upstream : nat -> nat -> Client -> Attempt)
    (settle : nat -> list (nat * Client) -> list (nat * Client))
    (t_start t_end : Z) (per_second percent : Z -> Z -> Z)
    (batchSize : jsnum) (jobId : string) (fuel : nat)
    (clients : list Client) :
  (forall k l, Permutation (settle k l) l) ->
  (total_weight clients < fuel)%nat ->
  exists out,
    processClients upstream settle t_start t_end per_second percent
      batchSize jobId fuel clients = Some out /\
    forall m,
      (payments m (returned out) <= count_where (about m) clients)%nat.
Proof.
  intros Hperm Hfuel.
  pose (P := fun l : Loop =>
               forall m,
                 (payments m (results l) + count_where (about m) (pending l)
                  <= count_where (about m) clients)%nat).
  destruct (run_keeps upstream settle t_start t_end per_second percent
              batchSize jobId fuel clients P Hperm Hfuel)
    as (l & Hgo & HP & _).
  - intros l l' c H Hit m. specialize (H m). destruct c.
    + destruct (pass_shape upstream settle batchSize jobId l l' Hperm Hit)
        as (regular & retry & all' & fq' & order & _ & Ha & Hq & _ & Hord
            & Hall & Hfq & Hres & _).
      rewrite (count_where_perm _ _ _ (pending_before l _ _ _ _ Ha Hq)) in H.
      unfold pending, payments in *. rewrite Hall, Hfq, Hres.
      rewrite !count_where_app in *. rewrite count_where_map.
      pose proof (requeued_paid upstream m (S (batchIndex l)) order) as Hb.
      rewrite !(count_where_perm _ _ _ Hord) in Hb.
      rewrite count_where_slots in Hb.
      rewrite (count_where_ext
                 (fun x => result_about m
                             (outcome (attempt_at upstream (S (batchIndex l)) x)
                                (snd x) (is_retry_of (snd x)))
                           && success
                                (outcome
                                   (attempt_at upstream (S (batchIndex l)) x)
                                   (snd x) (is_retry_of (snd x))))
                 (fun ic => about m (snd ic)
                            && fulfilled
                                 (attempt_at upstream (S (batchIndex l)) ic))).
      2:{ intros ic _. unfold result_about, about.
          now rewrite outcome_msisdn, outcome_success. }
      rewrite count_where_app in Hb. lia.
    + destruct (iteration_false upstream settle batchSize jobId l l' Hit)
        as (Hs & Ha & Hr & _).
      unfold pending in *. now rewrite Hs, Ha, Hr.
  - intros m. rewrite pending_entry. cbn. lia.
  - exists (finish t_end per_second percent jobId clients l).
    split; [exact Hgo|]. intros m. specialize (HP m).
    cbn [finish returned]. lia.
Qed.

Lemma paid_at_most_once_witness :
  exists out,
    Samples.run Samples.upstream_flaky Samples.last_first (JInt 5) 25
      Samples.six_subscribers = Some out /\
    forall m,
      (payments m (returned out)
       <= count_where (about m) Samples.six_subscribers)%nat.
Proof.
  apply (paid_at_most_once Samples.upstream_flaky Samples.last_first 1000 1750
           Samples.per_second Samples.percent (JInt 5) "job-1" 25
           Samples.six_subscribers).
  - intros k l. apply Permutation_sym, Permutation_rev.
  - vm_compute. lia.
Defined.

(** *** The order of the first attempts *)

Lemma first_attempts_of_batch (upstream : nat -> nat -> Client -> Attempt)
    (b : nat) (sl : list (nat * Client)) :
  first_attempts
    (map (fun ic => outcome (attempt_at upstream b ic) (snd ic)
                      (is_retry_of (snd ic))) sl)
  = map msisdn (filter (fun c => negb (is_retry_of c)) (map snd sl)).
Proof.
  unfold first_attempts. induction sl as [|ic sl IH]; [reflexivity|].
  cbn [map filter]. rewrite outcome_isRetry.
  destruct (is_retry_of (snd ic)); cbn [negb map]; [exact IH|].
  now rewrite outcome_msisdn, IH.
Qed.

Lemma filter_fresh_retries (regular retry : list Client) :
  Forall fresh regular ->
  Forall (fun c => is_retry_of c = true) retry ->
  filter (fun c => negb (is_retry_of c)) (regular ++ retry) = regular.
Proof.
  intros Hr Ht. rewrite filter_app.
  assert (H1 : filter (fun c => negb (is_retry_of c)) regular = regular).
  { induction Hr as [|c l Hc _ IH]; [reflexivity|].
    cbn [filter].
    replace (is_retry_of c) with false by (unfold is_retry_of; now rewrite Hc).
    cbn [negb]. now rewrite IH. }
  assert (H2 : filter (fun c => negb (is_retry_of c)) retry = []).
  { induction Ht as [|c l Hc _ IH]; [reflexivity|].
    cbn [filter]. now rewrite Hc. }
  now rewrite H1, H2, app_nil_r.
Qed.

Lemma requeued_retry_all (upstream : nat -> nat -> Client -> Attempt)
    (b : nat) (order : list (nat * Client)) :
  Forall (fun c => is_retry_of c = true) (requeued upstream b order).
Proof.
  apply Forall_forall. intros c Hin. unfold requeued in Hin.
  apply in_flat_map in Hin. destruct Hin as (ic & _ & Hin).
  apply requeue_of_retry in Hin. destruct Hin as (_ & Hrc & _).
  unfold is_retry_of. now rewrite Hrc.
Qed.

(** With an integer batch size the loop is not left while the primary
    queue holds a client. *)
Lemma primary_queue_drained
    (upstream : nat -> nat -> Client -> Attempt)
    (settle : nat -> list (nat * Client) -> list (nat * Client))
    (b : Z) (jobId : string) (l l' : Loop) :
  iteration upstream settle (JInt b) jobId l = (l', false) ->
  allClients l' = [].
Proof.
  intros Hit.
  destruct (iteration_false upstream settle (JInt b) jobId l l' Hit)
    as (_ & Ha & _ & _ & [Hp | (all' & fq' & Hb)]); rewrite Ha.
  - unfold pending in Hp. now apply app_eq_nil in Hp.
  - destruct (build_batch_lengths _ _ _ _ _ _ _ Hb) as [Hr _].
    cbn [length Js.sub Js.max delete_count] in Hr.
    apply length_zero_iff_nil. lia.
Qed.

(** X4.  With an integer batch size, in a run over clients fresh from the
    client source, the first attempts (the results that are not retries)
    are made for the clients of the input, each once, in the order of the
    input. *)
Theorem first_attempts_in_input_order
    (upstream : nat -> nat -> Client -> Attempt)
    (settle : nat -> list (nat * Client) -> list (nat * Client))
    (t_start t_end : Z) (per_second percent : Z -> Z -> Z)
    (b : Z) (jobId : string) (fuel : nat) (clients : list Client) :
  (forall k l, Permutation (settle k l) l) ->
  Forall fresh clients ->
  (total_weight clients < fuel)%nat ->
  exists out,
    processClients upstream settle t_start t_end per_second percent
      (JInt b) jobId fuel clients = Some out /\
    first_attempts (returned out) = map msisdn clients.
Proof.
  intros Hperm Hfresh Hfuel.
  pose (P := fun l : Loop =>
               Forall fresh (allClients l) /\
               Forall (fun c => is_retry_of c = true) (failedQueue (svc l)) /\
               first_attempts (results l) ++ map msisdn (allClients l)
               = map msisdn clients).
  destruct (run_keeps upstream settle t_start t_end per_second percent
              (JInt b) jobId fuel clients P Hperm Hfuel)
    as (l & Hgo & (_ & _ & HP) & l0 & _ & Hexit).
  - intros l l' c (Hf & Hr & Heq) Hit. destruct c.
    + destruct (pass_shape upstream settle (JInt b) jobId l l' Hperm Hit)
        as (regular & retry & all' & fq' & order & _ & Ha & Hq & _ & _
            & Hall & Hfq & Hres & _).
      rewrite Ha in Hf. rewrite Hq in Hr.
      apply Forall_app in Hf. destruct Hf as [Hf1 Hf2].
      apply Forall_app in Hr. destruct Hr as [Hr1 Hr2].
      unfold P. rewrite Hall, Hfq, Hres. split; [exact Hf2|]. split.
      * apply Forall_app. split; [exact Hr2|apply requeued_retry_all].
      * unfold first_attempts in *. rewrite filter_app, map_app.
        fold (first_attempts
                (map (fun ic => outcome
                                  (attempt_at upstream (S (batchIndex l)) ic)
                                  (snd ic) (is_retry_of (snd ic)))
                   (slots (regular ++ retry)))).
        rewrite first_attempts_of_batch, slots_clients.
        rewrite (filter_fresh_retries _ _ Hf1 Hr1).
        rewrite <- Heq, Ha, map_app, <- app_assoc. reflexivity.
    + destruct (iteration_false upstream settle (JInt b) jobId l l' Hit)
        as (Hs & Ha & Hr' & _).
      unfold P. now rewrite Hs, Ha, Hr'.
  - unfold P. cbn. split; [exact Hfresh|]. split; [constructor|reflexivity].
  - exists (finish t_end per_second percent jobId clients l).
    split; [exact Hgo|]. cbn [finish returned].
    rewrite (primary_queue_drained upstream settle b jobId l0 l Hexit) in HP.
    cbn [map] in HP. now rewrite app_nil_r in HP.
Qed.

Lemma first_attempts_in_input_order_witness :
  exists out,
    Samples.run Samples.upstream_flaky Samples.last_first (JInt 4) 25
      Samples.six_subscribers = Some out /\
    first_attempts (returned out) = map msisdn Samples.six_subscribers.
Proof.
  apply (first_attempts_in_input_order Samples.upstream_flaky
           Samples.last_first 1000 1750 Samples.per_second Samples.percent
           4 "job-1" 25 Samples.six_subscribers).
  - intros k l. apply Permutation_sym, Permutation_rev.
  - repeat constructor.
  - vm_compute. lia.
Defined.

(** *** Batch sizes that are not sizes *)

(** X5.  With a batch size that is [NaN] the run dispatches nothing: both
    [splice] calls take nothing, the loop is left through [break] in its
    first pass, and the run completes with no request made, no batch
    event and all-zero counters, whatever the list of clients. *)
Theorem nan_batch_size_dispatches_nothing
    (upstream : nat -> nat -> Client -> Attempt)
    (settle : nat -> list (nat * Client) -> list (nat * Client))
    (t_start t_end : Z) (per_second percent : Z -> Z -> Z)
    (jobId : string) (fuel : nat) (clients : list Client) :
  exists out snap,
    processClients upstream settle t_start t_end per_second percent
      JNaN jobId (S fuel) clients = Some out /\
    returned out = [] /\
    failedQueue (service out) = [] /\
    events out
    = [processingStarted jobId (length clients) JNaN JNaN;
       processingCompleted jobId (length clients) [] snap] /\
    zero_counts snap.
Proof.
  destruct clients as [|c cs].
  - eexists. eexists. split; [reflexivity|].
    cbn -[Z.max Z.sub]. repeat split; reflexivity.
  - eexists. eexists. split; [reflexivity|].
    cbn -[Z.max Z.sub]. repeat split; reflexivity.
Qed.

Lemma requeued_length (upstream : nat -> nat -> Client -> Attempt)
    (b : nat) (order : list (nat * Client)) :
  length (requeued upstream b order)
  = count_where
      (fun ic => match willRetry (outcome (attempt_at upstream b ic) (snd ic)
                                    (is_retry_of (snd ic))) with
                 | Some true => true
                 | _ => false
                 end) order.
Proof.
  unfold requeued, count_where.
  induction order as [|ic order IH]; [reflexivity|].
  cbn [flat_map filter]. rewrite length_app, IH.
  unfold requeue_of, outcome.
  destruct (reply (attempt_at upstream b ic)); cbn [willRetry];
    [reflexivity|].
  destruct (retryCount (snd ic) <? maxRetries)%nat; reflexivity.
Qed.

(** X6.  With a batch size of zero or less every batch holds one client
    of the primary queue and no retry: each client of the input is
    dispatched exactly once, in the order of the input, in a batch of its
    own, and the clients put on the retry queue are still there when the
    run ends. *)
Theorem nonpositive_batch_size_never_retries
    (upstream : nat -> nat -> Client -> Attempt)
    (settle : nat -> list (nat * Client) -> list (nat * Client))
    (t_start t_end : Z) (per_second percent : Z -> Z -> Z)
    (b : Z) (jobId : string) (fuel : nat) (clients : list Client) :
  (forall k l, Permutation (settle k l) l) ->
  b <= 0 ->
  (total_weight clients < fuel)%nat ->
  exists out,
    processClients upstream settle t_start t_end per_second percent
      (JInt b) jobId fuel clients = Some out /\
    map res_msisdn (returned out) = map msisdn clients /\
    batches_completed (events out) = length clients /\
    length (failedQueue (service out))
    = count_where (fun r => match willRetry r with
                            | Some true => true
                            | _ => false
                            end) (returned out).
Proof.
  intros Hperm Hb Hfuel.
  pose (P := fun l : Loop =>
               map res_msisdn (results l) ++ map msisdn (allClients l)
               = map msisdn clients /\
               batches_completed (emitted l) = length (results l) /\
               length (failedQueue (svc l))
               = count_where (fun r => match willRetry r with
                                       | Some true => true
                                       | _ => false
                                       end) (results l)).
  destruct (run_keeps upstream settle t_start t_end per_second percent
              (JInt b) jobId fuel clients P Hperm Hfuel)
    as (l & Hgo & (Hmap & Hbat & Hfq) & l0 & _ & Hexit).
  - intros l l' c (Hmap & Hbat & Hfq) Hit. destruct c.
    + destruct (pass_shape upstream settle (JInt b) jobId l l' Hperm Hit)
        as (regular & retry & all' & fq' & order & Hbb & Ha & Hq & Hne & Hord
            & Hall & Hfq' & Hres & Hbc).
      destruct (build_batch_lengths _ _ _ _ _ _ _ Hbb) as [Hlr Hlt].
      cbn [Js.sub Js.max delete_count] in Hlr, Hlt.
      assert (Hretry : retry = []) by (apply length_zero_iff_nil; lia).
      subst retry. cbn [app] in Hq. subst fq'.
      rewrite app_nil_r in *.
      destruct regular as [|c1 [|c2 rest]]; [congruence| |cbn [length] in Hlr; lia].
      unfold P. rewrite Hall, Hfq', Hres, Hbc.
      rewrite map_app, !length_app, count_where_app, requeued_length.
      rewrite (count_where_perm _ _ _ Hord), count_where_map.
      cbn [slots length seq combine map].
      split; [|split].
      * rewrite <- Hmap, Ha, outcome_msisdn. cbn [map app snd].
        now rewrite <- app_assoc.
      * cbn [length]. lia.
      * rewrite Hfq. reflexivity.
    + destruct (iteration_false upstream settle (JInt b) jobId l l' Hit)
        as (Hs & Ha & Hr & He & _).
      unfold P. now rewrite Hs, Ha, Hr, He.
  - unfold P. cbn. auto.
  - exists (finish t_end per_second percent jobId clients l).
    split; [exact Hgo|]. cbn [finish returned events service].
    rewrite (primary_queue_drained upstream settle b jobId l0 l Hexit) in Hmap.
    cbn [map] in Hmap. rewrite app_nil_r in Hmap.
    split; [exact Hmap|]. split; [|exact Hfq].
    unfold batches_completed in *. rewrite count_where_app. cbn.
    rewrite Nat.add_0_r, Hbat. rewrite <- (length_map res_msisdn), Hmap.
    apply length_map.
Qed.

Lemma nonpositive_batch_size_never_retries_witness :
  exists out,
    Samples.run Samples.upstream_down Samples.in_order (JInt 0) 25
      Samples.six_subscribers = Some out /\
    map res_msisdn (returned out) = map msisdn Samples.six_subscribers /\
    batches_completed (events out) = length Samples.six_subscribers /\
    length (failedQueue (service out))
    = count_where (fun r => match willRetry r with
                            | Some true => true
                            | _ => false
                            end) (returned out).
Proof.
  apply (nonpositive_batch_size_never_retries Samples.upstream_down
           Samples.in_order 1000 1750 Samples.per_second Samples.percent
           0 "job-1" 25 Samples.six_subscribers).
  - intros k l. apply Permutation_refl.
  - lia.
  - vm_compute. lia.
Defined.

(** *** When every request is accepted *)

Lemma requeued_none (upstream : nat -> nat -> Client -> Attempt)
    (b : nat) (order : list (nat * Client)) :
  always_accepts upstream -> requeued upstream b order = [].
Proof.
  intros Hok. unfold requeued.
  induction order as [|ic order IH]; [reflexivity|].
  cbn [flat_map]. rewrite IH, app_nil_r.
  unfold requeue_of. specialize (Hok b (fst ic) (snd ic)).
  unfold fulfilled, attempt_at in *.
  destruct (reply (upstream b (fst ic) (snd ic))); [reflexivity|discriminate].
Qed.

(** X7.  When the upstream accepts every request, a run with a batch
    size [b >= 1] over [L] clients completes exactly [ceil(L / b)]
    batches, makes one request for each client, in the order of the input,
    and ends with [successful = totalRequests = L] and [failed = 0]. *)
Theorem all_accepted_run
    (upstream : nat -> nat -> Client -> Attempt)
    (settle : nat -> list (nat * Client) -> list (nat * Client))
    (t_start t_end : Z) (per_second percent : Z -> Z -> Z)
    (b : Z) (jobId : string) (fuel : nat) (clients : list Client) :
  (forall k l, Permutation (settle k l) l) ->
  1 <= b ->
  always_accepts upstream ->
  (total_weight clients < fuel)%nat ->
  exists out,
    processClients upstream settle t_start t_end per_second percent
      (JInt b) jobId fuel clients = Some out /\
    ceil_div (Z.of_nat (length clients)) (JInt b)
    = JInt (Z.of_nat (batches_completed (events out))) /\
    map res_msisdn (returned out) = map msisdn clients /\
    Forall (fun r => success r = true) (returned out) /\
    totalRequests (stats (service out)) = Z.of_nat (length clients) /\
    successful (stats (service out)) = Z.of_nat (length clients) /\
    failed (stats (service out)) = 0.
Proof.
  intros Hperm Hb Hok Hfuel.
  pose (L := Z.of_nat (length clients)).
  pose (P := fun l : Loop =>
               failedQueue (svc l) = [] /\
               counters_agree l /\
               Forall (fun r => success r = true) (results l) /\
               map res_msisdn (results l) ++ map msisdn (allClients l)
               = map msisdn clients /\
               let n := Z.of_nat (batches_completed (emitted l)) in
               let rest := Z.of_nat (length (allClients l)) in
               (rest + n * b = L \/ (rest = 0 /\ (n - 1) * b < L <= n * b))).
  destruct (run_keeps upstream settle t_start t_end per_second percent
              (JInt b) jobId fuel clients P Hperm Hfuel)
    as (l & Hgo & (Hfq & Hcnt & Hall & Hmap & Hn) & l0 & _ & Hexit).
  - intros l l' c (Hfq & Hcnt & Hsucc & Hmap & Hn) Hit.
    pose proof (counters_agree_step upstream settle (JInt b) jobId Hperm
                  l l' c Hcnt Hit) as Hcnt'.
    destruct c.
    + destruct (pass_shape upstream settle (JInt b) jobId l l' Hperm Hit)
        as (regular & retry & all' & fq' & order & Hbb & Ha & Hq & Hne & Hord
            & Hall' & Hfq' & Hres & Hbc).
      rewrite Hfq in Hq. symmetry in Hq. apply app_eq_nil in Hq.
      destruct Hq as [-> ->].
      assert (Hlr : length regular
                    = Nat.min (Z.to_nat (Z.max 1 (b - 0)))
                        (length (allClients l))).
      { destruct (build_batch_lengths _ _ _ _ _ _ _ Hbb) as [Hlr _].
        rewrite Hfq in Hlr. exact Hlr. }
      rewrite app_nil_r in Hord, Hres, Hne.
      unfold P. rewrite Hall', Hfq', Hres, Hbc, requeued_none by exact Hok.
      split; [reflexivity|]. split; [exact Hcnt'|]. split.
      { apply Forall_app. split; [exact Hsucc|].
        apply Forall_forall. intros r Hin. apply in_map_iff in Hin.
        destruct Hin as (ic & <- & _). rewrite outcome_success. apply Hok. }
      split.
      { rewrite map_app, map_map.
        rewrite (map_ext _ (fun ic => msisdn (snd ic)))
          by (intros ic; apply outcome_msisdn).
        rewrite <- (map_map snd msisdn), slots_clients.
        rewrite <- Hmap, Ha, map_app, <- app_assoc. reflexivity. }
      cbn zeta in Hn |- *. rewrite Ha, length_app in Hn, Hlr.
      assert (0 < length regular)%nat
        by (destruct regular; [congruence|cbn; lia]).
      destruct Hn as [Hn | [Hz _]]; [|lia].
      destruct (Z_lt_le_dec (Z.of_nat (length regular)) b) as [Hlt | Hge].
      * right. assert (length all' = 0)%nat by lia. split; lia.
      * left. lia.
    + destruct (iteration_false upstream settle (JInt b) jobId l l' Hit)
        as (Hs & Ha & Hr & He & _).
      unfold P. rewrite Hs, Ha, Hr, He. auto.
  - unfold P. split; [reflexivity|]. split; [apply counters_agree_entry|].
    split; [constructor|]. split; [reflexivity|]. cbn. left. fold L. lia.
  - exists (finish t_end per_second percent jobId clients l).
    split; [exact Hgo|]. cbn [finish returned events service].
    rewrite (primary_queue_drained upstream settle b jobId l0 l Hexit)
      in Hmap, Hn.
    cbn [map length] in Hmap, Hn. rewrite app_nil_r in Hmap.
    cbn zeta in Hn.
    assert (Hbatches : batches_completed
                         (emitted l
                          ++ [processingCompleted jobId (length clients)
                                (results l)
                                (getStats per_second percent t_end
                                   (stats (svc l)))])
                       = batches_completed (emitted l)).
    { unfold batches_completed. rewrite count_where_app. cbn. lia. }
    rewrite Hbatches.
    destruct (ceil_div_int L b Hb) as (k & Hk & Hkb). fold L.
    assert (Hlen : length (results l) = length clients).
    { rewrite <- (length_map res_msisdn), Hmap. apply length_map. }
    destruct Hcnt as (Ht & Hs & Hf & _).
    assert (Hfail : count_where (fun r => negb (success r)) (results l) = 0%nat).
    { apply count_where_none. intros r Hin. rewrite Forall_forall in Hall.
      now rewrite (Hall r Hin). }
    pose proof (count_where_split success (results l)) as Hsplit.
    split.
    { rewrite Hk. f_equal. destruct Hn as [Hn | [_ Hn]]; nia. }
    split; [exact Hmap|]. split; [exact Hall|].
    rewrite Ht, Hs, Hf, Hfail. repeat split; lia.
Qed.

Lemma all_accepted_run_witness :
  exists out,
    Samples.run Samples.upstream_up Samples.last_first (JInt 4) 25
      Samples.six_subscribers = Some out /\
    ceil_div 6 (JInt 4) = JInt (Z.of_nat (batches_completed (events out))) /\
    map res_msisdn (returned out) = map msisdn Samples.six_subscribers /\
    Forall (fun r => success r = true) (returned out) /\
    totalRequests (stats (service out)) = 6 /\
    successful (stats (service out)) = 6 /\
    failed (stats (service out)) = 0.
Proof.
  apply (all_accepted_run Samples.upstream_up Samples.last_first 1000 1750
           Samples.per_second Samples.percent 4 "job-1" 25
           Samples.six_subscribers).
  - intros k l. apply Permutation_sym, Permutation_rev.
  - lia.
  - intros k i c. reflexivity.
  - vm_compute. lia.
Defined.

(** *** No client is lost *)

(** Each request for [m] ends in one of three ways: paid, given up, or
    back on the retry queue. *)
Lemma requeued_settled (upstream : nat -> nat -> Client -> Attempt)
    (m : string) (b : nat) (order : list (nat * Client)) :
  let result_at := fun ic => outcome (attempt_at upstream b ic) (snd ic)
                               (is_retry_of (snd ic)) in
  (payments m (map result_at order) + given_up m (map result_at order)
   + count_where (about m) (requeued upstream b order)
   = count_where (fun ic => about m (snd ic)) order)%nat.
Proof.
  cbn zeta. unfold payments, given_up. rewrite !count_where_map.
  unfold requeued, count_where.
  induction order as [|ic order IH]; [reflexivity|].
  cbn [flat_map filter]. rewrite filter_app, length_app, requeue_of_about.
  unfold result_about in *. rewrite !outcome_msisdn.
  fold (about m (snd ic)).
  destruct (about m (snd ic)); cbn [andb]; [|cbn [length]; lia].
  set (a := attempt_at upstream b ic).
  set (o := outcome a (snd ic) (is_retry_of (snd ic))).
  assert (Hcase :
    (success o = true /\ willRetry o = None
     /\ requeue_of a (snd ic) = [])
    \/ (success o = false /\ willRetry o = Some false
        /\ requeue_of a (snd ic) = [])
    \/ (success o = false /\ willRetry o = Some true
        /\ length (requeue_of a (snd ic)) = 1%nat)).
  { unfold o, outcome, requeue_of.
    destruct (reply a); cbn [success willRetry]; [auto|].
    destruct (retryCount (snd ic) <? maxRetries)%nat; cbn [length]; auto. }
  destruct Hcase as [(-> & -> & ->)|[(-> & -> & ->)|(-> & -> & ->)]];
    cbn [length]; lia.
Qed.

(** X8.  With a batch size [b >= 1] no client is lost: when the run ends,
    each occurrence of a subscriber in the input has either been paid or
    been given up after a failure that was not put back on the retry
    queue; the payments and the final failures for a subscriber add up to
    the number of its occurrences. *)
Theorem every_client_settled
    (upstream : nat -> nat -> Client -> Attempt)
    (settle : nat -> list (nat * Client) -> list (nat * Client))
    (t_start t_end : Z) (per_second percent : Z -> Z -> Z)
    (b : Z) (jobId : string) (fuel : nat) (clients : list Client) :
  (forall k l, Permutation (settle k l) l) ->
  1 <= b ->
  (total_weight clients < fuel)%nat ->
  exists out,
    processClients upstream settle t_start t_end per_second percent
      (JInt b) jobId fuel clients = Some out /\
    failedQueue (service out) = [] /\
    forall m,
      (payments m (returned out) + given_up m (returned out)
       = count_where (about m) clients)%nat.
Proof.
  intros Hperm Hb Hfuel.
  pose (P := fun l : Loop =>
               forall m,
                 (payments m (results l) + given_up m (results l)
                  + count_where (about m) (pending l)
                  = count_where (about m) clients)%nat).
  destruct (run_keeps upstream settle t_start t_end per_second percent
              (JInt b) jobId fuel clients P Hperm Hfuel)
    as (l & Hgo & HP & l0 & _ & Hexit).
  - intros l l' c H Hit m. specialize (H m). destruct c.
    + destruct (pass_shape upstream settle (JInt b) jobId l l' Hperm Hit)
        as (regular & retry & all' & fq' & order & _ & Ha & Hq & _ & Hord
            & Hall & Hfq & Hres & _).
      rewrite (count_where_perm _ _ _ (pending_before l _ _ _ _ Ha Hq)) in H.
      pose proof (requeued_settled upstream m (S (batchIndex l)) order) as Hb'.
      cbn zeta in Hb'.
      unfold payments, given_up in Hb'.
      rewrite !(count_where_perm _ _ _ (Permutation_map _ Hord)) in Hb'.
      rewrite (count_where_perm _ _ _ Hord), count_where_slots in Hb'.
      unfold pending, payments, given_up in *. rewrite Hall, Hfq, Hres.
      rewrite !count_where_app in *. lia.
    + destruct (iteration_false upstream settle (JInt b) jobId l l' Hit)
        as (Hs & Ha & Hr & _).
      unfold pending in *. now rewrite Hs, Ha, Hr.
  - intros m. rewrite pending_entry. cbn. lia.
  - exists (finish t_end per_second percent jobId clients l).
    split; [exact Hgo|].
    pose proof (iteration_false_int upstream settle (JInt b) jobId b l0 l
                  eq_refl Hb Hexit) as Hend.
    cbn [finish returned service]. split.
    + unfold pending in Hend. now apply app_eq_nil in Hend.
    + intros m. specialize (HP m). rewrite Hend in HP. cbn in HP. lia.
Qed.

Lemma every_client_settled_witness :
  exists out,
    Samples.run (Samples.upstream_refusing "254700000004") Samples.last_first
      (JInt 5) 25 Samples.six_subscribers = Some out /\
    failedQueue (service out) = [] /\
    forall m,
      (payments m (returned out) + given_up m (returned out)
       = count_where (about m) Samples.six_subscribers)%nat.
Proof.
  apply (every_client_settled (Samples.upstream_refusing "254700000004")
           Samples.last_first 1000 1750 Samples.per_second Samples.percent
           5 "job-1" 25 Samples.six_subscribers).
  - intros k l. apply Permutation_sym, Permutation_rev.
  - lia.
  - vm_compute. lia.
Defined.

End PaymentMore.

(* ================================================================== *)
(** ** More about the scheduler *)
(* ================================================================== *)

Module SchedulerMore.
Import PaymentService SchedulerService SchedulerFacts ControllerFacts.

(** *** The hour slots, for every interval *)

Lemma slots_from_multiples (i : Z) (fuel : nat) (h : Z) :
  1 <= i -> 0 <= h -> Z.max 0 (24 - h) < Z.of_nat fuel ->
  exists l,
    slots_from fuel (JInt h) (JInt i) = Some l /\
    (forall x, In x l <-> h <= x < 24 /\ (x - h) mod i = 0) /\
    StronglySorted Z.lt l.
Proof.
  intros Hi. revert h.
  induction fuel as [|fuel IH]; intros h Hh Hfuel; [lia|].
  cbn [slots_from]. destruct (Z.ltb_spec h 24) as [Hlt|Hge].
  - cbn [Js.plus].
    destruct (IH (h + i)) as (l & Hl & Hin & Hsorted); [lia|lia|].
    rewrite Hl. cbn [option_map]. exists (h :: l).
    split; [reflexivity|]. split.
    + intros x. cbn [In]. rewrite Hin. split.
      * intros [<- | [Hx Hmod]].
        -- split; [lia|]. rewrite Z.sub_diag. apply Z.mod_0_l. lia.
        -- split; [lia|].
           replace (x - h) with (x - (h + i) + 1 * i) by lia.
           rewrite Z_mod_plus_full. exact Hmod.
      * intros [Hx Hmod].
        destruct (Z.eq_dec x h) as [->|Hne]; [now left|right].
        assert (Hge : i <= x - h).
        { destruct (Z_lt_le_dec (x - h) i) as [Hsmall|]; [|assumption].
          rewrite Z.mod_small in Hmod by lia. lia. }
        split; [lia|].
        replace (x - (h + i)) with (x - h + (-1) * i) by lia.
        rewrite Z_mod_plus_full. exact Hmod.
    + constructor; [exact Hsorted|].
      apply Forall_forall. intros x Hx. apply Hin in Hx. lia.
  - exists []. split; [reflexivity|]. split; [|constructor].
    intros x. cbn [In]. split; [tauto|lia].
Qed.

(** The slots of an interval of at least one hour: hour 0 first, then the
    other multiples of the interval below 24, in increasing order. *)
Lemma schedule_times_spec (i : Z) :
  1 <= i ->
  exists rest,
    getScheduleTimes (JInt i) = Some (0 :: rest) /\
    generateCronExpression (JInt i) = Some (0 :: rest) /\
    (forall x, In x (0 :: rest) <-> 0 <= x < 24 /\ x mod i = 0) /\
    StronglySorted Z.lt (0 :: rest).
Proof.
  intros Hi.
  destruct (slots_from_multiples i 25 0 Hi) as (l & Hl & Hin & Hsorted);
    [lia|cbn; lia|].
  assert (H0 : In 0 l).
  { apply Hin. split; [lia|]. apply Z.mod_0_l. lia. }
  destruct l as [|x rest]; [contradiction|].
  assert (x = 0) as ->.
  { destruct H0 as [H0|H0]; [exact H0|].
    apply StronglySorted_inv in Hsorted. destruct Hsorted as [_ Hall].
    rewrite Forall_forall in Hall. specialize (Hall 0 H0).
    assert (Hx : In x (x :: rest)) by now left.
    apply Hin in Hx. lia. }
  exists rest. unfold getScheduleTimes, generateCronExpression.
  split; [exact Hl|]. split; [exact Hl|]. split; [|exact Hsorted].
  intros y. rewrite Hin. now rewrite Z.sub_0_r.
Qed.

(** X9.  [getScheduleTimes] and [generateCronExpression] on every kind of
    interval.  For an integer interval of one hour or more (not only the
    1..12 the control plane lets through) the loop ends and the hours it
    lists are exactly the multiples of the interval below 24, in
    increasing order, starting with hour 0.  An interval of zero or less
    keeps the loop going for ever.  [NaN] and [Infinity] give hour 0
    alone. *)
Theorem schedule_times_for_every_interval (i : Z) :
  (1 <= i ->
   exists rest,
     getScheduleTimes (JInt i) = Some (0 :: rest) /\
     generateCronExpression (JInt i) = Some (0 :: rest) /\
     (forall x, In x (0 :: rest) <-> 0 <= x < 24 /\ x mod i = 0) /\
     StronglySorted Z.lt (0 :: rest)) /\
  (i <= 0 ->
   forall fuel, slots_from fuel (JInt 0) (JInt i) = None) /\
  getScheduleTimes JNaN = Some [0] /\
  generateCronExpression JNaN = Some [0] /\
  getScheduleTimes JInf = Some [0] /\
  generateCronExpression JInf = Some [0].
Proof.
  split; [apply schedule_times_spec|].
  split; [intros Hi fuel; now apply schedule_times_diverge|].
  repeat split; reflexivity.
Qed.

Lemma schedule_times_for_every_interval_witness :
  exists rest,
    getScheduleTimes (JInt 9) = Some (0 :: rest) /\
    generateCronExpression (JInt 9) = Some (0 :: rest) /\
    (forall x, In x (0 :: rest) <-> 0 <= x < 24 /\ x mod 9 = 0) /\
    StronglySorted Z.lt (0 :: rest).
Proof.
  refine (proj1 (schedule_times_for_every_interval 9) _). lia.
Defined.

(** *** The next run time *)

(** What the loop of [getNextRunTime] finds in a sorted list of hours. *)
Lemma first_slot_after_sorted (times : list Z) (h mi : Z) :
  StronglySorted Z.lt times ->
  match first_slot_after times h mi with
  | Some x =>
      In x times /\ (h < x \/ (x = h /\ mi = 0)) /\
      forall y, In y times -> h < y \/ (y = h /\ mi = 0) -> x <= y
  | None =>
      forall y, In y times -> ~ (h < y \/ (y = h /\ mi = 0))
  end.
Proof.
  induction 1 as [|t times Hsorted IH Hall]; cbn [first_slot_after].
  - intros y [].
  - rewrite Forall_forall in Hall.
    destruct (Z.ltb_spec h t) as [Hlt|Hge]; cbn [orb].
    + split; [now left|]. split; [now left|].
      intros y [<-|Hy] _; [lia|]. specialize (Hall y Hy). lia.
    + destruct (Z.eqb_spec t h) as [->|Hne]; cbn [andb].
      * destruct (Z.eqb_spec mi 0) as [->|Hmi].
        -- split; [now left|]. split; [now right|].
           intros y [<-|Hy] _; [lia|]. specialize (Hall y Hy). lia.
        -- destruct (first_slot_after times h mi) as [x|].
           ++ destruct IH as (Hin & Hx & Hmin).
              split; [now right|]. split; [exact Hx|].
              intros y [<-|Hy] Hp; [lia|]. now apply Hmin.
           ++ intros y [<-|Hy]; [lia|]. now apply IH.
      * destruct (first_slot_after times h mi) as [x|].
        -- destruct IH as (Hin & Hx & Hmin).
           split; [now right|]. split; [exact Hx|].
           intros y [<-|Hy] Hp; [lia|]. now apply Hmin.
        -- intros y [<-|Hy]; [lia|]. now apply IH.
Qed.

(** X10.  For an enabled and armed scheduler with an interval of one hour
    or more, [getNextRunTime] returns the earliest time, counted in whole
    minutes, at which the timer fires at or after the current minute:
    it is minute 0 of an armed hour, not before the current minute, at
    most 24 hours after it, and no armed hour of any day lies between the
    current minute and it.  (In minute 0 of an armed hour the time
    returned is the start of that very minute.) *)
Theorem next_run_is_earliest_slot (w : World) (i day h mi s ms : Z) :
  1 <= i ->
  enabled (settings w) = true ->
  scheduledTask w <> None ->
  intervalHours (settings w) = JInt i ->
  0 <= h < 24 -> 0 <= mi < 60 ->
  exists times day' h',
    generateCronExpression (JInt i) = Some times /\
    getNextRunTime w (Local day h mi s ms)
    = Returns (Some (Local day' h' 0 0 0)) /\
    In h' times /\
    minute_of day h mi <= minute_of day' h' 0 /\
    minute_of day' h' 0 <= minute_of day h mi + 24 * 60 /\
    forall d x,
      In x times -> minute_of day h mi <= minute_of d x 0 ->
      minute_of day' h' 0 <= minute_of d x 0.
Proof.
  intros Hi Hen Htask Hint Hh Hmi.
  destruct (schedule_times_spec i Hi) as (rest & Hst & Hcr & Hin & Hsorted).
  pose proof (first_slot_after_sorted (0 :: rest) h mi Hsorted) as Hfirst.
  unfold getNextRunTime. rewrite Hen, Hint, Hst.
  destruct (scheduledTask w) as [t|]; [|congruence]. cbn [negb orb].
  unfold minute_of.
  destruct (first_slot_after (0 :: rest) h mi) as [x|].
  - destruct Hfirst as (Hx & Hafter & Hmin).
    pose proof (proj1 (Hin x) Hx) as [Hx24 _].
    exists (0 :: rest), day, x.
    split; [exact Hcr|]. split.
    { cbn [setHours0]. rewrite Z.div_small, Z.mod_small by lia.
      now rewrite Z.add_0_r. }
    split; [exact Hx|]. split; [lia|]. split; [lia|].
    intros d y Hy Hle. pose proof (proj1 (Hin y) Hy) as [Hy24 _].
    destruct (Z_lt_le_dec day d); [lia|].
    destruct (Z.eq_dec d day) as [->|]; [|lia].
    assert (Hp : h < y \/ (y = h /\ mi = 0)) by lia.
    specialize (Hmin y Hy Hp). lia.
  - exists (0 :: rest), (day + 1), 0.
    split; [exact Hcr|]. split.
    { cbn [setHours0 nextDay]. change (0 / 24) with 0.
      change (0 mod 24) with 0. now rewrite Z.add_0_r. }
    split; [now left|]. split; [lia|]. split; [lia|].
    intros d y Hy Hle. pose proof (proj1 (Hin y) Hy) as [Hy24 _].
    destruct (Z_lt_le_dec day d); [lia|].
    destruct (Z.eq_dec d day) as [->|]; [|lia].
    specialize (Hfirst y Hy). lia.
Qed.

Lemma next_run_is_earliest_slot_witness :
  exists times day' h',
    generateCronExpression (JInt 5) = Some times /\
    getNextRunTime (Samples.every 5) (Local 0 16 30 0 0)
    = Returns (Some (Local day' h' 0 0 0)) /\
    In h' times /\
    minute_of 0 16 30 <= minute_of day' h' 0 /\
    minute_of day' h' 0 <= minute_of 0 16 30 + 24 * 60 /\
    forall d x,
      In x times -> minute_of 0 16 30 <= minute_of d x 0 ->
      minute_of day' h' 0 <= minute_of d x 0.
Proof.
  apply (next_run_is_earliest_slot (Samples.every 5) 5 0 16 30 0 0).
  - lia.
  - reflexivity.
  - discriminate.
  - reflexivity.
  - lia.
  - lia.
Defined.

(** *** The upcoming times and the hours of the timer *)

(** The next run time of an enabled and armed scheduler is minute 0 of
    an armed hour. *)
Lemma next_run_fires (w : World) (i : Z) (rest : list Z)
    (day h mi s ms : Z) :
  enabled (settings w) = true ->
  scheduledTask w <> None ->
  intervalHours (settings w) = JInt i ->
  getScheduleTimes (JInt i) = Some (0 :: rest) ->
  (forall x, In x (0 :: rest) -> 0 <= x < 24) ->
  exists day' h',
    getNextRunTime w (Local day h mi s ms)
    = Returns (Some (Local day' h' 0 0 0)) /\
    In h' (0 :: rest) /\
    (first_slot_after (0 :: rest) h mi = Some h' \/
     first_slot_after (0 :: rest) h mi = None) .
Proof.
  intros Hen Htask Hint Hst Hin.
  unfold getNextRunTime. rewrite Hen, Hint, Hst.
  destruct (scheduledTask w) as [t|]; [|congruence]. cbn [negb orb].
  destruct (first_slot_after (0 :: rest) h mi) as [x|] eqn:Hfirst.
  - pose proof (first_slot_after_in _ _ _ _ Hfirst) as Hx.
    specialize (Hin x Hx).
    exists day, x. split; [|split; [exact Hx|now left]].
    cbn [setHours0]. rewrite Z.div_small, Z.mod_small by lia.
    now rewrite Z.add_0_r.
  - exists (day + 1), 0. split; [|split; [now left|now right]].
    cbn [setHours0 nextDay]. change (0 / 24) with 0.
    change (0 mod 24) with 0. now rewrite Z.add_0_r.
Qed.

Lemma fires_at_add (i : Z) (times : list Z) (d : Date) :
  1 <= i -> 24 mod i = 0 ->
  (forall x, In x times <-> 0 <= x < 24 /\ x mod i = 0) ->
  fires_at times d -> fires_at times (addHours d (JInt i)).
Proof.
  intros Hi Hdiv Hin (day & h & -> & Hh).
  cbn [addHours]. exists (day + (h + i) / 24), ((h + i) mod 24).
  split; [reflexivity|]. apply Hin.
  split; [apply Z.mod_pos_bound; lia|].
  apply Hin in Hh. destruct Hh as [_ Hh].
  apply Z.mod_divide in Hdiv; [|lia]. apply Z.mod_divide in Hh; [|lia].
  apply Z.mod_divide; [lia|].
  rewrite Z.mod_eq by lia. apply Z.divide_sub_r.
  - apply Z.divide_add_r; [exact Hh|apply Z.divide_refl].
  - apply Z.divide_mul_l. exact Hdiv.
Qed.

Lemma following_fires (i : Z) (times : list Z) (n : nat) (d : Date) :
  1 <= i -> 24 mod i = 0 ->
  (forall x, In x times <-> 0 <= x < 24 /\ x mod i = 0) ->
  fires_at times d -> Forall (fires_at times) (following n d (JInt i)).
Proof.
  intros Hi Hdiv Hin. revert d.
  induction n as [|n IH]; intros d Hd; cbn [following]; constructor.
  - now apply (fires_at_add i).
  - apply IH. now apply (fires_at_add i).
Qed.

(** X11.  The times that [getNextRunTimes] lists are spaced by the
    interval, the hours of the timer are the multiples of the interval
    within each day.  For an interval between 1 and 23 hours the two
    agree exactly when the interval divides 24: then every time listed,
    whenever it is asked for and however many are asked for, is a time at
    which the timer fires; otherwise there is a moment at which a time is
    listed at which the timer does not fire. *)
Theorem upcoming_times_fire_iff_interval_divides_day (w : World) (i : Z) :
  1 <= i < 24 ->
  enabled (settings w) = true ->
  scheduledTask w <> None ->
  intervalHours (settings w) = JInt i ->
  exists times,
    generateCronExpression (JInt i) = Some times /\
    (24 mod i = 0 <->
     forall day h mi s ms count,
       exists upcoming,
         getNextRunTimes w (Local day h mi s ms) count = Returns upcoming /\
         Forall (fires_at times) upcoming).
Proof.
  intros Hi Hen Htask Hint.
  destruct (schedule_times_spec i (proj1 Hi))
    as (rest & Hst & Hcr & Hin & Hsorted).
  assert (Hbound : forall x, In x (0 :: rest) -> 0 <= x < 24).
  { intros x Hx. now apply Hin in Hx. }
  assert (Hrun : forall day h mi s ms count,
             exists day' h',
               getNextRunTimes w (Local day h mi s ms) count
               = Returns (Local day' h' 0 0 0
                          :: following (count - 1) (Local day' h' 0 0 0)
                               (JInt i)) /\
               In h' (0 :: rest) /\
               (first_slot_after (0 :: rest) h mi = Some h' \/
                first_slot_after (0 :: rest) h mi = None)).
  { intros day h mi s ms count.
    destruct (next_run_fires w i rest day h mi s ms Hen Htask Hint Hst
                Hbound) as (day' & h' & Hnext & Hh' & Hfirst).
    exists day', h'. split; [|now split].
    unfold getNextRunTimes. rewrite Hnext, Hen, Hint.
    destruct (scheduledTask w); [reflexivity|congruence]. }
  exists (0 :: rest). split; [exact Hcr|]. split.
  - intros Hdiv day h mi s ms count.
    destruct (Hrun day h mi s ms count) as (day' & h' & Hgo & Hh' & _).
    eexists. split; [exact Hgo|].
    assert (Hfirst : fires_at (0 :: rest) (Local day' h' 0 0 0))
      by (exists day', h'; now split).
    constructor; [exact Hfirst|].
    now apply (following_fires i).
  - intros Hall.
    destruct (Z.eq_dec (24 mod i) 0) as [|Hndiv]; [assumption|exfalso].
    set (L := i * (23 / i)).
    assert (HL : 0 <= L <= 23 /\ 24 <= L + i /\ L mod i = 0).
    { pose proof (Z.div_mod 23 i ltac:(lia)) as Hdm.
      pose proof (Z.mod_pos_bound 23 i ltac:(lia)) as Hmod.
      pose proof (Z.div_pos 23 i ltac:(lia) ltac:(lia)) as Hq.
      unfold L. split; [nia|]. split; [lia|].
      rewrite Z.mul_comm. apply Z.mod_mul. lia. }
    destruct HL as (HL23 & HLi & HLmod).
    assert (HLin : In L (0 :: rest)) by (apply Hin; split; [lia|exact HLmod]).
    destruct (Hall 0 L 0 0 0 2%nat) as (upcoming & Hup & Hfires).
    destruct (Hrun 0 L 0 0 0 2%nat) as (day' & h' & Hgo & Hh' & Hfirst).
    rewrite Hgo in Hup. injection Hup as <-.
    pose proof (first_slot_after_sorted (0 :: rest) L 0 Hsorted) as Hsl.
    assert (h' = L) as ->.
    { destruct Hfirst as [Hf|Hf]; rewrite Hf in Hsl.
      - destruct Hsl as (_ & Hafter & Hmin).
        specialize (Hmin L HLin (or_intror (conj eq_refl eq_refl))). lia.
      - exfalso. apply (Hsl L HLin). now right. }
    cbn [Nat.sub following addHours] in Hfires.
    apply Forall_inv_tail, Forall_inv in Hfires.
    destruct Hfires as (d & x & Heq & Hx). injection Heq as _ <-.
    apply Hin in Hx. destruct Hx as [_ Hx].
    replace ((L + i) mod 24) with (L + i - 24) in Hx.
    2:{ symmetry.
        transitivity ((L + i - 24 + 1 * 24) mod 24); [f_equal; lia|].
        rewrite Z_mod_plus_full. apply Z.mod_small. lia. }
    apply Hndiv. apply Z.mod_divide; [lia|].
    apply Z.mod_divide in Hx; [|lia]. apply Z.mod_divide in HLmod; [|lia].
    replace 24 with (L + i - (L + i - 24)) by lia.
    apply Z.divide_sub_r; [|exact Hx].
    apply Z.divide_add_r; [exact HLmod|apply Z.divide_refl].
Qed.

Lemma upcoming_times_fire_iff_interval_divides_day_witness :
  exists times,
    generateCronExpression (JInt 6) = Some times /\
    (24 mod 6 = 0 <->
     forall day h mi s ms count,
       exists upcoming,
         getNextRunTimes (Samples.every 6) (Local day h mi s ms) count
         = Returns upcoming /\
         Forall (fires_at times) upcoming).
Proof.
  apply (upcoming_times_fire_iff_interval_divides_day (Samples.every 6) 6).
  - lia.
  - reflexivity.
  - discriminate.
  - reflexivity.
Defined.

(** *** Starting the scheduler *)

(** [startScheduler] returns only when the settings could be saved and
    the list of hours could be made. *)
Lemma start_returned (w w' : World) (p : Partial) (now : Date)
    (r : Started) :
  startScheduler w p now = (w', Returns r) ->
  db_connected w = true /\
  exists hours,
    generateCronExpression (intervalHours (merge (settings w) p))
    = Some hours.
Proof.
  intros H. destruct w as [task job jobs sett sto dbc eff].
  unfold startScheduler, saveSchedulerState in H.
  cbn -[generateCronExpression getNextRunTime getNextRunTimes] in H.
  destruct dbc; [|discriminate]. split; [reflexivity|].
  cbn -[generateCronExpression getNextRunTime getNextRunTimes] in H.
  cbn -[generateCronExpression].
  destruct (generateCronExpression _) as [hours|]; [|discriminate].
  now exists hours.
Qed.

(** X12.  Whenever [startScheduler] returns, the next run time it returns
    is [null] and the list of upcoming times is empty: it clears
    [enabled] in memory (through [stopScheduler(false)]) after having
    saved [enabled = true], and [getNextRunTime] answers [null] for a
    scheduler that is not enabled.  It leaves the timer armed with the
    hours of the new interval, [enabled = true] in the store and
    [enabled = false] in memory, where [getNextRunTime] and
    [getNextRunTimes] keep answering [null] and the empty list. *)
Theorem start_reports_no_next_run (w w' : World) (p : Partial) (now : Date)
    (r : Started) :
  startScheduler w p now = (w', Returns r) ->
  nextRun r = None /\ upcomingSchedules r = [] /\
  (exists hours,
     generateCronExpression (intervalHours (merge (settings w) p))
     = Some hours /\
     scheduledTask w' = Some {| cronHours := hours |}) /\
  stored w' = Some (set_enabled (merge (settings w) p) true) /\
  settings w' = set_enabled (merge (settings w) p) false /\
  forall later count,
    getNextRunTime w' later = Returns None /\
    getNextRunTimes w' later count = Returns [].
Proof.
  intros H.
  destruct (start_returned w w' p now r H) as (Hdb & hours & Hgen).
  destruct (start_returns w p now hours Hdb Hgen)
    as (w0 & Hrun & Hsto & Htask & Hset & _).
  rewrite Hrun in H. injection H as <- <-.
  cbn [nextRun upcomingSchedules].
  split; [reflexivity|]. split; [reflexivity|].
  split; [now exists hours|]. split; [exact Hsto|].
  split; [exact Hset|].
  intros later count. unfold getNextRunTimes, getNextRunTime.
  rewrite Hset. cbn [set_enabled enabled negb orb]. now split.
Qed.

Lemma start_reports_no_next_run_witness :
  exists w' r,
    startScheduler Samples.idle Samples.no_settings Samples.half_past_four
    = (w', Returns r) /\
    nextRun r = None /\ upcomingSchedules r = [] /\
    scheduledTask w' = Some {| cronHours := [0; 4; 8; 12; 16; 20] |}.
Proof.
  eexists. eexists. split; [reflexivity|].
  destruct (start_reports_no_next_run Samples.idle _ Samples.no_settings
              Samples.half_past_four _ eq_refl)
    as (Hnext & Hup & _).
  split; [exact Hnext|]. split; [exact Hup|reflexivity].
Defined.

(** X13.  The first [getStatus] after a start (the database still
    answering) reports the scheduler as enabled and running, sets
    [enabled] in memory again, and gives the next run time that the start
    itself did not give: minute 0 of one of the hours the timer was armed
    with.  Any interval of one hour or more. *)
Theorem status_after_start (w w' : World) (p : Partial) (now : Date)
    (r : Started) (i day h mi s ms : Z) :
  startScheduler w p now = (w', Returns r) ->
  intervalHours (merge (settings w) p) = JInt i ->
  1 <= i ->
  let w'' := fst (getStatus w' (Local day h mi s ms)) in
  let status := snd (getStatus w' (Local day h mi s ms)) in
  st_enabled status = true /\ st_isRunning status = true /\
  settings w'' = set_enabled (merge (settings w) p) true /\
  exists hours day' h',
    scheduledTask w'' = Some {| cronHours := hours |} /\
    st_nextRun status = Returns (Some (Local day' h' 0 0 0)) /\
    In h' hours.
Proof.
  intros H Hint Hi. cbn zeta.
  destruct (start_returned w w' p now r H) as (Hdb & hours & Hgen).
  destruct (start_returns w p now hours Hdb Hgen)
    as (w0 & Hrun & Hsto & Htask & Hset & _).
  rewrite Hrun in H. injection H as <- _.
  destruct (start_stored w p now Hdb) as [_ Hdb'].
  rewrite Hrun in Hdb'. cbn [fst] in Hdb'.
  rewrite Hint in Hgen.
  destruct (schedule_times_spec i Hi) as (rest & Hst & Hcr & Hin & _).
  rewrite Hcr in Hgen. injection Hgen as <-.
  unfold getStatus, getSchedulerState. rewrite Hdb', Hsto.
  cbn [fst snd st_enabled st_isRunning st_nextRun set_enabled enabled
       with_settings settings scheduledTask].
  rewrite Htask, Hset. cbn [set_enabled intervalHours batchSize
                            includeInactive enabled].
  split; [reflexivity|]. split; [reflexivity|]. split; [reflexivity|].
  match goal with
  | |- context [getNextRunTime ?w1 _] =>
      destruct (next_run_fires w1 i rest day h mi s ms) as
        (day' & h' & Hnext & Hh' & _)
  end.
  - reflexivity.
  - cbn [with_settings scheduledTask]. rewrite Htask. discriminate.
  - exact Hint.
  - exact Hst.
  - intros x Hx. now apply Hin in Hx.
  - exists (0 :: rest), day', h'. split; [reflexivity|].
    split; [exact Hnext|exact Hh'].
Qed.

Lemma status_after_start_witness :
  let w' := fst (startScheduler Samples.idle Samples.no_settings
                   Samples.half_past_four) in
  let status := snd (getStatus w' (Local 0 16 30 0 0)) in
  st_enabled status = true /\ st_isRunning status = true /\
  exists hours day' h',
    scheduledTask (fst (getStatus w' (Local 0 16 30 0 0)))
    = Some {| cronHours := hours |} /\
    st_nextRun status = Returns (Some (Local day' h' 0 0 0)) /\
    In h' hours.
Proof.
  cbn zeta.
  destruct (status_after_start Samples.idle _ Samples.no_settings
              Samples.half_past_four _ 4 0 16 30 0 0 eq_refl eq_refl
              ltac:(lia))
    as (He & Hr & _ & Hn).
  split; [exact He|]. split; [exact Hr|exact Hn].
Defined.

(** *** Changing the settings *)

Lemma next_run_disabled (w : World) (later : Date) :
  enabled (settings w) = false -> getNextRunTime w later = Returns None.
Proof. intros H. unfold getNextRunTime. now rewrite H. Qed.

Lemma timer_fire_dispatches (w : World) (jobId : string) (c : Client)
    (clients : list Client) :
  job_is_running w = false ->
  dispatches (effects (timer_fire w jobId (inr (c :: clients))))
  = dispatches (effects w) ++ [jobId].
Proof.
  intros Hidle. unfold timer_fire. rewrite Hidle.
  unfold executeScheduledJob, launch, emit, note, dispatches.
  cbn [effects]. rewrite !flat_map_app. cbn [flat_map].
  now rewrite !app_nil_r.
Qed.

Lemma merge_all_of (s0 s : Settings) : merge s0 (all_of s) = s.
Proof. now destruct s. Qed.

Lemma set_enabled_same (s : Settings) (e : bool) :
  enabled s = e -> set_enabled s e = s.
Proof. intros <-. now destruct s. Qed.

Lemma merge_keeps_enabled (s : Settings) (p : Partial) :
  p_enabled p = None -> enabled (merge s p) = enabled s.
Proof. intros H. unfold merge. cbn [enabled]. now rewrite H. Qed.

(** X14.  [updateSettings] on a scheduler that is enabled in memory, with
    new settings that leave [enabled] alone and an interval for which the
    list of hours can be made: the timer is armed again, with the hours
    of the new interval, and the new settings are stored with
    [enabled = true]; [enabled] is left cleared in memory, as after every
    start. *)
Theorem update_rearms_enabled_scheduler (w : World) (p : Partial)
    (now : Date) (hours : list Z) :
  db_connected w = true ->
  enabled (settings w) = true ->
  p_enabled p = None ->
  generateCronExpression (intervalHours (merge (settings w) p))
  = Some hours ->
  let w' := updateSettings w p now in
  scheduledTask w' = Some {| cronHours := hours |} /\
  stored w' = Some (merge (settings w) p) /\
  settings w' = set_enabled (merge (settings w) p) false /\
  In (Emit (settingsUpdated (merge (settings w) p))) (effects w').
Proof.
  intros Hdb Hen Hp Hgen. cbn zeta.
  pose proof (merge_keeps_enabled (settings w) p Hp) as Hm.
  rewrite Hen in Hm.
  unfold updateSettings, saveSchedulerState.
  cbn [with_settings db_connected settings]. rewrite Hdb.
  cbn [fst note with_stored settings].
  change (settings (with_settings w (merge (settings w) p)))
    with (merge (settings w) p).
  rewrite Hen, Hm. cbn [andb].
  match goal with
  | |- context [startScheduler ?w0 ?p0 now] =>
      destruct (start_returns w0 p0 now hours) as
        (w1 & Hrun & Hsto & Htask & Hset & _)
  end.
  - exact Hdb.
  - cbn [settings]. now rewrite merge_all_of.
  - rewrite Hrun. cbn [fst emit note scheduledTask stored settings effects].
    cbn [settings] in Hsto, Hset. rewrite merge_all_of in Hsto, Hset.
    rewrite (set_enabled_same _ _ Hm) in Hsto, Hset.
    split; [exact Htask|]. split; [exact Hsto|]. split; [exact Hset|].
    apply in_or_app. right. now left.
Qed.

Lemma update_rearms_enabled_scheduler_witness :
  let p := {| p_intervalHours := Some (JInt 6); p_batchSize := None;
              p_includeInactive := None; p_enabled := None |} in
  let w' := updateSettings (Samples.every 4) p Samples.half_past_four in
  scheduledTask w' = Some {| cronHours := [0; 6; 12; 18] |} /\
  stored w' = Some (merge (settings (Samples.every 4)) p) /\
  settings w' = set_enabled (merge (settings (Samples.every 4)) p) false /\
  In (Emit (settingsUpdated (merge (settings (Samples.every 4)) p)))
    (effects w').
Proof.
  apply (update_rearms_enabled_scheduler (Samples.every 4)
           {| p_intervalHours := Some (JInt 6); p_batchSize := None;
              p_includeInactive := None; p_enabled := None |}
           Samples.half_past_four [0; 6; 12; 18]); reflexivity.
Defined.

(** X15.  [updateSettings] called on the state that [startScheduler]
    leaves, before a status request or a round of the status
    verification has set [enabled] in memory again: the scheduler is not
    restarted, and the settings are saved with [enabled = false].  The
    timer stays armed with the hours of the old interval and still
    starts jobs; a round of the status verification changes nothing any
    more, and the status reports a scheduler that is not enabled, with a
    running timer and no next run. *)
Theorem update_right_after_start (w w1 : World) (p0 p : Partial)
    (now later : Date) (r : Started) :
  startScheduler w p0 now = (w1, Returns r) ->
  p_enabled p = None ->
  let w2 := updateSettings w1 p later in
  (exists saved,
     stored w2 = Some saved /\ enabled saved = false /\
     saved = merge (set_enabled (merge (settings w) p0) false) p) /\
  scheduledTask w2 = scheduledTask w1 /\
  scheduledTask w2 <> None /\
  statusVerification w2 later = (w2, Returns tt) /\
  (let status := snd (getStatus w2 later) in
   st_enabled status = false /\ st_isRunning status = true /\
   st_nextRun status = Returns None) /\
  (forall jobId c clients,
     job_is_running w = false ->
     dispatches (effects (timer_fire w2 jobId (inr (c :: clients))))
     = dispatches (effects w2) ++ [jobId]).
Proof.
  intros H Hp. cbn zeta.
  destruct (start_returned w w1 p0 now r H) as (Hdb & hours & Hgen).
  destruct (start_returns w p0 now hours Hdb Hgen)
    as (w0 & Hrun & Hsto & Htask & Hset & _).
  rewrite Hrun in H. injection H as <- _.
  destruct (start_stored w p0 now Hdb) as [_ Hdb1].
  rewrite Hrun in Hdb1. cbn [fst] in Hdb1.
  assert (Hjob : currentJob w0 = currentJob w).
  { clear - Hrun Hdb Hgen.
    destruct w as [task job jobs sett sto dbc eff]. cbn in Hdb. subst dbc.
    unfold startScheduler, saveSchedulerState in Hrun.
    cbn -[generateCronExpression getNextRunTime getNextRunTimes] in Hrun.
    cbn -[generateCronExpression] in Hgen. rewrite Hgen in Hrun.
    unfold getNextRunTimes, getNextRunTime in Hrun.
    cbn -[generateCronExpression] in Hrun.
    injection Hrun as <-. reflexivity. }
  set (saved := merge (set_enabled (merge (settings w) p0) false) p).
  assert (Hoff : enabled saved = false).
  { unfold saved. now rewrite (merge_keeps_enabled _ p Hp). }
  assert (Hw2 : updateSettings w0 p later
                = emit (note (with_stored (with_settings w0 saved)
                                (Some saved)) (SaveState saved))
                    (settingsUpdated saved)).
  { unfold updateSettings, saveSchedulerState.
    cbn [with_settings db_connected settings]. rewrite Hdb1.
    cbn [fst note with_stored settings]. rewrite Hset.
    cbn [set_enabled enabled andb]. fold saved. reflexivity. }
  rewrite Hw2.
  set (w2 := emit (note (with_stored (with_settings w0 saved) (Some saved))
                     (SaveState saved)) (settingsUpdated saved)).
  assert (Hdb2 : db_connected w2 = true) by exact Hdb1.
  assert (Hsto2 : stored w2 = Some saved) by reflexivity.
  assert (Hset2 : settings w2 = saved) by reflexivity.
  assert (Htask2 : scheduledTask w2 = scheduledTask w0) by reflexivity.
  assert (Hjob2 : currentJob w2 = currentJob w) by exact Hjob.
  clearbody w2.
  split; [exists saved; repeat split; assumption|].
  split; [exact Htask2|]. split; [rewrite Htask2, Htask; discriminate|].
  split.
  { unfold statusVerification, getSchedulerState.
    rewrite Hdb2, Hsto2, Hset2, Hoff. reflexivity. }
  split.
  { unfold getStatus, getSchedulerState. rewrite Hdb2, Hsto2, Hset2, Hoff.
    cbn [snd st_enabled st_isRunning st_nextRun].
    rewrite (set_enabled_same _ _ Hoff).
    split; [exact Hoff|]. split.
    - change (scheduledTask (with_settings w2 saved))
        with (scheduledTask w2).
      now rewrite Htask2, Htask.
    - apply next_run_disabled. exact Hoff. }
  intros jobId c clients Hidle.
  apply timer_fire_dispatches.
  unfold job_is_running in *. now rewrite Hjob2.
Qed.

Lemma update_right_after_start_witness :
  let p := {| p_intervalHours := Some (JInt 6); p_batchSize := None;
              p_includeInactive := None; p_enabled := None |} in
  let w1 := fst (startScheduler Samples.idle Samples.no_settings
                   Samples.half_past_four) in
  let w2 := updateSettings w1 p Samples.half_past_four in
  (exists saved,
     stored w2 = Some saved /\ enabled saved = false /\
     intervalHours saved = JInt 6) /\
  scheduledTask w2 = Some {| cronHours := [0; 4; 8; 12; 16; 20] |} /\
  statusVerification w2 Samples.half_past_four = (w2, Returns tt).
Proof.
  cbn zeta.
  destruct (update_right_after_start Samples.idle _ Samples.no_settings
              {| p_intervalHours := Some (JInt 6); p_batchSize := None;
                 p_includeInactive := None; p_enabled := None |}
              Samples.half_past_four Samples.half_past_four _ eq_refl
              eq_refl)
    as ((saved & Hsto & Hoff & Heq) & Htask & _ & Hround & _).
  split; [|split; [exact Htask|exact Hround]].
  exists saved. split; [exact Hsto|]. split; [exact Hoff|].
  rewrite Heq. reflexivity.
Defined.

(** *** The status verification *)

(** A round that finds memory and store in agreement does nothing. *)
Lemma verification_idle (w : World) (s : Settings) (now : Date) :
  db_connected w = true -> stored w = Some s ->
  enabled (settings w) = enabled s ->
  statusVerification w now = (w, Returns tt).
Proof.
  intros Hdb Hsto Heq. unfold statusVerification, getSchedulerState.
  rewrite Hdb, Hsto, Heq. now rewrite Bool.eqb_reflx.
Qed.

(** What one round does when the list of hours of the stored interval
    can be made. *)
Lemma verification_round (w : World) (s : Settings) (now : Date)
    (hours : list Z) :
  db_connected w = true -> stored w = Some s ->
  generateCronExpression (intervalHours s) = Some hours ->
  exists w',
    statusVerification w now = (w', Returns tt) /\
    db_connected w' = true /\ stored w' = Some s /\
    currentJob w' = currentJob w /\
    ((enabled (settings w) = enabled s /\ w' = w) \/
     (enabled (settings w) = false /\ enabled s = true /\
      scheduledTask w <> None /\
      scheduledTask w' = scheduledTask w /\ enabled (settings w') = true) \/
     (enabled (settings w) = false /\ enabled s = true /\
      scheduledTask w = None /\
      scheduledTask w' = Some {| cronHours := hours |} /\
      enabled (settings w') = false) \/
     (enabled (settings w) = true /\ enabled s = false /\
      scheduledTask w' = None /\ enabled (settings w') = false)).
Proof.
  intros Hdb Hsto Hgen.
  destruct (Bool.bool_dec (enabled (settings w)) (enabled s)) as [Heq|Hne].
  { exists w. rewrite (verification_idle w s now Hdb Hsto Heq).
    repeat split; auto. }
  unfold statusVerification, getSchedulerState. rewrite Hdb, Hsto.
  destruct (enabled s) eqn:Hs, (enabled (settings w)) eqn:Hw;
    try congruence; cbn [Bool.eqb].
  - change (scheduledTask (with_settings w (set_enabled (settings w) true)))
      with (scheduledTask w).
    destruct (scheduledTask w) as [t|] eqn:Htask.
    + eexists. split; [reflexivity|].
      split; [exact Hdb|]. split; [exact Hsto|]. split; [reflexivity|].
      right. left. repeat split; auto; discriminate.
    + match goal with
      | |- context [startScheduler ?w0 ?p0 now] =>
          destruct (start_returns w0 p0 now hours) as
            (w1 & Hrun & Hsto1 & Htask1 & Hset1 & _);
            [exact Hdb|now rewrite merge_all_of|];
            pose proof (start_stored w0 p0 now Hdb) as [_ Hdb1]
      end.
      rewrite Hrun in Hdb1 |- *. cbn [fst] in Hdb1.
      rewrite merge_all_of in Hsto1, Hset1.
      rewrite (set_enabled_same _ _ Hs) in Hsto1.
      exists w1. split; [reflexivity|].
      split; [exact Hdb1|]. split; [exact Hsto1|]. split.
      { clear - Hrun Hdb Hgen.
        destruct w as [task job jobs sett sto dbc eff].
        cbn in Hdb. subst dbc.
        unfold startScheduler, saveSchedulerState in Hrun.
        cbn -[generateCronExpression getNextRunTime getNextRunTimes]
          in Hrun.
        rewrite Hgen in Hrun.
        unfold getNextRunTimes, getNextRunTime in Hrun.
        cbn -[generateCronExpression] in Hrun.
        injection Hrun as <-. reflexivity. }
      right. right. left. rewrite Hset1. repeat split; auto.
  - change (scheduledTask (with_settings w (set_enabled (settings w) false)))
      with (scheduledTask w).
    destruct (scheduledTask w) as [t|] eqn:Htask.
    + exists (stopScheduler
                (with_settings w (set_enabled (settings w) false)) false).
      split; [reflexivity|].
      split; [exact Hdb|]. split; [exact Hsto|]. split; [reflexivity|].
      right; right; right. repeat split; auto.
    + exists (with_settings w (set_enabled (settings w) false)).
      split; [reflexivity|].
      split; [exact Hdb|]. split; [exact Hsto|]. split; [reflexivity|].
      right; right; right. repeat split; auto.
Qed.

(** X16.  The status verification brings [enabled] in memory in line with
    the store within two rounds, and from then on changes nothing: for a
    scheduler whose store answers and holds an interval for which the
    list of hours can be made, after two rounds [enabled] is what the
    store says and a third round leaves the state as it is.  A scheduler
    that the store has enabled but that is neither enabled nor armed in
    memory is armed with the stored interval's hours; one that is enabled
    in memory but disabled in the store is disarmed.  The store and the
    current job are left alone. *)
Theorem verification_converges (w : World) (s : Settings)
    (now1 now2 now3 : Date) (hours : list Z) :
  db_connected w = true -> stored w = Some s ->
  generateCronExpression (intervalHours s) = Some hours ->
  exists w1 w2,
    statusVerification w now1 = (w1, Returns tt) /\
    statusVerification w1 now2 = (w2, Returns tt) /\
    statusVerification w2 now3 = (w2, Returns tt) /\
    enabled (settings w2) = enabled s /\
    stored w2 = Some s /\ currentJob w2 = currentJob w /\
    (enabled s = true -> enabled (settings w) = false ->
     scheduledTask w = None ->
     scheduledTask w2 = Some {| cronHours := hours |}) /\
    (enabled s = false -> enabled (settings w) = true ->
     scheduledTask w2 = None).
Proof.
  intros Hdb Hsto Hgen.
  destruct (verification_round w s now1 hours Hdb Hsto Hgen)
    as (w1 & Hr1 & Hdb1 & Hsto1 & Hjob1 & Hcase1).
  destruct (verification_round w1 s now2 hours Hdb1 Hsto1 Hgen)
    as (w2 & Hr2 & Hdb2 & Hsto2 & Hjob2 & Hcase2).
  exists w1, w2. split; [exact Hr1|]. split; [exact Hr2|].
  assert (Hflag : enabled (settings w2) = enabled s).
  { destruct Hcase2 as [[He ->]|[(_ & Hs & _ & _ & He)
                                |[(Hoff & Hs & Hnone & _)|(_ & Hs & _ & He)]]];
      try congruence.
    destruct Hcase1 as [[He1 ->]|[(_ & _ & _ & _ & He1)
                                 |[(_ & _ & _ & Harmed & _)
                                  |(_ & Hs1 & _)]]];
      congruence. }
  split; [exact (verification_idle w2 s now3 Hdb2 Hsto2 Hflag)|].
  split; [exact Hflag|]. split; [exact Hsto2|].
  split; [congruence|]. split.
  - intros Hs Hoff Hnone.
    destruct Hcase1 as [[He1 _]|[(_ & _ & Harmed & _)
                                |[(_ & _ & _ & Harmed1 & Hoff1)
                                 |(Hon & _)]]];
      try congruence.
    destruct Hcase2 as [[He2 _]|[(_ & _ & _ & Hsame & _)
                                |[(_ & _ & Hnone2 & _)|(Hon2 & _)]]];
      congruence.
  - intros Hs Hon.
    destruct Hcase1 as [[He1 _]|[(Hoff & _)|[(Hoff & _)
                                             |(_ & _ & Hnone1 & Hoff1)]]];
      try congruence.
    destruct Hcase2 as [[He2 ->]|[(_ & Hs2 & _)|[(_ & Hs2 & _)
                                                 |(Hon2 & _)]]];
      congruence.
Qed.

Lemma verification_converges_witness :
  let w := with_settings (with_task (Samples.every 4) None)
             (set_enabled (settings (Samples.every 4)) false) in
  exists w1 w2,
    statusVerification w Samples.half_past_four = (w1, Returns tt) /\
    statusVerification w1 Samples.half_past_four = (w2, Returns tt) /\
    statusVerification w2 Samples.half_past_four = (w2, Returns tt) /\
    enabled (settings w2) = true /\
    scheduledTask w2 = Some {| cronHours := [0; 4; 8; 12; 16; 20] |}.
Proof.
  cbn zeta.
  destruct (verification_converges
              (with_settings (with_task (Samples.every 4) None)
                 (set_enabled (settings (Samples.every 4)) false))
              (settings (Samples.every 4))
              Samples.half_past_four Samples.half_past_four
              Samples.half_past_four [0; 4; 8; 12; 16; 20]
              eq_refl eq_refl eq_refl)
    as (w1 & w2 & H1 & H2 & H3 & Hflag & _ & _ & Harm & _).
  exists w1, w2. split; [exact H1|]. split; [exact H2|].
  split; [exact H3|]. split; [exact Hflag|].
  apply Harm; reflexivity.
Defined.

(** X17.  A stop request that arrives while the database cannot be
    reached is answered with success and disarms the timer, but the row
    in the store still says [enabled = true] (the failed save is only
    logged); the first round of the status verification that reaches the
    database again starts the scheduler again, with the stored
    interval. *)
Theorem stop_without_database_is_undone (w : World) (s : Settings)
    (now : Date) (hours : list Z) :
  db_connected w = false ->
  stored w = Some s -> enabled s = true ->
  generateCronExpression (intervalHours s) = Some hours ->
  let w1 := fst (PaymentController.stopScheduler w) in
  let response := snd (PaymentController.stopScheduler w) in
  PaymentController.http_status response = 200 /\
  PaymentController.success response = true /\
  scheduledTask w1 = None /\ enabled (settings w1) = false /\
  stored w1 = Some s /\
  exists w2,
    statusVerification (with_db w1 true) now = (w2, Returns tt) /\
    scheduledTask w2 = Some {| cronHours := hours |} /\
    stored w2 = Some s.
Proof.
  intros Hdb Hsto Hs Hgen. cbn zeta.
  unfold PaymentController.stopScheduler, stopScheduler, saveSchedulerState.
  cbn [fst snd PaymentController.http_status PaymentController.success
       with_settings with_task db_connected].
  rewrite Hdb. cbn [fst].
  split; [reflexivity|]. split; [reflexivity|].
  split; [reflexivity|]. split; [reflexivity|].
  split; [exact Hsto|].
  match goal with
  | |- context [statusVerification ?w0 now] =>
      destruct (verification_round w0 s now hours eq_refl Hsto Hgen)
        as (w2 & Hround & _ & Hsto2 & _ & Hcase)
  end.
  exists w2. split; [exact Hround|]. split; [|exact Hsto2].
  destruct Hcase as [[He _]|[(_ & _ & Harmed & _)
                            |[(_ & _ & _ & Htask & _)|(Hon & _)]]].
  - cbn in He. congruence.
  - exfalso. now apply Harmed.
  - exact Htask.
  - discriminate Hon.
Qed.

Lemma stop_without_database_is_undone_witness :
  let w := with_db (Samples.every 4) false in
  let w1 := fst (PaymentController.stopScheduler w) in
  scheduledTask w1 = None /\
  stored w1 = Some (settings (Samples.every 4)) /\
  exists w2,
    statusVerification (with_db w1 true) Samples.half_past_four
    = (w2, Returns tt) /\
    scheduledTask w2 = Some {| cronHours := [0; 4; 8; 12; 16; 20] |}.
Proof.
  cbn zeta.
  destruct (stop_without_database_is_undone
              (with_db (Samples.every 4) false)
              (settings (Samples.every 4)) Samples.half_past_four
              [0; 4; 8; 12; 16; 20] eq_refl eq_refl eq_refl eq_refl)
    as (_ & _ & Hnone & _ & Hsto & w2 & Hround & Htask & _).
  split; [exact Hnone|]. split; [exact Hsto|].
  exists w2. split; [exact Hround|exact Htask].
Defined.

(** *** [initialize] *)

(** X18.  A schedule survives a restart of the process.  After a
    [startScheduler] that returned, a process that starts again with
    nothing armed and the same store is brought by [initialize] to the
    state the start had left: the timer armed with the same hours, the
    same settings, the same row in the store.  [initialize] also starts
    the status verification, and a second call of it does nothing. *)
Theorem schedule_survives_restart (w w' : World) (p : Partial)
    (now later : Date) (r : Started) (w0 : World) (b : Boot) :
  startScheduler w p now = (w', Returns r) ->
  scheduledTask w0 = None ->
  stored w0 = stored w' ->
  db_connected w0 = true ->
  isInitialized b = false ->
  let b' := {| isInitialized := true; statusTimers := S (statusTimers b) |} in
  exists w0',
    initialize w0 b later = (w0', Returns b') /\
    scheduledTask w0' = scheduledTask w' /\
    settings w0' = settings w' /\
    stored w0' = stored w' /\
    initialize w0' b' later = (w0', Returns b').
Proof.
  intros H Hnone Hsame Hdb0 Hb. cbn zeta.
  destruct (start_returned w w' p now r H) as (Hdb & hours & Hgen).
  destruct (start_returns w p now hours Hdb Hgen)
    as (w1 & Hrun & Hsto & Htask & Hset & _).
  rewrite Hrun in H. injection H as <- _.
  set (saved := set_enabled (merge (settings w) p) true) in *.
  rewrite Hsto in Hsame.
  unfold initialize, createSchedulerStateTable, createProcessingJobTable,
    getSchedulerState.
  rewrite Hb, Hdb0, Hsame. cbn [saved set_enabled enabled].
  fold saved.
  change (settings (with_settings w0 (merge (settings w0) (all_of saved))))
    with (merge (settings w0) (all_of saved)).
  rewrite !merge_all_of.
  destruct (start_returns (with_settings w0 saved) (all_of saved) later hours)
    as (w2 & Hrun2 & Hsto2 & Htask2 & Hset2 & _).
  - exact Hdb0.
  - cbn [settings with_settings]. now rewrite merge_all_of.
  - rewrite Hrun2. exists w2. split; [reflexivity|].
    cbn [settings with_settings] in Hsto2, Hset2.
    rewrite merge_all_of in Hsto2, Hset2.
    rewrite (set_enabled_same saved true eq_refl) in Hsto2, Hset2.
    split; [congruence|]. split.
    + rewrite Hset2, Hset. reflexivity.
    + split; [congruence|reflexivity].
Qed.

Lemma schedule_survives_restart_witness :
  let w' := fst (startScheduler Samples.idle Samples.no_settings
                   Samples.half_past_four) in
  let w0 := with_stored Samples.idle (stored w') in
  let b := {| isInitialized := false; statusTimers := 0 |} in
  let b' := {| isInitialized := true; statusTimers := 1 |} in
  exists w0',
    initialize w0 b Samples.half_past_four = (w0', Returns b') /\
    scheduledTask w0' = Some {| cronHours := [0; 4; 8; 12; 16; 20] |}.
Proof.
  cbn zeta.
  destruct (schedule_survives_restart Samples.idle _ Samples.no_settings
              Samples.half_past_four Samples.half_past_four _
              (with_stored Samples.idle
                 (stored (fst (startScheduler Samples.idle
                                 Samples.no_settings
                                 Samples.half_past_four))))
              {| isInitialized := false; statusTimers := 0 |}
              eq_refl eq_refl eq_refl eq_refl eq_refl)
    as (w0' & Hinit & Htask & _).
  exists w0'. split; [exact Hinit|]. rewrite Htask. reflexivity.
Defined.

(** X19.  A stop survives a restart too, when the database can be
    reached: [stopScheduler] stores the settings with [enabled = false],
    and [initialize] in a process that starts with that store arms
    nothing and changes nothing; it starts the status verification. *)
Theorem stop_survives_restart (w w0 : World) (b : Boot) (later : Date) :
  db_connected w = true ->
  db_connected w0 = true ->
  stored w0 = stored (stopScheduler w true) ->
  isInitialized b = false ->
  stored (stopScheduler w true) = Some (set_enabled (settings w) false) /\
  scheduledTask (stopScheduler w true) = None /\
  initialize w0 b later
  = (w0, Returns {| isInitialized := true;
                    statusTimers := S (statusTimers b) |}).
Proof.
  intros Hdb Hdb0 Hsame Hb.
  assert (Hsto : stored (stopScheduler w true)
                 = Some (set_enabled (settings w) false)).
  { unfold stopScheduler, saveSchedulerState.
    cbn [with_settings with_task db_connected]. rewrite Hdb. reflexivity. }
  split; [exact Hsto|]. split.
  { unfold stopScheduler, saveSchedulerState.
    cbn [with_settings with_task db_connected]. rewrite Hdb. reflexivity. }
  rewrite Hsto in Hsame.
  unfold initialize, createSchedulerStateTable, createProcessingJobTable,
    getSchedulerState.
  rewrite Hb, Hdb0, Hsame. reflexivity.
Qed.

Lemma stop_survives_restart_witness :
  let w0 := with_stored Samples.idle
              (stored (stopScheduler (Samples.every 4) true)) in
  initialize w0 {| isInitialized := false; statusTimers := 0 |}
    Samples.half_past_four
  = (w0, Returns {| isInitialized := true; statusTimers := 1 |}).
Proof.
  cbn zeta.
  exact (proj2 (proj2 (stop_survives_restart (Samples.every 4)
                         (with_stored Samples.idle
                            (stored (stopScheduler (Samples.every 4) true)))
                         {| isInitialized := false; statusTimers := 0 |}
                         Samples.half_past_four eq_refl eq_refl eq_refl
                         eq_refl))).
Defined.

(** X20.  A process that starts while the database cannot be reached
    stays without schedule and without status verification:
    [initialize] arms nothing, sets no verification timer and marks the
    scheduler as initialized, so that every later call of [initialize],
    whatever the state then, does nothing. *)
Theorem boot_without_database (w : World) (b : Boot) (now : Date) :
  isInitialized b = false ->
  db_connected w = false ->
  let b' := {| isInitialized := true; statusTimers := statusTimers b |} in
  initialize w b now = (w, Returns b') /\
  forall w2 later, initialize w2 b' later = (w2, Returns b').
Proof.
  intros Hb Hdb. cbn zeta. split; [|reflexivity].
  unfold initialize, createSchedulerStateTable. rewrite Hb, Hdb. reflexivity.
Qed.

Lemma boot_without_database_witness :
  let b' := {| isInitialized := true; statusTimers := 0 |} in
  initialize (with_db (Samples.every 4) false)
    {| isInitialized := false; statusTimers := 0 |} Samples.half_past_four
  = (with_db (Samples.every 4) false, Returns b') /\
  forall w2 later, initialize w2 b' later = (w2, Returns b').
Proof.
  apply (boot_without_database (with_db (Samples.every 4) false)
           {| isInitialized := false; statusTimers := 0 |}
           Samples.half_past_four); reflexivity.
Defined.

(** *** The end of a job *)

Lemma map_delete_other (k k' : string) (m : list (string * Job)) :
  In k (map fst m) -> k <> k' -> In k (map fst (map_delete k' m)).
Proof.
  intros Hin Hne. induction m as [|[k0 v] m IH]; [contradiction|].
  cbn [map_delete]. destruct (String.eqb_spec k0 k') as [->|Hk0].
  - destruct Hin as [Hin|Hin]; [cbn in Hin; congruence|auto].
  - destruct Hin as [Hin|Hin]; [now left|right; auto].
Qed.

Lemma dispatches_app (l1 l2 : list Effect) :
  dispatches (l1 ++ l2) = dispatches l1 ++ dispatches l2.
Proof. unfold dispatches. apply flat_map_app. Qed.

(** X21.  The end of any job lifts the guard of the timer for all jobs.
    When a job ends, whether it completes, fails, or is a manual job that
    fails at once because the clients cannot be fetched or there are
    none, [currentJob] is cleared whichever job it was.  A job [other]
    that is still running stays in [runningJobs], but the next fire of
    the timer is not skipped: it calls the dispatch engine for another
    job. *)
Theorem end_of_any_job_lifts_guard (w w1 : World) (ended other : string)
    (p : Partial) (e : string) (total : nat) (scheduled : bool)
    (nextId : string) (c : Client) (clients : list Client) :
  In other (map fst (runningJobs w)) ->
  other <> ended ->
  w1 = job_done w ended total scheduled \/
  w1 = job_failed w ended e scheduled \/
  w1 = executeManualJob w p ended (inr []) \/
  w1 = executeManualJob w p ended (inl e) ->
  In other (map fst (runningJobs w1)) /\
  currentJob w1 = None /\
  dispatches (effects w1) = dispatches (effects w) /\
  dispatches (effects (timer_fire w1 nextId (inr (c :: clients))))
  = dispatches (effects w) ++ [nextId].
Proof.
  intros Hin Hne Hw1.
  assert (Hfailed : forall w0 msg sch,
             runningJobs w0 = runningJobs w ->
             dispatches (effects w0) = dispatches (effects w) ->
             In other (map fst (runningJobs (job_failed w0 ended msg sch))) /\
             currentJob (job_failed w0 ended msg sch) = None /\
             dispatches (effects (job_failed w0 ended msg sch))
             = dispatches (effects w)).
  { intros w0 msg sch Hjobs Heff. unfold job_failed, emit, note.
    cbn [runningJobs currentJob effects with_jobs].
    rewrite Hjobs, !dispatches_app, Heff. cbn. rewrite !app_nil_r.
    split; [now apply map_delete_other|now split]. }
  assert (H : In other (map fst (runningJobs w1)) /\
              currentJob w1 = None /\
              dispatches (effects w1) = dispatches (effects w)).
  { destruct Hw1 as [-> | [-> | [-> | ->]]].
    - unfold job_done.
      assert (Hnote : dispatches (effects (note w (UpdateJob ended completed
                                                     None)))
                      = dispatches (effects w)).
      { unfold note. cbn [effects]. rewrite dispatches_app. cbn.
        apply app_nil_r. }
      destruct scheduled;
        [destruct (currentJob (note w (UpdateJob ended completed None)))|].
      + unfold emit, note. cbn [runningJobs currentJob effects with_jobs].
        rewrite !dispatches_app. cbn. rewrite !app_nil_r.
        split; [now apply map_delete_other|now split].
      + now apply Hfailed.
      + unfold emit, note. cbn [runningJobs currentJob effects with_jobs].
        rewrite !dispatches_app. cbn. rewrite !app_nil_r.
        split; [now apply map_delete_other|now split].
    - now apply Hfailed.
    - now apply Hfailed.
    - now apply Hfailed. }
  destruct H as (Hother & Hjob & Heff).
  split; [exact Hother|]. split; [exact Hjob|]. split; [exact Heff|].
  rewrite timer_fire_dispatches; [now rewrite Heff|].
  unfold job_is_running. now rewrite Hjob.
Qed.

Lemma end_of_any_job_lifts_guard_witness :
  let w := executeManualJob Samples.busy Samples.no_settings "job-2"
             (inr Samples.six_subscribers) in
  let w1 := job_done w "job-2" 6 false in
  job_is_running w = true /\
  In "job-1" (map fst (runningJobs w1)) /\
  currentJob w1 = None /\
  dispatches (effects (timer_fire w1 "job-3" (inr Samples.six_subscribers)))
  = ["job-2"; "job-3"].
Proof.
  cbn zeta. split; [reflexivity|].
  destruct (end_of_any_job_lifts_guard
              (executeManualJob Samples.busy Samples.no_settings "job-2"
                 (inr Samples.six_subscribers))
              (job_done (executeManualJob Samples.busy Samples.no_settings
                           "job-2" (inr Samples.six_subscribers))
                 "job-2" 6 false)
              "job-2" "job-1" Samples.no_settings "" 6 false "job-3"
              (Samples.subscriber "254700000001")
              (tl Samples.six_subscribers))
    as (Hother & Hjob & _ & Hfire).
  - cbn. auto.
  - discriminate.
  - now left.
  - split; [exact Hother|]. split; [exact Hjob|exact Hfire].
Defined.

(** *** [stopAllJobs] *)

Lemma stopped_by_user_fold (keys : list (string * Job)) (w : World) :
  let w' := fold_left (fun w' entry => stopped_by_user w' (fst entry))
              keys w in
  effects w'
  = effects w
    ++ map (fun entry => UpdateJob (fst entry) failed_job
                           (Some "Job stopped by user")) keys /\
  scheduledTask w' = scheduledTask w /\ currentJob w' = currentJob w /\
  settings w' = settings w /\ stored w' = stored w /\
  db_connected w' = db_connected w.
Proof.
  cbn zeta. revert w. induction keys as [|k keys IH]; intros w.
  - cbn. now rewrite app_nil_r.
  - cbn [fold_left map]. destruct (IH (stopped_by_user w (fst k)))
      as (He & Ht & Hj & Hs & Hst & Hd).
    rewrite He, Ht, Hj, Hs, Hst, Hd. unfold stopped_by_user, note.
    cbn [effects scheduledTask currentJob settings stored db_connected].
    now rewrite <- app_assoc.
Qed.

Lemma job_updates_app (k : string) (l1 l2 : list Effect) :
  job_updates k (l1 ++ l2) = job_updates k l1 ++ job_updates k l2.
Proof. unfold job_updates. apply flat_map_app. Qed.

Lemma marks_dispatch_nothing (keys : list (string * Job)) :
  dispatches (map (fun entry => UpdateJob (fst entry) failed_job
                                  (Some "Job stopped by user")) keys) = [].
Proof. induction keys as [|k keys IH]; [reflexivity|exact IH]. Qed.

Lemma job_updates_update (jobId k : string) (st : JobStatus)
    (msg : option string) (l : list Effect) :
  job_updates jobId (UpdateJob k st msg :: l)
  = (if String.eqb k jobId then [(st, msg)] else []) ++ job_updates jobId l.
Proof. reflexivity. Qed.

Lemma marks_of (jobId : string) (keys : list (string * Job)) :
  exists n,
    job_updates jobId
      (map (fun entry => UpdateJob (fst entry) failed_job
                           (Some "Job stopped by user")) keys)
    = repeat (failed_job, Some "Job stopped by user") n /\
    (In jobId (map fst keys) -> n <> 0%nat).
Proof.
  induction keys as [|[k v] keys (n & IH & Hn)].
  - exists 0%nat. split; [reflexivity|intros []].
  - cbn [map fst]. rewrite job_updates_update, IH.
    destruct (String.eqb_spec k jobId) as [->|Hk].
    + exists (S n). split; [reflexivity|discriminate].
    + exists n. split; [reflexivity|].
      intros [Heq|Hin]; [congruence|auto].
Qed.

Lemma last_repeat {A : Type} (l : list A) (x d : A) (n : nat) :
  n <> 0%nat -> last (l ++ repeat x n) d = x.
Proof.
  destruct n as [|n]; [congruence|intros _].
  change (repeat x (S n)) with (x :: repeat x n).
  rewrite repeat_cons, app_assoc. apply last_last.
Qed.

(** X22.  [stopAllJobs] forgets the jobs but does not stop them.  It
    disarms the timer, clears [enabled], [currentJob] and [runningJobs],
    and sends the jobs table, for every job it knew, the update that
    marks it as failed ("Job stopped by user"); the dispatch engine is
    not told anything.  When the run of a job stopped this way comes to
    its end, the job sends its own result after that mark: a manual job
    is recorded and announced as completed; a scheduled job, which finds
    [currentJob] cleared, as failed with the message of the TypeError. *)
Theorem stop_all_jobs_forgets_running_jobs (w : World) (jobId : string)
    (total : nat) (scheduled : bool) :
  In jobId (map fst (runningJobs w)) ->
  let w1 := stopAllJobs w in
  scheduledTask w1 = None /\ enabled (settings w1) = false /\
  currentJob w1 = None /\ runningJobs w1 = [] /\
  dispatches (effects w1) = dispatches (effects w) /\
  last (job_updates jobId (effects w1)) (running, None)
  = (failed_job, Some "Job stopped by user") /\
  let w2 := job_done w1 jobId total scheduled in
  last (job_updates jobId (effects w2)) (running, None)
  = (if scheduled
     then (failed_job,
           Some "Cannot set properties of null (setting 'status')")
     else (completed, None)) /\
  last (effects w2) (Emit schedulerStopped)
  = Emit (if scheduled
          then jobFailed jobId
                 "Cannot set properties of null (setting 'status')" true
          else jobCompleted jobId total false).
Proof.
  intros Hin. cbn zeta.
  assert (H1 : exists before,
             effects (stopAllJobs w)
             = before
               ++ map (fun entry => UpdateJob (fst entry) failed_job
                                      (Some "Job stopped by user"))
                    (runningJobs w) /\
             dispatches before = dispatches (effects w) /\
             scheduledTask (stopAllJobs w) = None /\
             enabled (settings (stopAllJobs w)) = false /\
             currentJob (stopAllJobs w) = None /\
             runningJobs (stopAllJobs w) = []).
  { unfold stopAllJobs.
    set (w0 := stopScheduler w true).
    assert (H0 : scheduledTask w0 = None /\ enabled (settings w0) = false /\
                 runningJobs w0 = runningJobs w /\
                 dispatches (effects w0) = dispatches (effects w)).
    { unfold w0, stopScheduler, saveSchedulerState.
      cbn [with_settings with_task db_connected].
      destruct (db_connected w);
        cbn [fst emit note with_stored with_settings with_task effects
             scheduledTask settings set_enabled enabled runningJobs];
        rewrite ?dispatches_app; cbn; rewrite ?app_nil_r; auto. }
    destruct H0 as (Htask0 & Hoff0 & Hjobs0 & Hdisp0).
    set (w2 := match currentJob w0 with
               | Some job =>
                   with_jobs (stopped_by_user w0 (job_id job)) None
                     (runningJobs w0)
               | None => w0
               end).
    assert (H2 : scheduledTask w2 = None /\ enabled (settings w2) = false /\
                 runningJobs w2 = runningJobs w /\
                 dispatches (effects w2) = dispatches (effects w) /\
                 currentJob w2 = None).
    { unfold w2. destruct (currentJob w0) as [job|] eqn:Hjob.
      - unfold stopped_by_user, note.
        cbn [with_jobs scheduledTask settings runningJobs effects
             currentJob].
        rewrite dispatches_app. cbn. rewrite app_nil_r. auto.
      - auto. }
    destruct H2 as (Htask2 & Hoff2 & Hjobs2 & Hdisp2 & Hjob2).
    destruct (stopped_by_user_fold (runningJobs w2) w2)
      as (Heff & Htask3 & Hjob3 & Hset3 & _).
    cbn zeta in Heff, Htask3, Hjob3, Hset3.
    cbn [with_jobs scheduledTask settings currentJob runningJobs effects].
    exists (effects w2). rewrite Heff, Htask3, Hjob3, Hset3, Hjobs2.
    auto 10. }
  destruct H1 as (before & Heff & Hdisp & Htask & Hoff & Hjob & Hjobs).
  set (w1 := stopAllJobs w) in *. clearbody w1.
  destruct (marks_of jobId (runningJobs w)) as (n & Hmarks & Hn).
  specialize (Hn Hin).
  split; [exact Htask|]. split; [exact Hoff|]. split; [exact Hjob|].
  split; [exact Hjobs|]. split.
  { rewrite Heff, dispatches_app, marks_dispatch_nothing, Hdisp.
    apply app_nil_r. }
  split.
  { rewrite Heff, job_updates_app, Hmarks. now apply last_repeat. }
  unfold job_done. cbn [note currentJob]. rewrite Hjob.
  destruct scheduled.
  - unfold job_failed, emit, note. cbn [effects with_jobs].
    split; [|apply last_last].
    rewrite !job_updates_app. cbn [job_updates flat_map].
    rewrite String.eqb_refl. cbn [app].
    rewrite !app_nil_r. apply last_last.
  - unfold emit, note. cbn [effects with_jobs].
    split; [|apply last_last].
    rewrite !job_updates_app. cbn [job_updates flat_map].
    rewrite String.eqb_refl. cbn [app].
    rewrite !app_nil_r. apply last_last.
Qed.

Lemma stop_all_jobs_forgets_running_jobs_witness :
  let w1 := stopAllJobs Samples.busy in
  currentJob w1 = None /\ runningJobs w1 = [] /\
  last (job_updates "job-1" (effects (job_done w1 "job-1" 6 true)))
    (running, None)
  = (failed_job, Some "Cannot set properties of null (setting 'status')").
Proof.
  cbn zeta.
  destruct (stop_all_jobs_forgets_running_jobs Samples.busy "job-1" 6 true)
    as (_ & _ & Hjob & Hjobs & _ & _ & Hlast & _).
  - cbn. auto.
  - split; [exact Hjob|]. split; [exact Hjobs|exact Hlast].
Defined.

End SchedulerMore.

(* ================================================================== *)
(** ** More about the control plane *)
(* ================================================================== *)

Module ControllerMore.
Import PaymentService SchedulerService PaymentController.

(** X23.  A manual run is answered before the job has done anything.
    Whenever the database answers the connection test and the batch size
    passes the range check, the response is 200 with [success = true],
    whatever becomes of the job: with clients to process the dispatch
    engine is called with the batch size as parsed; when the clients
    cannot be fetched or there are none, the job fails at once (it is
    marked as failed and [jobFailed] is emitted), nothing is dispatched,
    and the response is the same. *)
Theorem manual_run_answered_before_the_job (w : World) (body : Body)
    (jobId : string) (fetched : string + list Client) :
  db_connected w = true ->
  bad_batch (requested_size body) = false ->
  let w' := fst (runManualJob w body jobId fetched) in
  let response := snd (runManualJob w body jobId fetched) in
  http_status response = 200 /\ success response = true /\
  error response = None /\
  match fetched with
  | inr (c :: clients) =>
      dispatches (effects w') = dispatches (effects w) ++ [jobId] /\
      In (Dispatch (c :: clients) (requested_size body) jobId) (effects w')
  | inr [] =>
      effects w'
      = effects w
        ++ [UpdateJob jobId failed_job
              (Some "No clients found for processing");
            Emit (jobFailed jobId "No clients found for processing" false)]
  | inl e =>
      effects w'
      = effects w
        ++ [UpdateJob jobId failed_job (Some e);
            Emit (jobFailed jobId e false)]
  end.
Proof.
  intros Hdb Hsize. cbn zeta. unfold runManualJob.
  rewrite Hdb. cbn [negb]. fold (requested_size body). rewrite Hsize.
  cbn [fst snd http_status success error].
  split; [reflexivity|]. split; [reflexivity|]. split; [reflexivity|].
  destruct fetched as [e|[|c clients]].
  - unfold executeManualJob, job_failed, emit, note.
    cbn [effects with_jobs]. now rewrite <- app_assoc.
  - unfold executeManualJob, job_failed, emit, note.
    cbn [effects with_jobs]. now rewrite <- app_assoc.
  - unfold executeManualJob, launch, emit, note.
    cbn [effects with_jobs merge batchSize p_batchSize or_else]. split.
    + unfold dispatches. rewrite !flat_map_app. cbn.
      now rewrite !app_nil_r.
    + apply in_or_app. right. now left.
Qed.

Lemma manual_run_answered_before_the_job_witness :
  let w' := fst (runManualJob Samples.idle
                   (Samples.request VUndefined (VStr "abc")) "job-1"
                   (inr [])) in
  let response := snd (runManualJob Samples.idle
                         (Samples.request VUndefined (VStr "abc")) "job-1"
                         (inr [])) in
  http_status response = 200 /\ success response = true /\
  error response = None /\
  effects w'
  = [UpdateJob "job-1" failed_job (Some "No clients found for processing");
     Emit (jobFailed "job-1" "No clients found for processing" false)].
Proof.
  apply (manual_run_answered_before_the_job Samples.idle
           (Samples.request VUndefined (VStr "abc")) "job-1" (inr []));
    reflexivity.
Defined.

(** X24.  The job history is never read with a limit outside 1..100.
    Whatever the [limit] of the request, either it is refused with
    status 400, or the query is built with a [LIMIT] between 1 and 100:
    the number the limit parses to, or 10 when the limit is missing or
    does not parse to a number (a value that the range check lets
    through and [getRecentJobs] replaces).  Without the database the
    answer is an empty list with status 200. *)
Theorem job_history_limit_within_bounds (w : World)
    (query : Z -> list string) (limit : jsval) :
  getJobHistory w query limit
  = (400, inl "Limit must be between 1 and 100") \/
  exists n,
    1 <= n <= 100 /\
    getJobHistory w query limit
    = (200, inr (if db_connected w then query n else [])) /\
    (parseInt (default limit (VNum 10)) = JNaN -> n = 10) /\
    (forall z, parseInt (default limit (VNum 10)) = JInt z -> n = z).
Proof.
  unfold getJobHistory, getRecentJobs.
  destruct (parseInt (default limit (VNum 10))) as [z| |] eqn:Hparse.
  - unfold Js.gt, Js.lt.
    destruct (Z.ltb_spec z 1); [now left|].
    destruct (Z.ltb_spec 100 z); [now left|].
    right. exists z. cbn [orb].
    split; [lia|]. split.
    + unfold limit_of. destruct z; try reflexivity; lia.
    + split; [discriminate|]. now intros z' [= <-].
  - left. reflexivity.
  - right. exists 10. split; [lia|]. split; [reflexivity|].
    split; [reflexivity|discriminate].
Qed.

End ControllerMore.

(* ================================================================== *)
(** ** Properties of the login token *)
(* ================================================================== *)

Module AuthFacts.
Import AuthService.

Lemma truthy_nonempty (t : string) : truthy (Some t) = true <-> t <> "".
Proof.
  unfold truthy. destruct (String.eqb_spec t ""); cbn; split; congruence.
Qed.

(** X25.  A token is used again until it expires, and not after.  Once
    [fetchToken] has received a token at time [issued], every
    [getValidToken] before [issued + refresh] returns that token without
    sending a login request and without changing the service; from
    [issued + refresh] on, [getValidToken] sends a login request. *)
Theorem token_reused_until_expiry (s : Service) (refresh issued : Z)
    (t : string) :
  t <> "" ->
  let s1 := fst (fetchToken s refresh issued (Answered (Some t))) in
  snd (fetchToken s refresh issued (Answered (Some t))) = inr t /\
  logins s1 = S (logins s) /\
  forall now answered reply,
    (now < issued + refresh ->
     getValidToken s1 refresh now answered reply = (s1, inr t)) /\
    (issued + refresh <= now ->
     logins (fst (getValidToken s1 refresh now answered reply))
     = S (logins s1)).
Proof.
  intros Ht. apply truthy_nonempty in Ht. cbn zeta.
  unfold fetchToken. rewrite Ht. cbn [fst snd logins].
  split; [reflexivity|]. split; [reflexivity|].
  intros now answered reply.
  unfold getValidToken, isTokenValid. cbn [tokenCache token expiresAt].
  rewrite Ht. cbn [andb]. split; intros Hnow.
  - destruct (Z.ltb_spec now (issued + refresh)); [reflexivity|lia].
  - destruct (Z.ltb_spec now (issued + refresh)); [lia|].
    unfold fetchToken, sent.
    destruct reply as [[t'|]|m]; [destruct (truthy (Some t'))| |];
      reflexivity.
Qed.

Lemma token_reused_until_expiry_witness :
  let s1 := fst (fetchToken constructed 1500000 1000
                   (Answered (Some "token-1"))) in
  getValidToken s1 1500000 1500999 1501500 (Failed "timeout")
  = (s1, inr "token-1") /\
  logins (fst (getValidToken s1 1500000 1501000 1501500 (Failed "timeout")))
  = 2%nat.
Proof.
  cbn zeta.
  destruct (token_reused_until_expiry constructed 1500000 1000 "token-1")
    as (_ & _ & H); [discriminate|].
  split.
  - apply (H 1500999 1501500 (Failed "timeout")). lia.
  - apply (H 1501000 1501500 (Failed "timeout")). lia.
Defined.

(** X26.  A login that fails changes nothing but the count of requests,
    and an expired token is never served again.  When [getValidToken]
    finds no valid token and the login request fails, or is answered
    without a token, the error thrown starts with
    "Authentication failed: ", the cache is left as it was, and, the
    clock not going backwards, every later [getValidToken] sends a login
    request again. *)
Theorem failed_login_keeps_cache (s : Service) (refresh now later answered : Z)
    (reply : Login) :
  isTokenValid s now = false ->
  now <= later ->
  reply = Answered None \/ reply = Answered (Some "") \/
  (exists m, reply = Failed m) ->
  let s' := fst (getValidToken s refresh now answered reply) in
  (exists msg,
     snd (getValidToken s refresh now answered reply)
     = inl (String.append "Authentication failed: " msg)) /\
  tokenCache s' = tokenCache s /\ logins s' = S (logins s) /\
  isTokenValid s' later = false /\
  forall answered' reply',
    logins (fst (getValidToken s' refresh later answered' reply'))
    = S (logins s').
Proof.
  intros Hinvalid Hlater Hreply. cbn zeta.
  assert (Hfetch : getValidToken s refresh now answered reply
                   = fetchToken s refresh answered reply).
  { unfold getValidToken. rewrite Hinvalid.
    now destruct (token (tokenCache s)). }
  rewrite Hfetch.
  assert (Hres : exists msg,
             fetchToken s refresh answered reply
             = (sent s, inl (String.append "Authentication failed: " msg))).
  { destruct Hreply as [-> | [-> | [m ->]]].
    - now exists "No token in response".
    - now exists "No token in response".
    - now exists m. }
  destruct Hres as (msg & ->). cbn [fst snd sent tokenCache logins].
  split; [now exists msg|]. split; [reflexivity|]. split; [reflexivity|].
  assert (Hinvalid' : isTokenValid (sent s) later = false).
  { unfold isTokenValid in *. cbn [sent tokenCache].
    destruct (truthy (token (tokenCache s))); [|reflexivity].
    cbn [andb] in *.
    destruct (Z.ltb_spec now (expiresAt (tokenCache s))); [discriminate|].
    destruct (Z.ltb_spec later (expiresAt (tokenCache s))); [lia|].
    reflexivity. }
  split; [exact Hinvalid'|].
  intros answered' reply'. unfold getValidToken. rewrite Hinvalid'.
  assert (Hsent : forall s0, logins (fst (fetchToken s0 refresh answered'
                                            reply'))
                             = S (logins s0)).
  { intros s0. unfold fetchToken, sent.
    destruct reply' as [[t'|]|m]; [destruct (truthy (Some t'))| |];
      reflexivity. }
  destruct (token (tokenCache (sent s))); apply Hsent.
Qed.

Lemma failed_login_keeps_cache_witness :
  let s := fst (fetchToken constructed 1500000 1000
                  (Answered (Some "token-1"))) in
  let s' := fst (getValidToken s 1500000 1501000 1516000
                   (Failed "timeout of 15000ms exceeded")) in
  snd (getValidToken s 1500000 1501000 1516000
         (Failed "timeout of 15000ms exceeded"))
  = inl "Authentication failed: timeout of 15000ms exceeded" /\
  tokenCache s' = tokenCache s /\
  isTokenValid s' 1600000 = false.
Proof.
  cbn zeta.
  destruct (failed_login_keeps_cache
              (fst (fetchToken constructed 1500000 1000
                      (Answered (Some "token-1"))))
              1500000 1501000 1600000 1516000
              (Failed "timeout of 15000ms exceeded"))
    as (_ & Hcache & _ & Hinvalid & _).
  - reflexivity.
  - lia.
  - right. right. now eexists.
  - split; [reflexivity|]. split; [exact Hcache|exact Hinvalid].
Defined.

Lemma issued_at_more (prior more : list Call) (t : string) (issued : Z) :
  issued_at prior t issued -> issued_at (prior ++ more) t issued.
Proof.
  intros (asked & Hin). exists asked. apply in_or_app. now left.
Qed.

Lemma cache_issued_step (refresh : Z) (prior : list Call) (s : Service)
    (asked answered : Z) (reply : Login) :
  cache_issued refresh prior s ->
  cache_issued refresh (prior ++ [Ask asked answered reply])
    (fst (getValidToken s refresh asked answered reply)).
Proof.
  intros Hinv.
  assert (Hkeep : cache_issued refresh (prior ++ [Ask asked answered reply])
                    s).
  { intros t Ht. destruct (Hinv t Ht) as (Hne & issued & His & Hexp).
    split; [exact Hne|]. exists issued.
    split; [now apply issued_at_more|exact Hexp]. }
  assert (Hfetch : cache_issued refresh
                     (prior ++ [Ask asked answered reply])
                     (fst (fetchToken s refresh answered reply))).
  { unfold fetchToken.
    destruct reply as [[t'|]|m]; [|exact Hkeep|exact Hkeep].
    destruct (truthy (Some t')) eqn:Ht'; [|exact Hkeep].
    intros t Ht. cbn [fst tokenCache token expiresAt] in *.
    injection Ht as <-. split; [now apply truthy_nonempty|].
    exists answered. split; [|reflexivity].
    exists asked. apply in_or_app. right. now left. }
  unfold getValidToken.
  destruct (token (tokenCache s)); [|exact Hfetch].
  destruct (isTokenValid s asked); [exact Hkeep|exact Hfetch].
Qed.

Lemma handed_out_fresh (refresh : Z) (calls prior : list Call) (s : Service)
    (now : Z) (t : string) :
  cache_issued refresh prior s ->
  In (now, t) (handed_out s refresh calls) ->
  t <> "" /\
  exists issued,
    issued_at (prior ++ calls) t issued /\
    (now < issued + refresh \/
     In (Ask now issued (Answered (Some t))) calls).
Proof.
  revert prior s.
  induction calls as [|c calls IH]; intros prior s Hinv Hin; [contradiction|].
  assert (Hnext : forall s',
             cache_issued refresh (prior ++ [c]) s' ->
             In (now, t) (handed_out s' refresh calls) ->
             t <> "" /\
             exists issued,
               issued_at (prior ++ c :: calls) t issued /\
               (now < issued + refresh \/
                In (Ask now issued (Answered (Some t))) (c :: calls))).
  { intros s' Hinv' Hin'.
    destruct (IH (prior ++ [c]) s' Hinv' Hin')
      as (Hne & issued & His & Hfresh).
    rewrite <- app_assoc in His. split; [exact Hne|].
    exists issued. split; [exact His|].
    destruct Hfresh as [Hfresh|Hfresh]; [now left|right; now right]. }
  destruct c as [asked answered reply|].
  - cbn [handed_out] in Hin.
    pose proof (cache_issued_step refresh prior s asked answered reply Hinv)
      as Hstep.
    destruct (getValidToken s refresh asked answered reply) as [s' result]
      eqn:Hget.
    cbn [fst] in Hstep.
    destruct result as [e|t']; [now apply (Hnext s')|].
    destruct Hin as [Heq|Hin]; [|now apply (Hnext s')].
    injection Heq as -> ->.
    unfold getValidToken in Hget.
    assert (Hfetched : fetchToken s refresh answered reply = (s', inr t) ->
                       t <> "" /\
                       exists issued,
                         issued_at (prior ++ Ask now answered reply :: calls)
                           t issued /\
                         (now < issued + refresh \/
                          In (Ask now issued (Answered (Some t)))
                            (Ask now answered reply :: calls))).
    { unfold fetchToken.
      destruct reply as [[t'|]|m]; [|discriminate|discriminate].
      destruct (truthy (Some t')) eqn:Ht'; [|discriminate].
      intros [= _ ->]. split; [now apply truthy_nonempty|].
      exists answered. split.
      - exists now. apply in_or_app. right. now left.
      - right. now left. }
    destruct (token (tokenCache s)) as [t0|] eqn:Htoken; [|auto].
    destruct (isTokenValid s now) eqn:Hvalid; [|auto].
    injection Hget as <- ->.
    destruct (Hinv t Htoken) as (Hne & issued & His & Hexp).
    split; [exact Hne|]. exists issued.
    split; [now apply issued_at_more|]. left.
    unfold isTokenValid in Hvalid. apply andb_prop in Hvalid.
    destruct Hvalid as [_ Hvalid]. apply Z.ltb_lt in Hvalid. lia.
  - cbn [handed_out] in Hin. apply (Hnext (clearToken s)); [|exact Hin].
    intros t' Ht'. discriminate Ht'.
Qed.

(** X27.  Every token handed out is fresh.  In any sequence of calls of
    [getValidToken] and [clearToken] on a new service, each call over
    before the next one starts, at any times and with any behaviour of
    the endpoint, a token that [getValidToken] returns is a non-empty
    token that the endpoint issued in an answer to one of the calls of
    the sequence, and either that answer came for the very call that
    returns it, or the token is returned less than [refresh] after the
    answer arrived. *)
Theorem tokens_handed_out_are_fresh (refresh : Z) (calls : list Call)
    (now : Z) (t : string) :
  In (now, t) (handed_out constructed refresh calls) ->
  t <> "" /\
  exists issued,
    issued_at calls t issued /\
    (now < issued + refresh \/
     In (Ask now issued (Answered (Some t))) calls).
Proof.
  intros Hin.
  apply (handed_out_fresh refresh calls [] constructed now t); [|exact Hin].
  intros t' Ht'. discriminate Ht'.
Qed.

Lemma tokens_handed_out_are_fresh_witness :
  let calls := [Ask 1000 1200 (Answered (Some "token-1"));
                Ask 900000 900200 (Failed "timeout");
                Clear;
                Ask 900500 900700 (Answered (Some "token-2"))] in
  handed_out constructed 1500000 calls
  = [(1000, "token-1"); (900000, "token-1"); (900500, "token-2")] /\
  exists issued,
    issued_at calls "token-1" issued /\
    (900000 < issued + 1500000 \/
     In (Ask 900000 issued (Answered (Some "token-1"))) calls).
Proof.
  cbn zeta. split; [reflexivity|].
  apply (tokens_handed_out_are_fresh 1500000
           [Ask 1000 1200 (Answered (Some "token-1"));
            Ask 900000 900200 (Failed "timeout");
            Clear;
            Ask 900500 900700 (Answered (Some "token-2"))]
           900000 "token-1").
  cbn. auto.
Defined.

End AuthFacts.

(* ================================================================== *)
(** ** Properties of the subscriber lookup *)
(* ================================================================== *)

Module MsisdnFacts.
Import MsisdnService.

Lemma get_set (k : string) (v : Entry) (m : list (string * Entry)) :
  get k (set k v m) = Some v.
Proof.
  induction m as [|[k' v'] m IH]; cbn [set get].
  - now rewrite String.eqb_refl.
  - destruct (String.eqb_spec k' k) as [->|Hne]; cbn [get].
    + now rewrite String.eqb_refl.
    + destruct (String.eqb_spec k' k); [contradiction|exact IH].
Qed.

Lemma or_string_absent (h : option string) (d : string) :
  absent h -> or_string h d = d.
Proof. intros [-> | ->]; reflexivity. Qed.

(** Requests without a cookie are told apart by their user agent only. *)
Lemma cacheKey_without_cookie (h h' : Headers) :
  absent (cookie h) -> absent (cookie h') ->
  user_agent h = user_agent h' ->
  cacheKey h' = cacheKey h.
Proof.
  intros Hc Hc' Hua. unfold cacheKey.
  rewrite (or_string_absent _ _ Hc), (or_string_absent _ _ Hc').
  now rewrite Hua.
Qed.

(** X28.  Requests without a cookie share their lookups.  Once the
    subscriber behind a request without cookie has been looked up with
    success, every request without cookie that carries the same user
    agent (or, like it, none) is answered with that subscriber's number
    for the next five minutes, whatever the endpoints would say about
    it: no lookup is made and the service is left as it is. *)
Theorem requests_without_cookie_share_lookups (s : Service)
    (net net' : Network) (h h' : Headers) (now answered later answered' : Z) :
  absent (cookie h) -> absent (cookie h') ->
  user_agent h = user_agent h' ->
  fetches (fst (getMsisdn s net h now answered)) = S (fetches s) ->
  success (snd (getMsisdn s net h now answered)) = true ->
  later - answered < cacheTTL ->
  let s1 := fst (getMsisdn s net h now answered) in
  getMsisdn s1 net' h' later answered'
  = (s1, snd (getMsisdn s net h now answered)).
Proof.
  intros Hc Hc' Hua Hfetched Hok Hlater. cbn zeta.
  pose proof (cacheKey_without_cookie h h' Hc Hc' Hua) as Hkey.
  assert (Hget : getMsisdn s net h now answered
                 = ({| cache := set (cacheKey h)
                                  {| data := fetchMsisdn net h;
                                     timestamp := answered |} (cache s);
                       fetches := S (fetches s) |}, fetchMsisdn net h)).
  { unfold getMsisdn in *.
    destruct (get (cacheKey h) (cache s)) as [cached|].
    - destruct (now - timestamp cached <? cacheTTL).
      + cbn [fst] in Hfetched. lia.
      + cbn [snd] in Hok. now rewrite Hok.
    - cbn [snd] in Hok. now rewrite Hok. }
  rewrite Hget. cbn [fst snd].
  unfold getMsisdn at 1. cbn [cache]. rewrite Hkey, get_set.
  cbn [timestamp data].
  destruct (Z.ltb_spec (later - answered) cacheTTL); [reflexivity|lia].
Qed.

Lemma requests_without_cookie_share_lookups_witness :
  let net := {| config_endpoint := fun _ _ => Data (Some "t-1");
                msisdn_endpoint :=
                  fun _ => Data {| responseCode := Some 200;
                                   body_msisdn := Some "254700000001" |} |} in
  let net' := {| config_endpoint := fun _ _ => Data (Some "t-2");
                 msisdn_endpoint :=
                   fun _ => Data {| responseCode := Some 200;
                                    body_msisdn := Some "254700000002" |} |} in
  let h := {| cookie := None; user_agent := Some "okhttp/4.9" |} in
  let h' := {| cookie := Some ""; user_agent := Some "okhttp/4.9" |} in
  let s := {| cache := []; fetches := 0 |} in
  snd (getMsisdn (fst (getMsisdn s net h 1000 1400)) net' h' 200000 200400)
  = found "254700000001".
Proof.
  cbn zeta.
  rewrite (requests_without_cookie_share_lookups
             {| cache := []; fetches := 0 |}
             {| config_endpoint := fun _ _ => Data (Some "t-1");
                msisdn_endpoint :=
                  fun _ => Data {| responseCode := Some 200;
                                   body_msisdn := Some "254700000001" |} |}
             {| config_endpoint := fun _ _ => Data (Some "t-2");
                msisdn_endpoint :=
                  fun _ => Data {| responseCode := Some 200;
                                   body_msisdn := Some "254700000002" |} |}
             {| cookie := None; user_agent := Some "okhttp/4.9" |}
             {| cookie := Some ""; user_agent := Some "okhttp/4.9" |}
             1000 1400 200000 200400).
  - reflexivity.
  - now left.
  - now right.
  - reflexivity.
  - reflexivity.
  - reflexivity.
  - reflexivity.
Defined.

Lemma get_in (k : string) (m : list (string * Entry)) (v : Entry) :
  get k m = Some v -> exists k', In (k', v) m.
Proof.
  induction m as [|[k' v'] m IH]; cbn [get]; [discriminate|].
  destruct (String.eqb k' k).
  - intros [= ->]. exists k'. now left.
  - intros H. destruct (IH H) as (k0 & Hin). exists k0. now right.
Qed.

Lemma set_only_successes (k : string) (v : Entry)
    (m : list (string * Entry)) :
  success (data v) = true ->
  Forall (fun kv => success (data (snd kv)) = true) m ->
  Forall (fun kv => success (data (snd kv)) = true) (set k v m).
Proof.
  intros Hv. induction 1 as [|[k' v'] m Hx Hm IH]; cbn [set].
  - constructor; [exact Hv|constructor].
  - destruct (String.eqb k' k); constructor; auto.
Qed.

(** X29.  The cache of the lookups holds successes only.  In a service
    whose cache holds only successful lookups (as the new service does),
    [getMsisdn] keeps it so; an answer given without a lookup is a
    success and leaves the service as it is; and a lookup that fails is
    not stored, so that, the clock not going backwards, the same request
    is looked up again the next time. *)
Theorem failed_lookups_are_not_cached (s : Service) (net : Network)
    (h : Headers) (now answered : Z) :
  only_successes s ->
  let s1 := fst (getMsisdn s net h now answered) in
  let result := snd (getMsisdn s net h now answered) in
  only_successes s1 /\
  (fetches s1 = fetches s -> success result = true /\ s1 = s) /\
  (success result = false ->
   cache s1 = cache s /\ fetches s1 = S (fetches s) /\
   forall net' later answered',
     now <= later ->
     fetches (fst (getMsisdn s1 net' h later answered')) = S (fetches s1)).
Proof.
  intros Hinv. cbn zeta. unfold only_successes in *.
  set (fetched := {| cache := if success (fetchMsisdn net h)
                              then set (cacheKey h)
                                     {| data := fetchMsisdn net h;
                                        timestamp := answered |}
                                     (cache s)
                              else cache s;
                     fetches := S (fetches s) |}).
  assert (Hfetch :
    Forall (fun kv => success (data (snd kv)) = true) (cache fetched) /\
    (fetches fetched = fetches s ->
     success (fetchMsisdn net h) = true /\ fetched = s) /\
    (success (fetchMsisdn net h) = false ->
     cache fetched = cache s /\ fetches fetched = S (fetches s))).
  { unfold fetched. cbn [cache fetches].
    destruct (success (fetchMsisdn net h)) eqn:Hok.
    - split; [now apply set_only_successes|]. split; [lia|discriminate].
    - split; [exact Hinv|]. split; [lia|]. now split. }
  destruct Hfetch as (Hf1 & Hf2 & Hf3).
  destruct (getMsisdn s net h now answered) as [s1 result] eqn:Hrun.
  cbn [fst snd]. unfold getMsisdn in Hrun. fold fetched in Hrun.
  destruct (get (cacheKey h) (cache s)) as [cached|] eqn:Hget.
  - destruct (Z.ltb_spec (now - timestamp cached) cacheTTL) as [Hlt|Hge];
      injection Hrun as <- <-.
    + assert (Hok : success (data cached) = true).
      { destruct (get_in _ _ _ Hget) as (k' & Hin).
        rewrite Forall_forall in Hinv. apply (Hinv (k', cached) Hin). }
      split; [exact Hinv|]. split; [now split|].
      intros Hbad. congruence.
    + split; [exact Hf1|]. split; [exact Hf2|].
      intros Hbad. destruct (Hf3 Hbad) as [Hcache Hcount].
      split; [exact Hcache|]. split; [exact Hcount|].
      intros net' later answered' Hmono.
      unfold getMsisdn. rewrite Hcache, Hget.
      destruct (Z.ltb_spec (later - timestamp cached) cacheTTL);
        [lia|reflexivity].
  - injection Hrun as <- <-.
    split; [exact Hf1|]. split; [exact Hf2|].
    intros Hbad. destruct (Hf3 Hbad) as [Hcache Hcount].
    split; [exact Hcache|]. split; [exact Hcount|].
    intros net' later answered' Hmono.
    unfold getMsisdn. rewrite Hcache, Hget. reflexivity.
Qed.

Lemma failed_lookups_are_not_cached_witness :
  let net := {| config_endpoint := fun _ _ => Data (Some "t-1");
                msisdn_endpoint :=
                  fun _ => Data {| responseCode := Some 403;
                                   body_msisdn := Some "254700000001" |} |} in
  let h := {| cookie := Some "sid=1"; user_agent := None |} in
  let s := {| cache := []; fetches := 0 |} in
  snd (getMsisdn s net h 1000 1400) = not_found "MSISDN not found" true /\
  cache (fst (getMsisdn s net h 1000 1400)) = [] /\
  fetches (fst (getMsisdn s net h 1000 1400)) = 1%nat.
Proof.
  cbn zeta. split; [reflexivity|].
  refine (let H := proj2 (proj2 (failed_lookups_are_not_cached
                          {| cache := []; fetches := 0 |}
                          {| config_endpoint := fun _ _ => Data (Some "t-1");
                             msisdn_endpoint :=
                               fun _ => Data {| responseCode := Some 403;
                                                body_msisdn :=
                                                  Some "254700000001" |} |}
                          {| cookie := Some "sid=1"; user_agent := None |}
                          1000 1400 _)) eq_refl in
          conj (proj1 H) (proj1 (proj2 H))).
  constructor.
Defined.

End MsisdnFacts.
